(** * RAG-Podcasts: a shallow embedding of the query-time pipeline

    The development follows the Python sources:
    - [ingest/chunk.py]   : [chunk_by_semantic_windows], [extract_guest_from_title]
    - [rerank/cross_encoder.py] : [get_rerank_model], [rerank_results]
    - [index/hybrid.py]   : [hybrid_search]
    - [llm/prompt.py]     : model loading, [build_context], [generate_answer]
    - [rag.py]            : [ask_podcast_question], [ingest_podcast_episode]
    - [ingest/embed.py]   : [get_embedding_model], [embed_text]
    - [ingest/clean.py]   : [normalize_whitespace]

    Conventions.  A Python [str] is a [string] whose characters are the code
    points below 256.  Python [int]s are [Z].  A function that can raise
    returns a [result]; functions that touch the module-level memo tables or
    call a model thread a [pystate] through the [M] monad.  External
    collaborators (the llama runtime, the cross-encoder, the embedding model,
    the OpenSearch client, the process environment) are fields of a [world],
    and so is what the interpreter does where the language leaves it open:
    the order [sorted] leaves when a key is a NaN. *)

From Stdlib Require Import ZArith List Ascii String Lia Permutation Sorted.
From stdpp Require Import base gmap strings list.

Local Open Scope Z_scope.

(* ===================================================================== *)
(** * Python built-ins on strings and lists                               *)
(* ===================================================================== *)

Module Py.

Definition code (c : ascii) : nat := nat_of_ascii c.

(** [str.isspace] on code points below 256. *)
Definition is_space (c : ascii) : bool :=
  let n := code c in
  ((9 <=? n) && (n <=? 13) || (28 <=? n) && (n <=? 32)
   || (n =? 133) || (n =? 160))%nat.

(** Line boundaries recognised by [str.splitlines] (below 256). *)
Definition is_linebreak (c : ascii) : bool :=
  let n := code c in
  ((10 <=? n) && (n <=? 13) || (28 <=? n) && (n <=? 30) || (n =? 133))%nat.

Definition is_upper_ascii (c : ascii) : bool :=
  let n := code c in ((65 <=? n) && (n <=? 90))%nat.
Definition is_lower_ascii (c : ascii) : bool :=
  let n := code c in ((97 <=? n) && (n <=? 122))%nat.
Definition is_digit (c : ascii) : bool :=
  let n := code c in ((48 <=? n) && (n <=? 57))%nat.

(** [str.isalnum] below 256: letters, digits and the numeric signs. *)
Definition is_alnum (c : ascii) : bool :=
  let n := code c in
  (is_upper_ascii c || is_lower_ascii c || is_digit c
   || (n =? 170) || (n =? 178) || (n =? 179) || (n =? 181)
   || (n =? 185) || (n =? 186) || (188 <=? n) && (n <=? 190)
   || (192 <=? n) && (n <=? 214) || (216 <=? n) && (n <=? 246)
   || (248 <=? n))%nat.

(** [\w] of the [re] module on [str] patterns. *)
Definition is_word (c : ascii) : bool := is_alnum c || (code c =? 95)%nat.

(** [str.lower] on one character (the code points 192..222 but 215 are
    the upper-case Latin-1 letters). *)
Definition lower_char (c : ascii) : ascii :=
  let n := code c in
  if (is_upper_ascii c
      || (192 <=? n) && (n <=? 222) && negb (n =? 215))%nat
  then ascii_of_nat (n + 32) else c.

(** [str.upper] restricted to ASCII letters; it is only applied to the
    values of [ModelType]. *)
Definition upper_char (c : ascii) : ascii :=
  if is_lower_ascii c then ascii_of_nat (code c - 32) else c.

Fixpoint smap (f : ascii -> ascii) (s : string) : string :=
  match s with
  | EmptyString => EmptyString
  | String c s' => String (f c) (smap f s')
  end.

Definition lower : string -> string := smap lower_char.
Definition upper : string -> string := smap upper_char.

Definition len (s : string) : Z := Z.of_nat (String.length s).

Definition chars (s : string) : list ascii := list_ascii_of_string s.
Definition of_chars (l : list ascii) : string := string_of_list_ascii l.

(** [sep.join(parts)] *)
Fixpoint join (sep : string) (parts : list string) : string :=
  match parts with
  | [] => EmptyString
  | [p] => p
  | p :: ps => p +:+ sep +:+ join sep ps
  end.

(** [s.lstrip()], [s.rstrip()], [s.strip()] *)
Fixpoint lstrip (s : string) : string :=
  match s with
  | String c s' => if is_space c then lstrip s' else s
  | EmptyString => EmptyString
  end.

Fixpoint rstrip (s : string) : string :=
  match s with
  | EmptyString => EmptyString
  | String c s' =>
      match rstrip s' with
      | EmptyString => if is_space c then EmptyString else String c EmptyString
      | r => String c r
      end
  end.

Definition strip (s : string) : string := rstrip (lstrip s).

(** [s.split()]: maximal runs of non-whitespace characters.  [cur] holds
    the characters of the word being read, most recent first. *)
Fixpoint split_go (cur : list ascii) (s : string) : list string :=
  match s with
  | EmptyString =>
      match cur with [] => [] | _ => [of_chars (rev cur)] end
  | String c s' =>
      if is_space c
      then match cur with
           | [] => split_go [] s'
           | _ => of_chars (rev cur) :: split_go [] s'
           end
      else split_go (c :: cur) s'
  end.

Definition split (s : string) : list string := split_go [] s.

(** [s.splitlines()]: every line boundary ends the line being read, a
    carriage return directly followed by a line feed is one boundary, and
    an unterminated last line counts when it is not empty. *)
Fixpoint splitlines_go (cur : list ascii) (s : string) : list string :=
  match s with
  | EmptyString =>
      match cur with [] => [] | _ => [of_chars (rev cur)] end
  | String c s' =>
      if is_linebreak c
      then of_chars (rev cur)
           :: match s' with
              | String c' s'' =>
                  if ((code c =? 13) && (code c' =? 10))%nat
                  then splitlines_go [] s''
                  else splitlines_go [] s'
              | EmptyString => splitlines_go [] s'
              end
      else splitlines_go (c :: cur) s'
  end.

Definition splitlines (s : string) : list string := splitlines_go [] s.

(** Truthiness of a [str]. *)
Definition truthy (s : string) : bool :=
  match s with EmptyString => false | _ => true end.

(** [xs[start:]] for any integer [start]. *)
Definition slice_from {A} (start : Z) (xs : list A) : list A :=
  let n := Z.of_nat (length xs) in
  let i := if start <? 0 then Z.max 0 (n + start) else Z.min start n in
  drop (Z.to_nat i) xs.

Fixpoint take_chars (n : nat) (s : string) : string :=
  match n, s with
  | S n', String c s' => String c (take_chars n' s')
  | _, _ => EmptyString
  end.

Fixpoint drop_chars (n : nat) (s : string) : string :=
  match n, s with
  | S n', String _ s' => drop_chars n' s'
  | _, _ => s
  end.

(** [s[:stop]] for any integer [stop]. *)
Definition prefix (stop : Z) (s : string) : string :=
  let n := len s in
  let j := if stop <? 0 then Z.max 0 (n + stop) else Z.min stop n in
  take_chars (Z.to_nat j) s.

(** [sub in s] *)
Fixpoint starts_with (sub s : string) : bool :=
  match sub, s with
  | EmptyString, _ => true
  | String a sub', String b s' => if Ascii.eqb a b then starts_with sub' s' else false
  | String _ _, EmptyString => false
  end.

Fixpoint contains (sub s : string) : bool :=
  starts_with sub s ||
  match s with
  | EmptyString => false
  | String _ s' => contains sub s'
  end.

(** [s.rsplit(" ", 1)[0]]: what precedes the last space, or all of [s]
    when it has none. *)
Fixpoint before_last_space (s : string) : option string :=
  match s with
  | EmptyString => None
  | String c s' =>
      match before_last_space s' with
      | Some p => Some (String c p)
      | None => if Ascii.eqb c " " then Some EmptyString else None
      end
  end.

Definition rsplit1_head (s : string) : string :=
  match before_last_space s with Some p => p | None => s end.

(** [int(n * 1.3)] for an integer [n >= 0] and [int(n / 1.3)] for any
    integer [n].  In binary64 the constant is
    1.3000000000000000444; for |n| < 2^50 the rounded product and
    quotient lie on the same side of every integer as the exact 13n/10
    and 10n/13, and [int] truncates toward zero. *)
Definition int_times_1_3 (n : Z) : Z := Z.quot (13 * n) 10.
Definition int_div_1_3 (n : Z) : Z := Z.quot (10 * n) 13.

End Py.

(* ===================================================================== *)
(** * The fragment of [re] the sources use                                 *)
(* ===================================================================== *)

Module Re.

Inductive regex :=
| Chr (p : ascii -> bool)     (* one character of a class *)
| Eps
| Seq (a b : regex)
| Alt (a b : regex)           (* a|b, left first *)
| Star (a : regex)            (* greedy a* *)
| Group (a : regex)           (* capturing group 1 *)
| Bol                         (* ^ *)
| Eol                         (* $ *)
| WordB.                      (* \b *)

Definition Plus (a : regex) : regex := Seq a (Star a).
Definition Opt (a : regex) : regex := Alt a Eps.

(** Literal text, case-sensitive or under [re.IGNORECASE]. *)
Definition lit1 (c : ascii) : regex := Chr (Ascii.eqb c).
Definition lit1_i (c : ascii) : regex :=
  Chr (fun x => Ascii.eqb (Py.lower_char x) (Py.lower_char c)).

Fixpoint lit (s : string) : regex :=
  match s with
  | EmptyString => Eps
  | String c s' => Seq (lit1 c) (lit s')
  end.

Fixpoint lit_i (s : string) : regex :=
  match s with
  | EmptyString => Eps
  | String c s' => Seq (lit1_i c) (lit_i s')
  end.

Definition span := option (nat * nat).

Section Matcher.
Context {R : Type}.
Variable inp : list ascii.

Definition at_word (i : nat) : bool :=
  match nth_error inp i with Some c => Py.is_word c | None => false end.

Definition word_boundary (i : nat) : bool :=
  let before := match i with O => false | S j => at_word j end in
  negb (Bool.eqb before (at_word i)).

(** [$] without [re.MULTILINE]: the end, or just before a final
    line feed. *)
Definition at_eol (i : nat) : bool :=
  let n := length inp in
  ((i =? n) ||
   ((S i =? n) && match nth_error inp i with
                  | Some c => (Py.code c =? 10)
                  | None => false
                  end))%nat.

(** Backtracking matcher in continuation style: [k] receives the end
    position and the span of group 1.  A starred body that consumes
    nothing does not iterate. *)
Fixpoint run (r : regex) (i : nat) (g : span)
         (k : nat -> span -> option R) {struct r} : option R :=
  match r with
  | Chr p =>
      match nth_error inp i with
      | Some c => if p c then k (S i) g else None
      | None => None
      end
  | Eps => k i g
  | Seq a b => run a i g (fun j g' => run b j g' k)
  | Alt a b =>
      match run a i g k with
      | Some x => Some x
      | None => run b i g k
      end
  | Star a =>
      (fix loop (fuel : nat) (i : nat) (g : span) {struct fuel} : option R :=
         match fuel with
         | O => k i g
         | S fuel' =>
             match run a i g
                     (fun j g' => if (i <? j)%nat then loop fuel' j g' else None) with
             | Some x => Some x
             | None => k i g
             end
         end) (S (length inp - i)) i g
  | Group a => run a i g (fun j _ => k j (Some (i, j)))
  | Bol => if (i =? 0)%nat then k i g else None
  | Eol => if at_eol i then k i g else None
  | WordB => if word_boundary i then k i g else None
  end.
End Matcher.

(** A match: start, end, span of group 1. *)
Record rmatch := { m_start : nat; m_end : nat; m_group : span }.

Definition match_at (r : regex) (inp : list ascii) (i : nat) : option rmatch :=
  run inp r i None (fun j g => Some {| m_start := i; m_end := j; m_group := g |}).

(** [re.search] from position [i]: leftmost start. *)
Fixpoint search_from (r : regex) (inp : list ascii) (i fuel : nat) : option rmatch :=
  match match_at r inp i with
  | Some m => Some m
  | None =>
      match fuel with
      | O => None
      | S fuel' => search_from r inp (S i) fuel'
      end
  end.

Definition search (r : regex) (s : string) : option rmatch :=
  let inp := Py.chars s in search_from r inp 0 (length inp).

(** [pattern.match(s)]: anchored at position 0. *)
Definition matches_prefix (r : regex) (s : string) : bool :=
  match match_at r (Py.chars s) 0 with Some _ => true | None => false end.

Definition substr (inp : list ascii) (a b : nat) : string :=
  Py.of_chars (take (b - a) (drop a inp)).

(** [match.group(1)] *)
Definition group1 (s : string) (m : rmatch) : option string :=
  match m_group m with
  | Some (a, b) => Some (substr (Py.chars s) a b)
  | None => None
  end.

(** [re.split(r, s)] for a pattern without groups whose matches are
    never empty. *)
Fixpoint split_from (r : regex) (inp : list ascii) (last fuel : nat) : list string :=
  match fuel with
  | O => [substr inp last (length inp)]
  | S fuel' =>
      match search_from r inp last (length inp - last) with
      | Some m =>
          if (last <? m_end m)%nat
          then substr inp last (m_start m) :: split_from r inp (m_end m) fuel'
          else [substr inp last (length inp)]
      | None => [substr inp last (length inp)]
      end
  end.

Definition split (r : regex) (s : string) : list string :=
  let inp := Py.chars s in split_from r inp 0 (S (length inp)).

End Re.

(* ===================================================================== *)
(** * ingest/chunk.py                                                      *)
(* ===================================================================== *)

(** [r"^(Host|Guest|Speaker \d+|Interviewer):"] with [re.IGNORECASE] *)
Definition speaker_pattern : Re.regex :=
  Re.Seq Re.Bol
    (Re.Seq
       (Re.Group
          (Re.Alt (Re.lit_i "Host")
             (Re.Alt (Re.lit_i "Guest")
                (Re.Alt (Re.Seq (Re.lit_i "Speaker ") (Re.Plus (Re.Chr Py.is_digit)))
                   (Re.lit_i "Interviewer")))))
       (Re.lit1_i ":")).

(** [r"\n\s*\n"] *)
Definition blank_line_pattern : Re.regex :=
  Re.Seq (Re.lit1 "010") (Re.Seq (Re.Star (Re.Chr Py.is_space)) (Re.lit1 "010")).

(** [[l.strip() for l in text.splitlines() if l.strip()]] *)
Definition stripped_lines (text : string) : list string :=
  map Py.strip (List.filter (fun l => Py.truthy (Py.strip l)) (Py.splitlines text)).

(** The first loop: [(blocks, current)] after reading the lines. *)
Fixpoint speaker_blocks_loop (lines : list string) (blocks current : list string)
  : list string * list string :=
  match lines with
  | [] => (blocks, current)
  | line :: rest =>
      let '(blocks1, current1) :=
        if Re.matches_prefix speaker_pattern line
        then match current with
             | [] => (blocks, current)
             | _ => (blocks ++ [Py.join " " current], [])
             end
        else (blocks, current) in
      speaker_blocks_loop rest blocks1 (current1 ++ [line])
  end.

Definition speaker_blocks (text : string) : list string :=
  let '(blocks, current) := speaker_blocks_loop (stripped_lines text) [] [] in
  match current with
  | [] => blocks
  | _ => blocks ++ [Py.join " " current]
  end.

Definition paragraph_blocks (text : string) : list string :=
  map Py.strip
    (List.filter (fun b => Py.truthy (Py.strip b)) (Re.split blank_line_pattern text)).

(** The value of [blocks] when the chunking loop starts. *)
Definition transcript_blocks (text : string) : list string :=
  let blocks := speaker_blocks text in
  if (length blocks <? 3)%nat then paragraph_blocks text else blocks.

Definition estimate_tokens (txt : string) : Z :=
  Py.int_times_1_3 (Z.of_nat (length (Py.split txt))).

(** State of the chunking loop: [chunks], [buffer], [token_count]. *)
Record chunk_state := {
  cs_chunks : list string;
  cs_buffer : list string;
  cs_token_count : Z;
}.

(** The overlap seeding of lines 66-68. *)
Definition overlap_seed (overlap : Z) (chunk_text : string) : list string :=
  let overlap_words := Py.int_div_1_3 overlap in
  Py.slice_from (- overlap_words) (Py.split chunk_text).

(** One iteration of [for block in blocks]. *)
Definition chunk_step (max_tokens overlap : Z) (st : chunk_state) (block : string)
  : chunk_state :=
  let tokens := estimate_tokens block in
  let st1 :=
    if cs_token_count st + tokens >? max_tokens
    then
      let chunk_text := Py.join " " (cs_buffer st) in
      let buffer := overlap_seed overlap chunk_text in
      {| cs_chunks := cs_chunks st ++ [chunk_text];
         cs_buffer := buffer;
         cs_token_count := estimate_tokens (Py.join " " buffer) |}
    else st in
  {| cs_chunks := cs_chunks st1;
     cs_buffer := cs_buffer st1 ++ [block];
     cs_token_count := cs_token_count st1 + tokens |}.

Definition chunk_loop (max_tokens overlap : Z) (blocks : list string)
           (st : chunk_state) : chunk_state :=
  fold_left (chunk_step max_tokens overlap) blocks st.

Definition chunk_init : chunk_state :=
  {| cs_chunks := []; cs_buffer := []; cs_token_count := 0 |}.

(** The texts collected in [chunks] when the function returns. *)
Definition chunk_texts (max_tokens overlap : Z) (blocks : list string) : list string :=
  let st := chunk_loop max_tokens overlap blocks chunk_init in
  match cs_buffer st with
  | [] => cs_chunks st
  | _ => cs_chunks st ++ [Py.join " " (cs_buffer st)]
  end.

(** One element of the returned list; [timestamp] is always [None]. *)
Record chunk := {
  chunk_text : string;
  chunk_timestamp : option string;
  paragraph_index : nat;
}.

(** [enumerate(chunks)] from [idx]. *)
Fixpoint enumerate_chunks (idx : nat) (chunks : list string) : list chunk :=
  match chunks with
  | [] => []
  | c :: rest =>
      {| chunk_text := c; chunk_timestamp := None; paragraph_index := idx |}
        :: enumerate_chunks (S idx) rest
  end.

Definition chunk_by_semantic_windows (text : string) (max_tokens overlap : Z)
  : list chunk :=
  enumerate_chunks 0 (chunk_texts max_tokens overlap (transcript_blocks text)).

Definition default_max_tokens : Z := 240.
Definition default_overlap : Z := 40.

(** ** [extract_guest_from_title] *)

Definition is_ascii_letter (c : ascii) : bool :=
  Py.is_upper_ascii c || Py.is_lower_ascii c.

(** [[A-Z][a-z]+(?:\s+[A-Z][a-z]+)+] where [up] and [lo] are the classes
    [[A-Z]] and [[a-z]] as the flags of the pattern make them. *)
Definition name_pattern (up lo : ascii -> bool) : Re.regex :=
  let word := Re.Seq (Re.Chr up) (Re.Plus (Re.Chr lo)) in
  Re.Seq word (Re.Plus (Re.Seq (Re.Plus (Re.Chr Py.is_space)) word)).

(** Under [re.IGNORECASE] both classes match every ASCII letter. *)
Definition name_pattern_ignorecase : Re.regex :=
  name_pattern is_ascii_letter is_ascii_letter.
Definition name_pattern_cased : Re.regex :=
  name_pattern Py.is_upper_ascii Py.is_lower_ascii.

(** [r"\bwith\s+([A-Z][a-z]+(?:\s+[A-Z][a-z]+)+)"], [re.IGNORECASE] *)
Definition with_pattern : Re.regex :=
  Re.Seq Re.WordB
    (Re.Seq (Re.lit_i "with")
       (Re.Seq (Re.Plus (Re.Chr Py.is_space)) (Re.Group name_pattern_ignorecase))).

(** [r"\b(?:ft\.?|featuring)\s+([A-Z][a-z]+(?:\s+[A-Z][a-z]+)+)"],
    [re.IGNORECASE] *)
Definition featuring_pattern : Re.regex :=
  Re.Seq Re.WordB
    (Re.Seq
       (Re.Alt (Re.Seq (Re.lit_i "ft") (Re.Opt (Re.lit1_i ".")))
               (Re.lit_i "featuring"))
       (Re.Seq (Re.Plus (Re.Chr Py.is_space)) (Re.Group name_pattern_ignorecase))).

(** [r"^([A-Z][a-z]+(?:\s+[A-Z][a-z]+)+)\s+on\s+"] *)
Definition on_pattern : Re.regex :=
  Re.Seq Re.Bol
    (Re.Seq (Re.Group name_pattern_cased)
       (Re.Seq (Re.Plus (Re.Chr Py.is_space))
          (Re.Seq (Re.lit "on") (Re.Plus (Re.Chr Py.is_space))))).

(** [r"[|\-]\s*([A-Z][a-z]+(?:\s+[A-Z][a-z]+)+)\s*$"] *)
Definition trailing_pattern : Re.regex :=
  Re.Seq (Re.Chr (fun c => Ascii.eqb c "|" || Ascii.eqb c "-"))
    (Re.Seq (Re.Star (Re.Chr Py.is_space))
       (Re.Seq (Re.Group name_pattern_cased)
          (Re.Seq (Re.Star (Re.Chr Py.is_space)) Re.Eol))).

(** [re.search(p, title)] followed by [match.group(1)]. *)
Definition search_group1 (p : Re.regex) (title : string) : option string :=
  match Re.search p title with
  | Some m => Re.group1 title m
  | None => None
  end.

Definition extract_guest_from_title (title : string) : string * option string :=
  match Re.search with_pattern title with
  | Some m => (title, Re.group1 title m)
  | None =>
  match Re.search featuring_pattern title with
  | Some m => (title, Re.group1 title m)
  | None =>
  match Re.search on_pattern title with
  | Some m => (title, Re.group1 title m)
  | None =>
  match Re.search trailing_pattern title with
  | Some m => (title, Re.group1 title m)
  | None => (title, None)
  end end end end.


(* ===================================================================== *)
(** * Exceptions, floats, events, state                                    *)
(* ===================================================================== *)

(** The classes the sources name in [except] clauses, and the rest of
    [Exception]. *)
Inductive exn_class :=
| ValueError | RuntimeError | KeyError | TypeError | AttributeError
| IndexError | OtherException.

Global Instance exn_class_eq_dec : EqDecision exn_class.
Proof. solve_decision. Defined.

(** An exception object: its class and [str(e)]. *)
Record exn := Exn { exn_cls : exn_class; exn_str : string }.

Inductive result (A : Type) :=
| Ok (a : A)
| Raise (e : exn).
Arguments Ok {A} a.
Arguments Raise {A} e.

(** A Python [float], as its binary64 bit pattern. *)
Record float64 := F64 { f64_bits : Z }.

Definition f64_is_nan (x : float64) : bool :=
  let magnitude := f64_bits x mod 2 ^ 63 in
  magnitude >? 9218868437227405312.

(** Order-preserving integer image of a float that is not a NaN: the sign
    bit negates the magnitude, so the two zeros coincide. *)
Definition f64_key (x : float64) : Z :=
  let magnitude := f64_bits x mod 2 ^ 63 in
  if f64_bits x / 2 ^ 63 =? 1 then - magnitude else magnitude.

(** [x < y] on floats: false as soon as one side is a NaN. *)
Definition f64_lt (x y : float64) : bool :=
  negb (f64_is_nan x) && negb (f64_is_nan y) && (f64_key x <? f64_key y).

(** The literal [0.2]. *)
Definition float_0_2 : float64 := F64 4596373779694328218.

Inductive ModelType := PHI3_MINI | TINYLLAMA | LLAMA3_8B.

Global Instance ModelType_eq_dec : EqDecision ModelType.
Proof. solve_decision. Defined.

Definition ModelType_value (m : ModelType) : string :=
  match m with
  | PHI3_MINI => "phi3_mini"
  | TINYLLAMA => "tinyllama"
  | LLAMA3_8B => "llama3_8b"
  end.

(** What [Llama(...)] is constructed from; the object is identified by it. *)
Record llama_handle := {
  lh_model_path : string;
  lh_temperature : float64;
  lh_n_ctx : Z;
  lh_n_threads : Z;
  lh_n_gpu_layers : Z;
}.

(** The completion dictionary, as far as [generate_answer] reads it:
    [response.get("choices", [])] and [parts[0].get("text", '')]. *)
Record completion_choice := { choice_text : option string }.
Record completion := { completion_choices : option (list completion_choice) }.

(** Values stored in a hit dictionary; a [_source] dictionary maps field
    names to a string or to [None]. *)
Inductive hval :=
| HNone
| HStr (s : string)
| HFloat (x : float64)
| HDict (d : gmap string (option string)).

Abbreviation hit := (gmap string hval).

(** The request body [hybrid_search] builds. *)
Inductive must_clause :=
| MatchChunkText (query : string)
| MatchAll.

Inductive filter_clause :=
| TermPodcastName (name : string)
| TermsTopics (topics : list string).

Record search_body := {
  body_size : Z;
  body_must : list must_clause;
  body_knn_vector : list float64;
  body_knn_k : Z;
  body_filter : option (list filter_clause);
}.

(** [response.get("hits", {}).get("hits", [])] reads two levels. *)
Record search_response := { resp_hits : option (option (list hit)) }.

(** Calls that leave the process or enter a model, in program order. *)
Inductive event :=
| EvLoadModel (m : ModelType)                       (* _load_model(m) entered *)
| EvLlamaInit (h : llama_handle)                    (* Llama(...) *)
| EvLlamaCall (h : llama_handle) (prompt : string) (max_tokens : Z)
              (temperature : float64)               (* model(prompt, ...) *)
| EvCrossEncoderInit (name : string)                (* CrossEncoder(name) *)
| EvPredict (name : string) (pairs : list (string * option string))
| EvEmbeddingInit
| EvEncode (text : string)
| EvSearch (index : string) (body : search_body).

(** The collaborators.  Every call sees the events so far, so a
    collaborator may answer the same call differently over time. *)
Record world := {
  getenv : string -> option string;                 (* os.getenv *)
  int_of_str : string -> option Z;                  (* int(s); None: ValueError *)
  float_of_str : string -> option float64;          (* float(s); None: ValueError *)
  (* llm/prompt.py module constants read with int() at import *)
  LLAMA_N_THREADS : Z;
  LLAMA_N_GPU_LAYERS : Z;
  CONTEXT_CHUNK_MAX_CHARS : Z;
  (* llama_cpp *)
  Llama_imported : bool;                            (* Llama is not None *)
  Llama_init : list event -> llama_handle -> option exn;
  Llama_call : list event -> llama_handle -> string -> Z -> float64 ->
               result completion;
  (* sentence_transformers *)
  CrossEncoder_imported : bool;
  CrossEncoder_init : list event -> string -> option exn;
  CrossEncoder_predict : list event -> string ->
                         list (string * option string) -> result (list float64);
  SentenceTransformer_imported : bool;
  SentenceTransformer_init : list event -> option exn;
  SentenceTransformer_encode : list event -> string -> result (list float64);
  EMBEDDING_MODEL : string;
  PODCAST_INDEX : string;
  (* the interpreter: the order of indices that [sorted(..., reverse=True)]
     leaves when a NaN is among the keys, given the keys in list order;
     Python fixes the result of a sort only when [<] orders the keys *)
  sorted_reverse_with_nan : list float64 -> list nat;
}.

(** The OpenSearch client passed to the query functions. *)
Record opensearch_client := {
  client_search : list event -> string -> search_body -> result search_response;
}.

(** Module-level mutable state, the dictionaries that hits refer to, and
    the trace of events. *)
Record pystate := {
  loaded_models : ModelType -> option llama_handle;   (* _loaded_models *)
  rerank_model : option string;                       (* _rerank_model *)
  embedding_model : bool;                             (* _embedding_model is not None *)
  heap : gmap nat hit;
  trace : list event;
}.

Definition initial_state : pystate :=
  {| loaded_models := fun _ => None;
     rerank_model := None;
     embedding_model := false;
     heap := ∅;
     trace := [] |}.

(** ** The monad of state and exceptions *)

Definition M (A : Type) : Type := pystate -> result A * pystate.

Definition ret {A} (a : A) : M A := fun st => (Ok a, st).
Definition raise {A} (e : exn) : M A := fun st => (Raise e, st).
Definition bind {A B} (m : M A) (k : A -> M B) : M B :=
  fun st =>
    match m st with
    | (Ok a, st') => k a st'
    | (Raise e, st') => (Raise e, st')
    end.

(** [try: m except <classes in handles>: h] *)
Definition try_except {A} (m : M A) (handles : exn -> bool) (h : exn -> M A) : M A :=
  fun st =>
    match m st with
    | (Ok a, st') => (Ok a, st')
    | (Raise e, st') => if handles e then h e st' else (Raise e, st')
    end.

Definition lift_result {A} (r : result A) : M A := fun st => (r, st).
Definition get_trace : M (list event) := fun st => (Ok (trace st), st).
(** The state with one more event in its trace. *)
Definition logged (st : pystate) (ev : event) : pystate :=
  {| loaded_models := loaded_models st;
     rerank_model := rerank_model st;
     embedding_model := embedding_model st;
     heap := heap st;
     trace := trace st ++ [ev] |}.

Definition emit (ev : event) : M unit := fun st => (Ok tt, logged st ev).

Notation "'do' x <- m ; k" := (bind m (fun x => k))
  (at level 10, x name, m at level 100, k at level 200).
Notation "'do' ' p <- m ; k" := (bind m (fun x => match x with p => k end))
  (at level 10, p pattern, m at level 100, k at level 200).

Definition is_class (c : exn_class) (e : exn) : bool := bool_decide (exn_cls e = c).
Definition any_exception (e : exn) : bool := true.

(* ===================================================================== *)
(** * llm/prompt.py                                                        *)
(* ===================================================================== *)

Record model_config := {
  path_env : string;
  cfg_default_max_tokens : Z;
  cfg_default_n_ctx : Z;
  cfg_default_temperature : float64;
  description : string;
}.

Definition MODEL_CONFIGS (m : ModelType) : model_config :=
  match m with
  | PHI3_MINI =>
      {| path_env := "PHI3_MODEL_PATH"; cfg_default_max_tokens := 500;
         cfg_default_n_ctx := 4096; cfg_default_temperature := float_0_2;
         description := "Phi-3 Mini (Main LLM)" |}
  | TINYLLAMA =>
      {| path_env := "TINYLLAMA_MODEL_PATH"; cfg_default_max_tokens := 250;
         cfg_default_n_ctx := 2048; cfg_default_temperature := float_0_2;
         description := "TinyLlama (Fast Fallback)" |}
  | LLAMA3_8B =>
      {| path_env := "LLAMA3_8B_MODEL_PATH"; cfg_default_max_tokens := 1000;
         cfg_default_n_ctx := 8192; cfg_default_temperature := float_0_2;
         description := "Llama-3.1-8B (Bigger Option)" |}
  end.

(** [os.getenv(name, default)] *)
Definition getenv_default (w : world) (name default : string) : string :=
  match getenv w name with Some v => v | None => default end.

Definition PRIMARY_MODEL (w : world) : string :=
  Py.lower (getenv_default w "PRIMARY_MODEL" "phi3_mini").
Definition FALLBACK_MODEL (w : world) : string :=
  Py.lower (getenv_default w "FALLBACK_MODEL" "tinyllama").
Definition USE_BIGGER_MODEL (w : world) : bool :=
  String.eqb (Py.lower (getenv_default w "USE_BIGGER_MODEL" "false")) "true".

(** Truthiness of an [Optional[str]]. *)
Definition opt_truthy (o : option string) : bool :=
  match o with Some s => Py.truthy s | None => false end.

Definition _get_model_path (w : world) (model_type : ModelType) : option string :=
  let config := MODEL_CONFIGS model_type in
  let path := getenv w (path_env config) in
  if negb (opt_truthy path) then
    match getenv w "LLAMA_MODEL_PATH" with
    | Some legacy_path =>
        if Py.truthy legacy_path then
          let legacy_lower := Py.lower legacy_path in
          if bool_decide (model_type = LLAMA3_8B)
             && (Py.contains "llama" legacy_lower || Py.contains "8b" legacy_lower)
          then Some legacy_path
          else if bool_decide (model_type = PHI3_MINI) && Py.contains "phi" legacy_lower
          then Some legacy_path
          else if bool_decide (model_type = TINYLLAMA) && Py.contains "tiny" legacy_lower
          then Some legacy_path
          else path
        else path
    | None => path
    end
  else path.

(** [repr] of a string inside an error message (quotes, no escapes). *)
Definition quoted (s : string) : string := "'" +:+ s +:+ "'".

(** [int(os.getenv(name, default))] with an integer default. *)
Definition env_int (w : world) (name : string) (default : Z) : result Z :=
  match getenv w name with
  | None => Ok default
  | Some v =>
      match int_of_str w v with
      | Some n => Ok n
      | None => Raise (Exn ValueError
                        ("invalid literal for int() with base 10: " +:+ quoted v))
      end
  end.

(** [float(os.getenv(name, default))] with a float default. *)
Definition env_float (w : world) (name : string) (default : float64) : result float64 :=
  match getenv w name with
  | None => Ok default
  | Some v =>
      match float_of_str w v with
      | Some x => Ok x
      | None => Raise (Exn ValueError
                        ("could not convert string to float: " +:+ quoted v))
      end
  end.

Definition set_loaded_model (model_type : ModelType) (model : llama_handle) : M unit :=
  fun st =>
    (Ok tt,
     {| loaded_models := fun m => if bool_decide (m = model_type) then Some model
                                  else loaded_models st m;
        rerank_model := rerank_model st;
        embedding_model := embedding_model st;
        heap := heap st;
        trace := trace st |}).

Definition get_loaded_model (model_type : ModelType) : M (option llama_handle) :=
  fun st => (Ok (loaded_models st model_type), st).

Definition _load_model (w : world) (model_type : ModelType) : M llama_handle :=
  do _ <- emit (EvLoadModel model_type);
  if negb (Llama_imported w) then
    raise (Exn RuntimeError
             "`llama-cpp-python` is required. Install it with: `pip install llama-cpp-python`.")
  else
  do loaded <- get_loaded_model model_type;
  match loaded with
  | Some model => ret model
  | None =>
      match _get_model_path w model_type with
      | Some (String c p) =>
          let model_path := String c p in
          let config := MODEL_CONFIGS model_type in
          do n_ctx <- lift_result
                        (env_int w (Py.upper (ModelType_value model_type) +:+ "_N_CTX")
                           (cfg_default_n_ctx config));
          do temperature <- lift_result
                        (env_float w (Py.upper (ModelType_value model_type) +:+ "_TEMPERATURE")
                           (cfg_default_temperature config));
          let model := {| lh_model_path := model_path;
                          lh_temperature := temperature;
                          lh_n_ctx := n_ctx;
                          lh_n_threads := LLAMA_N_THREADS w;
                          lh_n_gpu_layers := LLAMA_N_GPU_LAYERS w |} in
          do tr <- get_trace;
          do _ <- emit (EvLlamaInit model);
          match Llama_init w tr model with
          | Some e => raise e
          | None =>
              do _ <- set_loaded_model model_type model;
              ret model
          end
      | _ =>
          raise (Exn RuntimeError
                   ("Model path not set for " +:+ ModelType_value model_type +:+ ". "
                    +:+ "Set " +:+ path_env (MODEL_CONFIGS model_type)
                    +:+ " environment variable."))
      end
  end.

Definition mem_str (s : string) (l : list string) : bool :=
  existsb (String.eqb s) l.

Definition _get_model_type_from_string (model_str : string) : result ModelType :=
  let model_str := Py.lower model_str in
  if mem_str model_str ["phi3"; "phi3_mini"; "phi-3-mini"] then Ok PHI3_MINI
  else if mem_str model_str ["tinyllama"; "tiny-llama"] then Ok TINYLLAMA
  else if mem_str model_str ["llama3"; "llama3_8b"; "llama-3.1-8b"; "llama-3-8b"]
  then Ok LLAMA3_8B
  else Raise (Exn ValueError ("Unknown model type: " +:+ model_str)).

Definition value_or_runtime_error (e : exn) : bool :=
  is_class ValueError e || is_class RuntimeError e.

Definition _get_fallback_model (w : world) : M llama_handle :=
  try_except
    (do model_type <- lift_result (_get_model_type_from_string (FALLBACK_MODEL w));
     _load_model w model_type)
    value_or_runtime_error
    (fun e =>
       raise (Exn RuntimeError
                ("Failed to load fallback model (" +:+ FALLBACK_MODEL w +:+ "): "
                 +:+ exn_str e +:+ ". "
                 +:+ "Please configure at least one model path."))).

Definition _get_primary_model (w : world) : M llama_handle :=
  try_except
    (do model_type <- lift_result (_get_model_type_from_string (PRIMARY_MODEL w));
     _load_model w model_type)
    value_or_runtime_error
    (fun _ => _get_fallback_model w).

Definition _get_bigger_model (w : world) : M (option llama_handle) :=
  if negb (USE_BIGGER_MODEL w) then ret None
  else
    try_except
      (do model <- _load_model w LLAMA3_8B; ret (Some model))
      (is_class RuntimeError)
      (fun _ => ret None).

(** ** [build_context] *)

Definition truncation_marker : string := "... [truncated]".

(** Lines 213-219: the chunk text as it is rendered. *)
Definition render_chunk_text (max_chars : Z) (chunk_text : string) : string :=
  if negb (max_chars =? 0) && (Py.len chunk_text >? max_chars) then
    let truncated := Py.prefix max_chars chunk_text in
    let truncated :=
      if Py.contains " " truncated then Py.rsplit1_head truncated else truncated in
    truncated +:+ truncation_marker
  else chunk_text.

(** Formatting of a field value inside an f-string. *)
Definition fmt (v : option string) : string :=
  match v with Some s => s | None => "None" end.

(** [src[key]] *)
Definition src_item (src : gmap string (option string)) (key : string)
  : result (option string) :=
  match src !! key with
  | Some v => Ok v
  | None => Raise (Exn KeyError (quoted key))
  end.

(** [src.get(key)]: a missing key reads as [None]. *)
Definition src_get (src : gmap string (option string)) (key : string) : option string :=
  match src !! key with Some v => v | None => None end.

Definition result_bind {A B} (r : result A) (k : A -> result B) : result B :=
  match r with Ok a => k a | Raise e => Raise e end.

Notation "'let?' x := r 'in' k" := (result_bind r (fun x => k))
  (at level 10, x name, r at level 100, k at level 200).

(** [h["_source"]], then the first use of it as a dictionary. *)
Definition hit_source (h : hit) : result (gmap string (option string)) :=
  match h !! "_source" with
  | None => Raise (Exn KeyError (quoted "_source"))
  | Some (HDict d) => Ok d
  | Some HNone => Raise (Exn AttributeError "'NoneType' object has no attribute 'get'")
  | Some (HStr _) => Raise (Exn AttributeError "'str' object has no attribute 'get'")
  | Some (HFloat _) => Raise (Exn AttributeError "'float' object has no attribute 'get'")
  end.

Definition nl : string := String "010" EmptyString.

(** [src.get("chunk_text", '') or ''] *)
Definition source_chunk_text (src : gmap string (option string)) : string :=
  if opt_truthy (src_get src "chunk_text") then fmt (src_get src "chunk_text")
  else EmptyString.

(** The body of the loop of [build_context] for one hit. *)
Definition render_hit (max_chars : Z) (h : hit) : result string :=
  let? src := hit_source h in
  let guest_info := if opt_truthy (src_get src "guest")
                    then " with " +:+ fmt (src_get src "guest") else EmptyString in
  let timestamp_info := if opt_truthy (src_get src "timestamp")
                        then " [" +:+ fmt (src_get src "timestamp") +:+ "]" else EmptyString in
  let chunk_text := render_chunk_text max_chars (source_chunk_text src) in
  let? title := src_item src "title" in
  let? podcast_name := src_item src "podcast_name" in
  let? host := src_item src "host" in
  let? date := src_item src "date" in
  let? url := src_item src "url" in
  Ok ("EPISODE: " +:+ fmt title +:+ nl
      +:+ "PODCAST: " +:+ fmt podcast_name +:+ " - Host: " +:+ fmt host +:+ guest_info +:+ nl
      +:+ "DATE: " +:+ fmt date +:+ timestamp_info +:+ nl
      +:+ "URL: " +:+ fmt url +:+ nl
      +:+ "TRANSCRIPT:" +:+ nl +:+ chunk_text +:+ nl
      +:+ "---").

Fixpoint render_hits (max_chars : Z) (hits : list hit) : result (list string) :=
  match hits with
  | [] => Ok []
  | h :: rest =>
      let? c := render_hit max_chars h in
      let? cs := render_hits max_chars rest in
      Ok (c :: cs)
  end.

Definition build_context (w : world) (hits : list hit) : result string :=
  let? chunks := render_hits (CONTEXT_CHUNK_MAX_CHARS w) hits in
  Ok (Py.join (nl +:+ nl) chunks).

Definition build_podcast_prompt (user_query context : string) : string :=
  "You are an assistant that answers questions using ONLY the CONTEXT below. "
  +:+ "If the answer is not in the context, respond: 'I don't know.' "
  +:+ "When answering, mention the episode title and podcast name, include relevant quotes, "
  +:+ "and cite the episode URL if citing specifics. Do not invent information." +:+ nl +:+ nl
  +:+ "CONTEXT:" +:+ nl
  +:+ context +:+ nl +:+ nl
  +:+ "USER QUESTION:" +:+ nl
  +:+ user_query +:+ nl +:+ nl
  +:+ "Answer:" +:+ nl.

(** ** [generate_answer] *)

(** The local variables [model], [model_name], [max_tokens],
    [temperature]. *)
Record selection := {
  sel_model : option llama_handle;
  sel_model_name : string;
  sel_max_tokens : Z;
  sel_temperature : float64;
}.

Definition selection_init : selection :=
  {| sel_model := None; sel_model_name := "unknown";
     sel_max_tokens := 250; sel_temperature := float_0_2 |}.

Definition select_config (model : llama_handle) (model_type : ModelType) : selection :=
  {| sel_model := Some model;
     sel_model_name := description (MODEL_CONFIGS model_type);
     sel_max_tokens := cfg_default_max_tokens (MODEL_CONFIGS model_type);
     sel_temperature := cfg_default_temperature (MODEL_CONFIGS model_type) |}.

Definition clear_model (s : selection) : selection :=
  {| sel_model := None; sel_model_name := sel_model_name s;
     sel_max_tokens := sel_max_tokens s; sel_temperature := sel_temperature s |}.

(** Lines 280-288. *)
Definition select_bigger (w : world) (prompt : string)
           (use_bigger_for_long_context : bool) (s : selection) : M selection :=
  if use_bigger_for_long_context && (Py.len prompt >? 4000) then
    do bigger_model <- _get_bigger_model w;
    match bigger_model with
    | Some model =>
        ret {| sel_model := Some model;
               sel_model_name := "Llama-3.1-8B";
               sel_max_tokens := cfg_default_max_tokens (MODEL_CONFIGS LLAMA3_8B);
               sel_temperature := cfg_default_temperature (MODEL_CONFIGS LLAMA3_8B) |}
    | None => ret s
    end
  else ret s.

(** Lines 290-300. *)
Definition select_preference (w : world) (model_preference : option string)
           (s : selection) : M selection :=
  match sel_model s, opt_truthy model_preference, model_preference with
  | None, true, Some pref =>
      try_except
        (do model_type <- lift_result (_get_model_type_from_string pref);
         do model <- _load_model w model_type;
         ret (select_config model model_type))
        value_or_runtime_error
        (fun _ => ret (clear_model s))
  | _, _, _ => ret s
  end.

(** Lines 302-312. *)
Definition select_primary (w : world) (s : selection) : M selection :=
  match sel_model s with
  | None =>
      try_except
        (do model <- _get_primary_model w;
         do primary_type <- lift_result (_get_model_type_from_string (PRIMARY_MODEL w));
         ret (select_config model primary_type))
        (is_class RuntimeError)
        (fun _ => ret (clear_model s))
  | Some _ => ret s
  end.

(** What generation runs with once a model is bound. *)
Record backend := {
  be_model : llama_handle;
  be_model_name : string;
  be_max_tokens : Z;
  be_temperature : float64;
}.

Definition backend_of (model : llama_handle) (s : selection) : backend :=
  {| be_model := model; be_model_name := sel_model_name s;
     be_max_tokens := sel_max_tokens s; be_temperature := sel_temperature s |}.

(** Lines 314-323: either the backend, or the text returned at once. *)
Definition select_fallback (w : world) (s : selection) : M (backend + string) :=
  match sel_model s with
  | None =>
      try_except
        (do model <- _get_fallback_model w;
         ret (inl (backend_of model (select_config model TINYLLAMA))))
        (is_class RuntimeError)
        (fun e => ret (inr ("Error: No models available. " +:+ exn_str e)))
  | Some model => ret (inl (backend_of model s))
  end.

(** Lines 274-323. *)
Definition select_model (w : world) (prompt : string) (model_preference : option string)
           (use_bigger_for_long_context : bool) : M (backend + string) :=
  do s <- select_bigger w prompt use_bigger_for_long_context selection_init;
  do s <- select_preference w model_preference s;
  do s <- select_primary w s;
  select_fallback w s.

(** [model(prompt, max_tokens=..., temperature=...)] *)
Definition call_model (w : world) (model : llama_handle) (prompt : string)
           (max_tokens : Z) (temperature : float64) : M completion :=
  do tr <- get_trace;
  do _ <- emit (EvLlamaCall model prompt max_tokens temperature);
  lift_result (Llama_call w tr model prompt max_tokens temperature).

(** [response.get("choices", [])] *)
Definition parts_of (response : completion) : list completion_choice :=
  match completion_choices response with Some l => l | None => [] end.

(** [parts[0].get("text", '').strip()] *)
Definition part_text (p : completion_choice) : string :=
  Py.strip (match choice_text p with Some t => t | None => EmptyString end).

Definition low_token_indicators : list string :=
  ["exceed context window"; "Requested tokens"; "context window"].

(** [any(ind in msg for ind in low_token_indicators)] *)
Definition mentions_overflow (msg : string) : bool :=
  existsb (fun ind => Py.contains ind msg) low_token_indicators.

Definition reduced_note (model_name : string) : string :=
  nl +:+ nl +:+ "(Note: output was generated with a reduced max token limit due to "
  +:+ model_name +:+ "'s context window.)".

Definition fallback_note : string :=
  nl +:+ nl +:+ "(Note: Generated using fallback model due to context limitations.)".

Definition retry_failed_text (e2 : exn) : string :=
  "Error generating answer after reducing tokens: " +:+ exn_str e2.

(** Lines 366-381: the handler of the failed retry. *)
Definition after_failed_retry (w : world) (prompt model_name : string) (e2 : exn)
  : M string :=
  if negb (String.eqb model_name (description (MODEL_CONFIGS TINYLLAMA))) then
    try_except
      (do fallback_model <- _get_fallback_model w;
       let fallback_config := MODEL_CONFIGS TINYLLAMA in
       do response <- call_model w fallback_model prompt
                        (cfg_default_max_tokens fallback_config)
                        (cfg_default_temperature fallback_config);
       match parts_of response with
       | p :: _ => ret (part_text p +:+ fallback_note)
       | [] => ret (retry_failed_text e2)
       end)
      any_exception
      (fun _ => ret (retry_failed_text e2))
  else ret (retry_failed_text e2).

(** Lines 343-383: the handler of [except Exception as e]. *)
Definition on_generation_error (w : world) (model : llama_handle)
           (prompt model_name : string) (max_tokens : Z) (temperature : float64)
           (e : exn) : M string :=
  let msg := exn_str e in
  if mentions_overflow msg then
    let fallback_max := Z.min 256 max_tokens in
    try_except
      (do response <- call_model w model prompt fallback_max temperature;
       match parts_of response with
       | [] => ret (model_name
                    +:+ " returned no output after retrying with smaller token limit.")
       | p :: _ => ret (part_text p +:+ reduced_note model_name)
       end)
      any_exception
      (fun e2 => after_failed_retry w prompt model_name e2)
  else ret ("Error generating answer with " +:+ model_name +:+ ": " +:+ msg).

(** Lines 329-383. *)
Definition run_generation (w : world) (model : llama_handle)
           (prompt model_name : string) (max_tokens : Z) (temperature : float64)
  : M string :=
  try_except
    (do response <- call_model w model prompt max_tokens temperature;
     match parts_of response with
     | [] => ret (model_name +:+ " returned no output.")
     | p :: _ => ret (part_text p)
     end)
    any_exception
    (fun e =>
       if is_class RuntimeError e
       then ret ("Error with " +:+ model_name +:+ ": " +:+ exn_str e)
       else on_generation_error w model prompt model_name max_tokens temperature e).

(** Lines 325-327: the environment may replace both settings. *)
Definition env_overrides (w : world) (b : backend) : result (Z * float64) :=
  let? max_tokens := env_int w "LLAMA_MAX_TOKENS" (be_max_tokens b) in
  let? temperature := env_float w "LLAMA_TEMPERATURE" (be_temperature b) in
  Ok (max_tokens, temperature).

Definition generate_answer (w : world) (prompt : string)
           (model_preference : option string) (use_bigger_for_long_context : bool)
  : M string :=
  do selected <- select_model w prompt model_preference use_bigger_for_long_context;
  match selected with
  | inr text => ret text
  | inl b =>
      do '(max_tokens, temperature) <- lift_result (env_overrides w b);
      run_generation w (be_model b) prompt (be_model_name b) max_tokens temperature
  end.

(* ===================================================================== *)
(** * rerank/cross_encoder.py                                              *)
(* ===================================================================== *)

Definition DEFAULT_RERANK_MODEL : string := "cross-encoder/ms-marco-MiniLM-L-6-v2".

Definition set_rerank_model (name : string) : M unit :=
  fun st =>
    (Ok tt,
     {| loaded_models := loaded_models st;
        rerank_model := Some name;
        embedding_model := embedding_model st;
        heap := heap st;
        trace := trace st |}).

Definition get_rerank_memo : M (option string) :=
  fun st => (Ok (rerank_model st), st).

(** The loaded cross-encoder is identified by the name it was built from. *)
Definition get_rerank_model (w : world) (model_name : option string) : M string :=
  do memo <- get_rerank_memo;
  match memo with
  | Some model => ret model
  | None =>
      if negb (CrossEncoder_imported w) then
        raise (Exn RuntimeError
                 ("`sentence-transformers` is required for reranking. "
                  +:+ "Install it with: `pip install sentence-transformers`."))
      else
        let model := match model_name with
                     | Some n => if Py.truthy n then n else DEFAULT_RERANK_MODEL
                     | None => DEFAULT_RERANK_MODEL
                     end in
        do tr <- get_trace;
        do _ <- emit (EvCrossEncoderInit model);
        match CrossEncoder_init w tr model with
        | Some e => raise e
        | None => do _ <- set_rerank_model model; ret model
        end
  end.

(** The dictionary a reference denotes. *)
Definition deref (hp : gmap nat hit) (l : nat) : hit :=
  match hp !! l with Some h => h | None => ∅ end.

(** [hit.get("_source", {}).get("chunk_text", '')] *)
Definition pair_text (h : hit) : result (option string) :=
  match h !! "_source" with
  | None => Ok (Some EmptyString)
  | Some (HDict d) =>
      match d !! "chunk_text" with
      | Some v => Ok v
      | None => Ok (Some EmptyString)
      end
  | Some HNone => Raise (Exn AttributeError "'NoneType' object has no attribute 'get'")
  | Some (HStr _) => Raise (Exn AttributeError "'str' object has no attribute 'get'")
  | Some (HFloat _) => Raise (Exn AttributeError "'float' object has no attribute 'get'")
  end.

Fixpoint build_pairs (hp : gmap nat hit) (query : string) (hits : list nat)
  : result (list (string * option string)) :=
  match hits with
  | [] => Ok []
  | l :: rest =>
      let? chunk_text := pair_text (deref hp l) in
      let? pairs := build_pairs hp query rest in
      Ok ((query, chunk_text) :: pairs)
  end.

(** [hit["_rerank_score"] = x] on the dictionary behind [l]. *)
Definition set_rerank_score (l : nat) (x : float64) : M unit :=
  fun st =>
    (Ok tt,
     {| loaded_models := loaded_models st;
        rerank_model := rerank_model st;
        embedding_model := embedding_model st;
        heap := <[l := <["_rerank_score" := HFloat x]> (deref (heap st) l)]> (heap st);
        trace := trace st |}).

(** [for i, hit in enumerate(hits): hit["_rerank_score"] = float(scores[i])] *)
Fixpoint attach_scores (i : nat) (hits : list nat) (scores : list float64) : M unit :=
  match hits with
  | [] => ret tt
  | l :: rest =>
      match scores !! i with
      | Some x => do _ <- set_rerank_score l x; attach_scores (S i) rest scores
      | None => raise (Exn IndexError "index out of bounds")
      end
  end.

(** [x.get("_rerank_score", 0)]; the loop above has stored a float. *)
Definition rerank_key (hp : gmap nat hit) (l : nat) : float64 :=
  match deref hp l !! "_rerank_score" with
  | Some (HFloat x) => x
  | _ => F64 0
  end.

(** [sorted(xs, key=key, reverse=True)] for float keys: the stable
    descending sort.  An element goes behind the elements after it whose key
    it is less than, and stays ahead of the others. *)
Fixpoint insert_desc {A} (key : A -> float64) (x : A) (sorted : list A) : list A :=
  match sorted with
  | [] => [x]
  | y :: rest =>
      if f64_lt (key x) (key y) then y :: insert_desc key x rest
      else x :: y :: rest
  end.

Definition sorted_desc {A} (key : A -> float64) (xs : list A) : list A :=
  foldr (insert_desc key) [] xs.

(** [l.insert(pos, x)] *)
Definition insert_at {A} (pos : nat) (x : A) (l : list A) : list A :=
  take pos l ++ x :: drop pos l.

(** The indices that precede [i] in [order]. *)
Fixpoint before_index (order : list nat) (i : nat) : list nat :=
  match order with
  | [] => []
  | j :: rest => if Nat.eqb j i then [] else j :: before_index rest i
  end.

(** Among the elements of greater index, how many [order] puts before the
    element of index [i]. *)
Definition position_in_order (order : list nat) (i : nat) : nat :=
  length (List.filter (fun j => (i <? j)%nat) (before_index order i)).

(** The elements of [xs] in the order of indices [order]: every element
    is put among the elements after it where [order] has it.  Whatever
    [order] is, the result is a rearrangement of [xs]. *)
Fixpoint arranged_from {A} (order : list nat) (i : nat) (xs : list A) : list A :=
  match xs with
  | [] => []
  | x :: rest => insert_at (position_in_order order i) x (arranged_from order (S i) rest)
  end.

Definition arranged {A} (order : list nat) (xs : list A) : list A :=
  arranged_from order 0 xs.

(** [sorted(xs, key=key, reverse=True)] for float keys.  Without a NaN
    among the keys it is the stable descending sort, as the language
    guarantees.  With one, [<] is no order and the list is some
    rearrangement that depends on the interpreter's sorting routine: it is
    taken from the world. *)
Definition py_sorted_reverse {A} (w : world) (key : A -> float64) (xs : list A)
  : list A :=
  let keys := map key xs in
  if existsb f64_is_nan keys
  then arranged (sorted_reverse_with_nan w keys) xs
  else sorted_desc key xs.

(** [xs[:stop]] *)
Definition list_prefix {A} (stop : Z) (xs : list A) : list A :=
  let n := Z.of_nat (length xs) in
  let j := if stop <? 0 then Z.max 0 (n + stop) else Z.min stop n in
  take (Z.to_nat j) xs.

Definition get_heap : M (gmap nat hit) := fun st => (Ok (heap st), st).

Definition rerank_results (w : world) (query : string) (hits : list nat)
           (top_k : option Z) (model_name : option string) : M (list nat) :=
  match hits with
  | [] => ret []
  | _ =>
      do hp <- get_heap;
      do pairs <- lift_result (build_pairs hp query hits);
      do model <- get_rerank_model w model_name;
      do tr <- get_trace;
      do _ <- emit (EvPredict model pairs);
      do scores <- lift_result (CrossEncoder_predict w tr model pairs);
      do _ <- attach_scores 0 hits scores;
      do hp' <- get_heap;
      let reranked := py_sorted_reverse w (rerank_key hp') hits in
      match top_k with
      | Some k => ret (list_prefix k reranked)
      | None => ret reranked
      end
  end.

(* ===================================================================== *)
(** * ingest/embed.py                                                      *)
(* ===================================================================== *)

Definition set_embedding_model : M unit :=
  fun st =>
    (Ok tt,
     {| loaded_models := loaded_models st;
        rerank_model := rerank_model st;
        embedding_model := true;
        heap := heap st;
        trace := trace st |}).

Definition get_embedding_memo : M bool := fun st => (Ok (embedding_model st), st).

Definition get_embedding_model (w : world) : M unit :=
  do loaded <- get_embedding_memo;
  if loaded then ret tt
  else if negb (SentenceTransformer_imported w) then
    raise (Exn RuntimeError
             "`sentence-transformers` is required. Install it with: `pip install sentence-transformers`.")
  else
    do tr <- get_trace;
    do _ <- emit EvEmbeddingInit;
    match SentenceTransformer_init w tr with
    | Some e => raise e
    | None => set_embedding_model
    end.

Definition embed_text (w : world) (text : string) : M (list float64) :=
  do _ <- get_embedding_model w;
  do tr <- get_trace;
  do _ <- emit (EvEncode text);
  lift_result (SentenceTransformer_encode w tr text).

(* ===================================================================== *)
(** * index/hybrid.py                                                      *)
(* ===================================================================== *)

(** [hit.get(key)] *)
Definition hit_get (h : hit) (key : string) : hval :=
  match h !! key with Some v => v | None => HNone end.

(** The dictionary built for one hit of the response. *)
Definition project_hit (h : hit) : hit :=
  <["_id" := hit_get h "_id"]>
    (<["_score" := hit_get h "_score"]>
       (<["_source" := match h !! "_source" with Some v => v | None => HDict ∅ end]> ∅)).

Definition hybrid_search_body (user_query : string) (query_embedding : list float64)
           (size : Z) (podcast_name : option string) (topics : option (list string))
  : search_body :=
  let filters :=
    (if opt_truthy podcast_name
     then match podcast_name with Some n => [TermPodcastName n] | None => [] end
     else [])
    ++ match topics with
       | Some (t :: ts) => [TermsTopics (t :: ts)]
       | _ => []
       end in
  {| body_size := size;
     body_must := if Py.truthy user_query then [MatchChunkText user_query] else [MatchAll];
     body_knn_vector := query_embedding;
     body_knn_k := size;
     body_filter := match filters with [] => None | _ => Some filters end |}.

Definition hybrid_search (w : world) (client : opensearch_client) (user_query : string)
           (query_embedding : list float64) (size : Z)
           (podcast_name : option string) (topics : option (list string))
  : M (list hit) :=
  let body := hybrid_search_body user_query query_embedding size podcast_name topics in
  do tr <- get_trace;
  do _ <- emit (EvSearch (PODCAST_INDEX w) body);
  do response <- lift_result (client_search client tr (PODCAST_INDEX w) body);
  let hits := match resp_hits response with
              | Some (Some l) => l
              | _ => []
              end in
  ret (map project_hit hits).

(* ===================================================================== *)
(** * rag.py                                                               *)
(* ===================================================================== *)

Definition search_transcripts (w : world) (client : opensearch_client)
           (user_query : string) (query_embedding : list float64) (size : Z)
           (podcast_name : option string) (topics : option (list string))
  : M (list hit) :=
  hybrid_search w client user_query query_embedding size podcast_name topics.

Definition no_information_text : string :=
  "I couldn't find any relevant information in the podcast transcripts.".

Definition ask_podcast_question (w : world) (client : opensearch_client)
           (user_query : string) (podcast_name : option string)
           (topics : option (list string)) (top_k : Z) : M string :=
  do query_emb <- embed_text w user_query;
  do hits <- search_transcripts w client user_query query_emb top_k podcast_name topics;
  match hits with
  | [] => ret no_information_text
  | _ =>
      do context <- lift_result (build_context w hits);
      let prompt := build_podcast_prompt user_query context in
      generate_answer w prompt None false
  end.

(* ===================================================================== *)
(** * Specification vocabulary                                             *)
(* ===================================================================== *)

(** ** Chunking *)

(** The running count the loop keeps for a buffer: the estimate of the
    seed text plus the estimates of the blocks appended to it. *)
Definition sum_estimates (blocks : list string) : Z :=
  foldr (fun b acc => estimate_tokens b + acc) 0 blocks.

Definition running_count (seed group : list string) : Z :=
  estimate_tokens (Py.join " " seed) + sum_estimates group.

(** The chunk texts that a division of the blocks into consecutive groups
    yields: each chunk is the seed carried from the chunk before it,
    followed by its group. *)
Fixpoint assemble (overlap : Z) (seed : list string) (groups : list (list string))
  : list string :=
  match groups with
  | [] => []
  | g :: rest =>
      let text := Py.join " " (seed ++ g) in
      text :: assemble overlap (overlap_seed overlap text) rest
  end.

(** Every group holds at most one block or stays within the budget. *)
Fixpoint within_budget (max_tokens overlap : Z) (seed : list string)
         (groups : list (list string)) : Prop :=
  match groups with
  | [] => True
  | g :: rest =>
      ((length g <= 1)%nat \/ running_count seed g <= max_tokens)
      /\ within_budget max_tokens overlap
           (overlap_seed overlap (Py.join " " (seed ++ g))) rest
  end.

(** The chunk bound as the specification words it: the estimate of the
    chunk text is within [max_tokens] unless the chunk is one block. *)
Definition chunk_bound_as_stated (text : string) (max_tokens overlap : Z) : Prop :=
  let out := chunk_by_semantic_windows text max_tokens overlap in
  (forall c, In c out ->
     estimate_tokens (chunk_text c) <= max_tokens
     \/ In (chunk_text c) (transcript_blocks text))
  /\ map paragraph_index out = seq 0 (length out).

(** The texts returned once the loop has ended in state [st]. *)
Definition final_texts (st : chunk_state) : list string :=
  match cs_buffer st with
  | [] => cs_chunks st
  | _ => cs_chunks st ++ [Py.join " " (cs_buffer st)]
  end.

(** Four one-word paragraphs and a budget of four: one chunk of four
    words, estimated at five tokens. *)
Definition four_paragraphs : string :=
  "a" +:+ nl +:+ nl +:+ "b" +:+ nl +:+ nl +:+ "c" +:+ nl +:+ nl +:+ "d".

(** Two three-word paragraphs. *)
Definition two_paragraphs : string := "a b c" +:+ nl +:+ nl +:+ "d e f".

(** ** Traces *)

Definition is_llama_call (ev : event) : bool :=
  match ev with EvLlamaCall _ _ _ _ => true | _ => false end.

(** Events of the generation stage: loading a llama model or calling one. *)
Definition is_generation_event (ev : event) : bool :=
  match ev with
  | EvLoadModel _ | EvLlamaInit _ | EvLlamaCall _ _ _ _ => true
  | _ => false
  end.

Definition llama_calls (evs : list event) : list event := List.filter is_llama_call evs.
Definition generation_events (evs : list event) : list event :=
  List.filter is_generation_event evs.

(** [m] only appends to the trace, and what it appends satisfies [P]. *)
Definition extends_trace {A} (P : list event -> Prop) (m : M A) : Prop :=
  forall st, exists evs, trace (snd (m st)) = trace st ++ evs /\ P evs.


(** ** Example configurations *)

Definition env_lookup (env : list (string * string)) (name : string) : option string :=
  match List.find (fun kv => String.eqb (fst kv) name) env with
  | Some kv => Some (snd kv)
  | None => None
  end.

(** *** What CPython 3.11 does with a list of fewer than 64 elements

    [list.sort(reverse=True)] reverses the list, sorts it and reverses it
    again.  For fewer than 64 elements the sort finds the run the list
    starts with (reversing it when it descends strictly) and puts the other
    elements into it one by one by binary insertion.  Only [<] on the keys
    is used; with a NaN among them this decides the order that is left. *)

(** How far the run goes on after an element of key [prev]. *)
Fixpoint run_more (descending : bool) (prev : float64) (rest : list (float64 * nat))
  : nat :=
  match rest with
  | [] => O
  | x :: rest' =>
      if Bool.eqb (f64_lt (fst x) prev) descending
      then S (run_more descending (fst x) rest')
      else O
  end.

(** [count_run]: whether the run descends, and its length. *)
Definition count_run (a : list (float64 * nat)) : bool * nat :=
  match a with
  | x0 :: x1 :: rest =>
      let descending := f64_lt (fst x1) (fst x0) in
      (descending, S (S (run_more descending (fst x1) rest)))
  | _ => (false, length a)
  end.

(** The binary search of [binarysort] for the place of [pivot] in
    [sorted], between [l] and [r]. *)
Fixpoint binary_search (fuel : nat) (sorted : list (float64 * nat))
         (pivot : float64 * nat) (l r : nat) : nat :=
  match fuel with
  | O => l
  | S fuel' =>
      if (l <? r)%nat then
        let p := (l + (r - l) / 2)%nat in
        match sorted !! p with
        | Some at_p =>
            if f64_lt (fst pivot) (fst at_p)
            then binary_search fuel' sorted pivot l p
            else binary_search fuel' sorted pivot (S p) r
        | None => l
        end
      else l
  end.

Definition binarysort (run rest : list (float64 * nat)) : list (float64 * nat) :=
  fold_left
    (fun sorted pivot =>
       insert_at (binary_search (S (length sorted)) sorted pivot O (length sorted))
         pivot sorted)
    rest run.

(** The order of indices that [sorted(range(len(keys)), key=keys.__getitem__,
    reverse=True)] returns. *)
Definition cpython_sorted_reverse (keys : list float64) : list nat :=
  let a := rev (combine keys (seq 0 (length keys))) in
  let '(descending, n) := count_run a in
  let run := if descending then rev (take n a) else take n a in
  map snd (rev (binarysort run (drop n a))).

(** A world in which every library is installed and every constructor
    succeeds; the environment, the chunk budget, the llama runtime and the
    cross-encoder scores are given.  The interpreter sorts as CPython 3.11
    does. *)
Definition example_world (env : list (string * string)) (max_chars : Z)
           (llama : list event -> llama_handle -> string -> Z -> float64 -> result completion)
           (scores : list float64) : world :=
  {| getenv := env_lookup env;
     int_of_str := fun _ => None;
     float_of_str := fun _ => None;
     LLAMA_N_THREADS := 6;
     LLAMA_N_GPU_LAYERS := 35;
     CONTEXT_CHUNK_MAX_CHARS := max_chars;
     Llama_imported := true;
     Llama_init := fun _ _ => None;
     Llama_call := llama;
     CrossEncoder_imported := true;
     CrossEncoder_init := fun _ _ => None;
     CrossEncoder_predict := fun _ _ _ => Ok scores;
     SentenceTransformer_imported := true;
     SentenceTransformer_init := fun _ => None;
     SentenceTransformer_encode := fun _ _ => Ok [F64 0];
     EMBEDDING_MODEL := "sentence-transformers/all-MiniLM-L6-v2";
     PODCAST_INDEX := "podcast-transcripts";
     sorted_reverse_with_nan := cpython_sorted_reverse |}.

Definition answer (text : string) : completion :=
  {| completion_choices := Some [ {| choice_text := Some text |} ] |}.

(** A llama runtime that always answers. *)
Definition llama_answers (text : string)
  : list event -> llama_handle -> string -> Z -> float64 -> result completion :=
  fun _ _ _ _ _ => Ok (answer text).

(** A llama runtime that always raises [e]. *)
Definition llama_raises (e : exn)
  : list event -> llama_handle -> string -> Z -> float64 -> result completion :=
  fun _ _ _ _ _ => Raise e.

(** PRIMARY_MODEL names no known model; the fallback model is installed. *)
Definition unknown_primary_world : world :=
  example_world [("PRIMARY_MODEL", "gpt4");
                 ("TINYLLAMA_MODEL_PATH", "/models/tinyllama.gguf")]
                800 (llama_answers "Hi.") [].

Definition tinyllama_handle : llama_handle :=
  {| lh_model_path := "/models/tinyllama.gguf"; lh_temperature := float_0_2;
     lh_n_ctx := 2048; lh_n_threads := 6; lh_n_gpu_layers := 35 |}.

Definition phi3_handle : llama_handle :=
  {| lh_model_path := "/models/phi3.gguf"; lh_temperature := float_0_2;
     lh_n_ctx := 4096; lh_n_threads := 6; lh_n_gpu_layers := 35 |}.

Definition default_env : list (string * string) :=
  [("PHI3_MODEL_PATH", "/models/phi3.gguf");
   ("TINYLLAMA_MODEL_PATH", "/models/tinyllama.gguf");
   ("LLAMA3_8B_MODEL_PATH", "/models/llama3.gguf")].

(** Both default models installed; every call raises a [RuntimeError]
    whose text names the context window. *)
Definition runtime_overflow_world : world :=
  example_world default_env 800
    (llama_raises (Exn RuntimeError "Requested tokens (5000) exceed context window of 4096"))
    [].

(** Both default models installed; every call raises a [ValueError] whose
    text names the context window. *)
Definition value_overflow_world : world :=
  example_world default_env 800
    (llama_raises (Exn ValueError "Requested tokens (5000) exceed context window of 4096"))
    [].

(** The first sentence of the overflow-recovery claim as the specification
    words it: whatever the class of the error, a second call on the same
    backend with the reduced budget follows the first. *)
Definition overflow_retry_as_stated (w : world) (prompt : string)
           (model_preference : option string) (use_bigger : bool) (st : pystate) : Prop :=
  forall b st1 max_tokens temperature e,
    select_model w prompt model_preference use_bigger st = (Ok (inl b), st1) ->
    env_overrides w b = Ok (max_tokens, temperature) ->
    Llama_call w (trace st1) (be_model b) prompt max_tokens temperature = Raise e ->
    mentions_overflow (exn_str e) = true ->
    exists evs more,
      trace (snd (generate_answer w prompt model_preference use_bigger st))
      = trace st1 ++ evs
      /\ llama_calls evs
         = EvLlamaCall (be_model b) prompt max_tokens temperature
           :: EvLlamaCall (be_model b) prompt (Z.min 256 max_tokens) temperature
           :: more.

(** The long-context claim as the specification words it: the first
    thing [generate_answer] does is to load the bigger model. *)
Definition bigger_first_as_stated (w : world) (prompt : string)
           (model_preference : option string) (st : pystate) : Prop :=
  Py.len prompt > 4000 ->
  exists more,
    trace (snd (generate_answer w prompt model_preference true st))
    = trace st ++ EvLoadModel LLAMA3_8B :: more.

(** A prompt of [n] characters. *)
Fixpoint long_prompt (n : nat) : string :=
  match n with
  | O => EmptyString
  | S n' => String "x" (long_prompt n')
  end.

(** Every library installed, all three model paths set, a llama runtime
    that answers. *)
Definition default_world : world :=
  example_world default_env 800 (llama_answers "Hi.") [].

(** What [generate_answer] does after the first call on backend [b], made
    in state [st1] with the settings [max_tokens] and [temperature], has
    raised: the calls it makes (among the events [evs] it appends) and the
    text [out] it returns. *)
Definition overflow_recovery_outcome (w : world) (prompt : string)
           (model_preference : option string) (use_bigger : bool)
           (st st1 : pystate) (b : backend) (max_tokens : Z) (temperature : float64)
  : Prop :=
  let model := be_model b in
  let name := be_model_name b in
  let first := EvLlamaCall model prompt max_tokens temperature in
  let retry := EvLlamaCall model prompt (Z.min 256 max_tokens) temperature in
  let st2 := logged (logged st1 first) retry in
  exists out st' evs,
    generate_answer w prompt model_preference use_bigger st = (Ok out, st')
    /\ trace st' = trace st1 ++ evs
    /\ match Llama_call w (trace st1 ++ [first]) model prompt
               (Z.min 256 max_tokens) temperature with
       | Ok response =>
           (* the retry succeeded *)
           llama_calls evs = [first; retry]
           /\ out = match parts_of response with
                    | [] => name +:+ " returned no output after retrying with smaller token limit."
                    | p :: _ => part_text p +:+ reduced_note name
                    end
       | Raise e2 =>
           if String.eqb name (description (MODEL_CONFIGS TINYLLAMA))
           then llama_calls evs = [first; retry] /\ out = retry_failed_text e2
           else
             match _get_fallback_model w st2 with
             | (Ok fallback_model, st3) =>
                 let third := EvLlamaCall fallback_model prompt
                                (cfg_default_max_tokens (MODEL_CONFIGS TINYLLAMA))
                                (cfg_default_temperature (MODEL_CONFIGS TINYLLAMA)) in
                 llama_calls evs = [first; retry; third]
                 /\ out = match Llama_call w (trace st3) fallback_model prompt
                                  (cfg_default_max_tokens (MODEL_CONFIGS TINYLLAMA))
                                  (cfg_default_temperature (MODEL_CONFIGS TINYLLAMA)) with
                          | Ok response =>
                              match parts_of response with
                              | p :: _ => part_text p +:+ fallback_note
                              | [] => retry_failed_text e2
                              end
                          | Raise _ => retry_failed_text e2
                          end
             | (Raise _, _) =>
                 llama_calls evs = [first; retry] /\ out = retry_failed_text e2
             end
       end.

(** A client whose index holds nothing that matches. *)
Definition empty_client : opensearch_client :=
  {| client_search := fun _ _ _ => Ok {| resp_hits := Some (Some []) |} |}.


(** ** Context assembly *)

(** The chunk text of a hit's source: the field 'chunk_text', and the
    empty text when the field is missing, None or empty. *)
Definition chunk_text_of (src : gmap string (option string)) : string :=
  match src !! "chunk_text" with
  | Some (Some text) => text
  | _ => EmptyString
  end.

(** A field of the source as an f-string prints it. *)
Definition printed (src : gmap string (option string)) (key : string) : string :=
  match src !! key with
  | Some (Some v) => v
  | _ => "None"
  end.

(** A field that is shown, between [before] and [after], only when it
    holds a text that is not empty. *)
Definition shown_if_set (src : gmap string (option string)) (key before after : string)
  : string :=
  match src !! key with
  | Some (Some v) => if Py.truthy v then before +:+ v +:+ after else EmptyString
  | _ => EmptyString
  end.

(** The section of the context for a hit with source [src], around the
    chunk text [body] as it is rendered. *)
Definition context_section (src : gmap string (option string)) (body : string) : string :=
  "EPISODE: " +:+ printed src "title" +:+ nl
  +:+ "PODCAST: " +:+ printed src "podcast_name" +:+ " - Host: " +:+ printed src "host"
  +:+ shown_if_set src "guest" " with " EmptyString +:+ nl
  +:+ "DATE: " +:+ printed src "date" +:+ shown_if_set src "timestamp" " [" "]" +:+ nl
  +:+ "URL: " +:+ printed src "url" +:+ nl
  +:+ "TRANSCRIPT:" +:+ nl +:+ body +:+ nl
  +:+ "---".

(** [kept] is [text] cut at the word boundary nearest before [budget]
    characters: the first [budget] characters up to, and without, the last
    space among them; all of them when they hold no space. *)
Definition cut_at_word_boundary (budget : Z) (text kept : string) : Prop :=
  let head := Py.prefix budget text in
  (exists dropped, text = kept +:+ dropped)
  /\ Py.len kept <= budget
  /\ (Py.contains " " head = true ->
      exists tail, head = kept +:+ " " +:+ tail /\ Py.contains " " tail = false)
  /\ (Py.contains " " head = false -> kept = head).

(** [body] is [text] truncated and marked. *)
Definition rendered_truncated (budget : Z) (text body : string) : Prop :=
  exists kept,
    cut_at_word_boundary budget text kept
    /\ body = kept +:+ truncation_marker
    /\ Py.len body <= budget + Py.len truncation_marker.

(** What the context [out] of [hits] is, when [truncates budget text]
    tells the chunk texts that are truncated: the sections of the hits in
    order, separated by blank lines; the chunk text of a section is
    truncated and marked, and then the marker is in [out], or it is the
    chunk text unchanged. *)
Definition context_outcome (truncates : Z -> string -> bool) (w : world)
           (hits : list hit) (out : string) : Prop :=
  let budget := CONTEXT_CHUNK_MAX_CHARS w in
  exists srcs bodies,
    Forall2 (fun (h : hit) src => h !! "_source" = Some (HDict src)) hits srcs
    /\ Forall2 (fun src body =>
                  if truncates budget (chunk_text_of src)
                  then rendered_truncated budget (chunk_text_of src) body
                       /\ Py.contains truncation_marker out = true
                  else body = chunk_text_of src)
         srcs bodies
    /\ out = Py.join (nl +:+ nl) (zip_with context_section srcs bodies).

(** The specification truncates every chunk text longer than the budget. *)
Definition longer_than_budget (budget : Z) (text : string) : bool :=
  Py.len text >? budget.

(** The code truncates it when, besides, the budget is not zero. *)
Definition longer_than_positive_budget (budget : Z) (text : string) : bool :=
  (0 <? budget) && (Py.len text >? budget).

(** The truncation claim as the specification words it, for whatever
    budget is configured. *)
Definition truncation_as_stated (w : world) : Prop :=
  forall hits out,
    build_context w hits = Ok out ->
    context_outcome longer_than_budget w hits out.

(** A hit as [hybrid_search] returns it, with every field of the index
    mapping present. *)
Definition example_source (text : string) : gmap string (option string) :=
  <["title" := Some "Episode 1"]>
    (<["podcast_name" := Some "The Show"]>
       (<["host" := Some "Ann"]>
          (<["guest" := None]>
             (<["date" := Some "2024-01-01"]>
                (<["timestamp" := None]>
                   (<["url" := Some "http://example.org/1"]>
                      (<["chunk_text" := Some text]> ∅))))))).

Definition example_hit (id text : string) (score : float64) : hit :=
  <["_id" := HStr id]>
    (<["_score" := HFloat score]>
       (<["_source" := HDict (example_source text)]> ∅)).

(** CONTEXT_CHUNK_MAX_CHARS=0 *)
Definition zero_budget_world : world :=
  example_world default_env 0 (llama_answers "Hi.") [].

(** CONTEXT_CHUNK_MAX_CHARS=11 *)
Definition small_budget_world : world :=
  example_world default_env 11 (llama_answers "Hi.") [].

Definition long_text : string := "hello world, this is long".

Definition long_hit : hit := example_hit "c1" long_text (F64 0).

(** [build_context] of [long_hit] under a budget of eleven characters. *)
Definition long_hit_context : string :=
  "EPISODE: Episode 1" +:+ nl +:+ "PODCAST: The Show - Host: Ann" +:+ nl
  +:+ "DATE: 2024-01-01" +:+ nl +:+ "URL: http://example.org/1" +:+ nl
  +:+ "TRANSCRIPT:" +:+ nl +:+ "hello... [truncated]" +:+ nl +:+ "---".

(** [m] leaves the table of loaded llama models alone. *)
Definition keeps_loaded_models {A} (m : M A) : Prop :=
  forall st, loaded_models (snd (m st)) = loaded_models st.

(** ** Reranking *)

(** The score the loop of lines 76-77 leaves on the hit [l], given the
    scores the cross-encoder returned: the score at the last position at
    which [l] occurs among the hits. *)
Fixpoint score_of (hits : list nat) (scores : list float64) (l : nat)
  : option float64 :=
  match hits, scores with
  | h :: hits', x :: scores' =>
      match score_of hits' scores' l with
      | Some y => Some y
      | None => if Nat.eqb h l then Some x else None
      end
  | _, _ => None
  end.

(** The integer image of that score. *)
Definition score_rank (hits : list nat) (scores : list float64) (l : nat) : Z :=
  match score_of hits scores l with
  | Some x => f64_key x
  | None => 0
  end.

(** What [rerank_results] returns for the hits [hits] that the
    cross-encoder has scored [scores], given the heap before ([hp]) and
    after ([hp']) the call. *)
Definition rerank_outcome (hits : list nat) (scores : list float64)
           (hp hp' : gmap nat hit) (out : list nat) : Prop :=
  (* the same hits, the same number of them, the same identifiers *)
  Permutation out hits
  /\ length out = length hits
  /\ Permutation (map (fun l => deref hp' l !! "_id") out)
                 (map (fun l => deref hp l !! "_id") hits)
  (* every hit carries the score the cross-encoder gave it *)
  /\ (forall l, In l hits ->
                exists x, score_of hits scores l = Some x
                          /\ deref hp' l !! "_rerank_score" = Some (HFloat x))
  (* no other field of any hit has changed, the retrieval score included *)
  /\ (forall l key, key <> "_rerank_score" -> deref hp' l !! key = deref hp l !! key)
  /\ (forall l, deref hp' l !! "_score" = deref hp l !! "_score")
  (* descending by that score *)
  /\ StronglySorted (fun a b => score_rank hits scores b <= score_rank hits scores a) out
  (* hits of equal score keep their relative order *)
  /\ (forall k, List.filter (fun l => score_rank hits scores l =? k) out
                = List.filter (fun l => score_rank hits scores l =? k) hits).

(** The reranking claim as the specification words it: for every
    non-empty list of hits a ranking is returned. *)
Definition rerank_as_stated (w : world) (query : string) (hits : list nat)
           (st : pystate) : Prop :=
  hits <> [] ->
  exists out st' scores,
    rerank_results w query hits None None st = (Ok out, st')
    /\ rerank_outcome hits scores (heap st) (heap st') out.

(** One hit, whose '_source' is None. *)
Definition sourceless_hit_state : pystate :=
  {| loaded_models := fun _ => None;
     rerank_model := None;
     embedding_model := false;
     heap := <[0%nat := <["_id" := HStr "c0"]> (<["_source" := HNone]> ∅)]> ∅;
     trace := [] |}.

(** Three hits; the cross-encoder scores them 1.0, 2.0, 1.0. *)
Definition three_hits_heap : gmap nat hit :=
  <[0%nat := example_hit "c0" "alpha" (F64 4611686018427387904)]>
    (<[1%nat := example_hit "c1" "beta" (F64 4607182418800017408)]>
       (<[2%nat := example_hit "c2" "gamma" (F64 4602678819172646912)]> ∅)).

Definition three_hits_state : pystate :=
  {| loaded_models := fun _ => None;
     rerank_model := None;
     embedding_model := false;
     heap := three_hits_heap;
     trace := [] |}.

Definition three_scores : list float64 :=
  [F64 4607182418800017408; F64 4611686018427387904; F64 4607182418800017408].

Definition rerank_world : world :=
  example_world default_env 800 (llama_answers "Hi.") three_scores.

(** The cross-encoder scores the three hits 1.0, NaN, 2.0. *)
Definition nan_scores : list float64 :=
  [F64 4607182418800017408; F64 9221120237041090560; F64 4611686018427387904].

Definition nan_score_world : world :=
  example_world default_env 800 (llama_answers "Hi.") nan_scores.

(** ** Exceptions that leave a computation *)

(** Every exception [m] raises satisfies [C]. *)
Definition raises_only {A} (C : exn -> Prop) (m : M A) : Prop :=
  forall st e st', m st = (Raise e, st') -> C e.

(** The numeric settings read from the environment are all readable. *)
Definition numeric_settings_parse (w : world) : Prop :=
  (forall m d, exists n,
      env_int w (Py.upper (ModelType_value m) +:+ "_N_CTX") d = Ok n)
  /\ (forall m d, exists x,
         env_float w (Py.upper (ModelType_value m) +:+ "_TEMPERATURE") d = Ok x)
  /\ (forall d, exists n, env_int w "LLAMA_MAX_TOKENS" d = Ok n)
  /\ (forall d, exists x, env_float w "LLAMA_TEMPERATURE" d = Ok x).

Definition is_runtime_error (e : exn) : Prop := exn_cls e = RuntimeError.

(** A model that does not load fails with a [RuntimeError]. *)
Definition loader_raises_runtime_errors (w : world) : Prop :=
  forall tr h e, Llama_init w tr h = Some e -> exn_cls e = RuntimeError.

(* ===================================================================== *)
(** * Further vocabulary                                                   *)
(* ===================================================================== *)

(** The word a legacy LLAMA_MODEL_PATH must contain, in lower case, to
    stand in for the path of a model. *)
Definition legacy_path_matches (model_type : ModelType) (legacy_lower : string) : bool :=
  match model_type with
  | LLAMA3_8B => Py.contains "llama" legacy_lower || Py.contains "8b" legacy_lower
  | PHI3_MINI => Py.contains "phi" legacy_lower
  | TINYLLAMA => Py.contains "tiny" legacy_lower
  end.

(** Only LLAMA_MODEL_PATH is set, to a Phi-3 file. *)
Definition legacy_phi_world : world :=
  example_world [("LLAMA_MODEL_PATH", "/models/Phi-3-mini.gguf")] 800
    (llama_answers "Hi.") [].

Definition is_load_attempt (ev : event) : bool :=
  match ev with EvLoadModel _ => true | _ => false end.

(** From [st] to [st'] nothing happened but entries into [_load_model]:
    the table of loaded models is the same and the trace has grown by
    [EvLoadModel] events only. *)
Definition only_load_attempts (st st' : pystate) : Prop :=
  loaded_models st' = loaded_models st
  /\ exists evs, trace st' = trace st ++ evs
                 /\ List.forallb is_load_attempt evs = true.

Definition llama_required_text : string :=
  "`llama-cpp-python` is required. Install it with: `pip install llama-cpp-python`.".

(** What the attempt to parse [name] and load that model raises when
    llama-cpp-python is missing. *)
Definition load_failure_without_llama (name : string) : exn :=
  match _get_model_type_from_string name with
  | Ok _ => Exn RuntimeError llama_required_text
  | Raise e => e
  end.

(** The text returned when even the fallback model cannot be had. *)
Definition no_models_text (w : world) (why : string) : string :=
  "Error: No models available. "
  +:+ "Failed to load fallback model (" +:+ FALLBACK_MODEL w +:+ "): "
  +:+ why +:+ ". " +:+ "Please configure at least one model path.".

(** llama-cpp-python is not installed. *)
Definition no_llama_world : world :=
  {| getenv := env_lookup default_env;
     int_of_str := fun _ => None;
     float_of_str := fun _ => None;
     LLAMA_N_THREADS := 6;
     LLAMA_N_GPU_LAYERS := 35;
     CONTEXT_CHUNK_MAX_CHARS := 800;
     Llama_imported := false;
     Llama_init := fun _ _ => None;
     Llama_call := llama_answers "Hi.";
     CrossEncoder_imported := false;
     CrossEncoder_init := fun _ _ => None;
     CrossEncoder_predict := fun _ _ _ => Ok [];
     SentenceTransformer_imported := false;
     SentenceTransformer_init := fun _ => None;
     SentenceTransformer_encode := fun _ _ => Ok [F64 0];
     EMBEDDING_MODEL := "sentence-transformers/all-MiniLM-L6-v2";
     PODCAST_INDEX := "podcast-transcripts";
     sorted_reverse_with_nan := cpython_sorted_reverse |}.

(** An event is a model call given [prompt]. *)
Definition calls_with_prompt (prompt : string) (ev : event) : Prop :=
  exists model n t, ev = EvLlamaCall model prompt n t.

(** The keys [build_context] reads with [src[...]]. *)
Definition required_source_keys : list string :=
  ["title"; "podcast_name"; "host"; "date"; "url"].

Definition has_key (src : gmap string (option string)) (key : string) : bool :=
  match src !! key with Some _ => true | None => false end.

(** The hit has a dictionary under '_source' that holds every required
    key. *)
Definition hit_renderable (h : hit) : bool :=
  match h !! "_source" with
  | Some (HDict src) => forallb (has_key src) required_source_keys
  | _ => false
  end.

(** A hit whose source lacks 'url'. *)
Definition hit_without_url : hit :=
  <["_id" := HStr "b"]>
    (<["_source" := HDict (delete "url" (example_source "Hello world."))]> ∅).

(** As [rerank_world], with a cross-encoder that returns one score
    whatever the number of pairs. *)
Definition one_score_world : world :=
  example_world default_env 800 (llama_answers "Hi.") [F64 4607182418800017408].

(** The keys of the dictionaries the search functions return. *)
Definition hit_keys : list string := ["_id"; "_score"; "_source"].

(** A client whose index returns one well-formed hit with extra keys. *)
Definition one_hit_client : opensearch_client :=
  {| client_search := fun _ _ _ =>
       Ok {| resp_hits :=
               Some (Some [<["_index" := HStr "podcast-transcripts"]>
                             (example_hit "a" "Hello world." (F64 0))]) |} |}.

(** A client whose index returns a hit without 'url'. *)
Definition malformed_hit_client : opensearch_client :=
  {| client_search := fun _ _ _ =>
       Ok {| resp_hits := Some (Some [hit_without_url]) |} |}.

(* ===================================================================== *)
(** * rag.py: ingestion                                                    *)
(* ===================================================================== *)

From Stdlib Require DecimalString DecimalNat.

(** [str(n)] for an [int] that is not negative. *)
Definition str_of_nat (n : nat) : string :=
  DecimalString.NilEmpty.string_of_uint (Nat.to_uint n).

Record PodcastEpisode := {
  episode_id : string;
  title : string;
  podcast_name : string;
  host : string;
  guest : option string;
  date : string;
  duration_minutes : Z;
  transcript : string;
  topics : list string;
  url : string;
}.

(** The dictionary [doc] that is sent to the index for one chunk. *)
Record document := {
  doc_chunk_id : string;
  doc_episode_id : string;
  doc_title : string;
  doc_podcast_name : string;
  doc_host : string;
  doc_guest : option string;
  doc_date : string;
  doc_chunk_text : string;
  doc_chunk_index : nat;
  doc_timestamp : option string;
  doc_topics : list string;
  doc_url : string;
  doc_embedding : list float64;
}.

(** One [client.index(index=..., body=..., id=..., refresh='true')]. *)
Record index_call := {
  call_index : string;
  call_body : document;
  call_id : string;
}.

(** The [index] method of the OpenSearch client: given what has happened
    so far and the calls already made, a call returns or raises. *)
Record index_client := {
  client_index : list event -> list index_call -> index_call -> option exn;
}.

(** The loop of [ingest_podcast_episode] over the chunks that are left;
    [calls] are the index calls made so far, in order.  A call that raises
    has been made. *)
Fixpoint ingest_chunks (w : world) (client : index_client) (episode : PodcastEpisode)
         (title' : string) (guest_name : option string) (chunks : list chunk)
         (calls : list index_call) (st : pystate)
  : result unit * list index_call * pystate :=
  match chunks with
  | [] => (Ok tt, calls, st)
  | chunk_data :: rest =>
      let chunk_id := episode_id episode +:+ "_chunk_"
                      +:+ str_of_nat (paragraph_index chunk_data) in
      match embed_text w (chunk_text chunk_data) st with
      | (Raise e, st1) => (Raise e, calls, st1)
      | (Ok emb, st1) =>
          let doc := {| doc_chunk_id := chunk_id;
                        doc_episode_id := episode_id episode;
                        doc_title := title';
                        doc_podcast_name := podcast_name episode;
                        doc_host := host episode;
                        doc_guest := guest_name;
                        doc_date := date episode;
                        doc_chunk_text := chunk_text chunk_data;
                        doc_chunk_index := paragraph_index chunk_data;
                        doc_timestamp := chunk_timestamp chunk_data;
                        doc_topics := topics episode;
                        doc_url := url episode;
                        doc_embedding := emb |} in
          let call := {| call_index := PODCAST_INDEX w;
                         call_body := doc;
                         call_id := chunk_id |} in
          match client_index client (trace st1) calls call with
          | Some e => (Raise e, calls ++ [call], st1)
          | None =>
              ingest_chunks w client episode title' guest_name rest (calls ++ [call]) st1
          end
      end
  end.

(** [episode.guest or extracted_guest] *)
Definition guest_or (explicit extracted : option string) : option string :=
  if opt_truthy explicit then explicit else extracted.

Definition ingest_podcast_episode (w : world) (client : index_client)
           (episode : PodcastEpisode) (st : pystate)
  : result unit * list index_call * pystate :=
  let '(title', extracted_guest) := extract_guest_from_title (title episode) in
  let guest_name := guest_or (guest episode) extracted_guest in
  let chunks := chunk_by_semantic_windows (transcript episode)
                  default_max_tokens default_overlap in
  ingest_chunks w client episode title' guest_name chunks [] st.

(** The identifier of chunk [i] of an episode. *)
Definition chunk_id_of (episode : PodcastEpisode) (i : nat) : string :=
  episode_id episode +:+ "_chunk_" +:+ str_of_nat i.

(** An index that accepts every document. *)
Definition accepting_index : index_client :=
  {| client_index := fun _ _ _ => None |}.

(** What the index call made for chunk [c] looks like. *)
Definition call_for (w : world) (episode : PodcastEpisode) (c : chunk)
           (call : index_call) : Prop :=
  let doc := call_body call in
  call_index call = PODCAST_INDEX w
  /\ call_id call = chunk_id_of episode (paragraph_index c)
  /\ doc_chunk_id doc = call_id call
  /\ doc_chunk_text doc = chunk_text c
  /\ doc_chunk_index doc = paragraph_index c
  /\ doc_timestamp doc = chunk_timestamp c
  /\ doc_episode_id doc = episode_id episode
  /\ doc_title doc = title episode
  /\ doc_guest doc
     = guest_or (guest episode) (snd (extract_guest_from_title (title episode)))
  /\ doc_podcast_name doc = podcast_name episode
  /\ doc_host doc = host episode
  /\ doc_date doc = date episode
  /\ doc_topics doc = topics episode
  /\ doc_url doc = url episode.

Definition example_episode : PodcastEpisode :=
  {| episode_id := "ep1";
     title := "Deep Dive with Jane Doe";
     podcast_name := "The Show";
     host := "Ann";
     guest := None;
     date := "2024-01-01";
     duration_minutes := 42;
     transcript := two_paragraphs;
     topics := ["ai"];
     url := "http://example.org/1" |}.

(* ===================================================================== *)
(** * ingest/clean.py                                                      *)
(* ===================================================================== *)

Definition normalize_whitespace (text : string) : string :=
  Py.join " " (Py.split text).

(** A word as [str.split] yields them: not empty, no white space in it. *)
Definition is_word_of_split (word : string) : Prop :=
  Py.chars word <> [] /\ forallb (fun c => negb (Py.is_space c)) (Py.chars word) = true.

(* ===================================================================== *)
(** * Theorems: ingest/chunk.py                                            *)
(* ===================================================================== *)

Section ChunkLoop.
Variables max_tokens overlap : Z.

Lemma chunk_loop_cons b blocks st :
  chunk_loop max_tokens overlap (b :: blocks) st
  = chunk_loop max_tokens overlap blocks (chunk_step max_tokens overlap st b).
Proof. reflexivity. Qed.

(** Emitted chunks are never taken back. *)
Lemma chunk_step_chunks_prefix st b :
  exists more, cs_chunks (chunk_step max_tokens overlap st b) = cs_chunks st ++ more.
Proof.
  unfold chunk_step.
  destruct (cs_token_count st + estimate_tokens b >? max_tokens); simpl.
  - eexists; reflexivity.
  - exists []. now rewrite app_nil_r.
Qed.

Lemma chunk_loop_chunks_prefix blocks : forall st,
  exists more, cs_chunks (chunk_loop max_tokens overlap blocks st) = cs_chunks st ++ more.
Proof.
  induction blocks as [|b blocks IH]; intros st.
  - exists []. simpl. now rewrite app_nil_r.
  - rewrite chunk_loop_cons.
    destruct (IH (chunk_step max_tokens overlap st b)) as [m1 H1].
    destruct (chunk_step_chunks_prefix st b) as [m0 H0].
    exists (m0 ++ m1). rewrite H1, H0. now rewrite <- app_assoc.
Qed.

Lemma sum_estimates_snoc g b :
  sum_estimates (g ++ [b]) = sum_estimates g + estimate_tokens b.
Proof.
  induction g as [|x g IH]; simpl.
  - lia.
  - unfold sum_estimates in *. simpl. rewrite IH. lia.
Qed.

(** The loop from a state whose buffer is a seed followed by a non-empty
    group: the remaining blocks extend that group and then form further
    groups, and the result is assembled from them. *)
Lemma chunk_loop_groups blocks : forall cs seed g tc,
  g <> [] ->
  tc = running_count seed g ->
  ((length g <= 1)%nat \/ tc <= max_tokens) ->
  exists g' gs,
    blocks = g' ++ concat gs
    /\ final_texts (chunk_loop max_tokens overlap blocks
                      {| cs_chunks := cs; cs_buffer := seed ++ g; cs_token_count := tc |})
       = cs ++ assemble overlap seed ((g ++ g') :: gs)
    /\ within_budget max_tokens overlap seed ((g ++ g') :: gs).
Proof.
  induction blocks as [|b blocks IH]; intros cs seed g tc Hg Htc Hbound.
  - exists [], []. split; [reflexivity|]. rewrite app_nil_r. split.
    + unfold final_texts. simpl.
      destruct (seed ++ g) eqn:E; [|reflexivity].
      apply app_eq_nil in E. destruct E; contradiction.
    + simpl. split; [|exact I]. now subst tc.
  - rewrite chunk_loop_cons. unfold chunk_step. simpl.
    destruct (tc + estimate_tokens b >? max_tokens) eqn:Hover; simpl.
    + destruct (IH (cs ++ [Py.join " " (seed ++ g)])
                  (overlap_seed overlap (Py.join " " (seed ++ g))) [b]
                  (estimate_tokens
                     (Py.join " " (overlap_seed overlap (Py.join " " (seed ++ g))))
                   + estimate_tokens b))
        as (g' & gs & Hblocks & Hfinal & Hbudget).
      * discriminate.
      * unfold running_count, sum_estimates. simpl. lia.
      * left. simpl. lia.
      * exists [], (([b] ++ g') :: gs). rewrite app_nil_r.
        split; [|split].
        -- simpl. now rewrite Hblocks.
        -- rewrite Hfinal. simpl. now rewrite <- app_assoc.
        -- split; [now subst tc | exact Hbudget].
    + assert (Hle : tc + estimate_tokens b <= max_tokens) by lia.
      destruct (IH cs seed (g ++ [b]) (tc + estimate_tokens b))
        as (g' & gs & Hblocks & Hfinal & Hbudget).
      * destruct g; discriminate.
      * unfold running_count in *. rewrite sum_estimates_snoc. lia.
      * now right.
      * exists (b :: g'), gs.
        replace (g ++ b :: g') with ((g ++ [b]) ++ g')
          by now rewrite <- app_assoc.
        split; [|split].
        -- simpl. now rewrite Hblocks.
        -- rewrite <- (app_assoc seed g [b]). exact Hfinal.
        -- exact Hbudget.
Qed.

(** The whole loop, from the initial state. *)
Lemma chunk_texts_groups blocks :
  exists groups,
    concat groups = blocks
    /\ chunk_texts max_tokens overlap blocks = assemble overlap [] groups
    /\ within_budget max_tokens overlap [] groups.
Proof.
  destruct blocks as [|b blocks].
  - exists []. split; [reflexivity|]. split; [reflexivity|exact I].
  - change (chunk_texts max_tokens overlap (b :: blocks))
      with (final_texts (chunk_loop max_tokens overlap (b :: blocks) chunk_init)).
    rewrite chunk_loop_cons. unfold chunk_step, chunk_init. simpl.
    destruct (0 + estimate_tokens b >? max_tokens) eqn:Hover; simpl.
    + destruct (chunk_loop_groups blocks [EmptyString] (overlap_seed overlap EmptyString) [b]
                  (estimate_tokens (Py.join " " (overlap_seed overlap EmptyString))
                   + estimate_tokens b))
        as (g' & gs & Hblocks & Hfinal & Hbudget).
      * discriminate.
      * unfold running_count, sum_estimates. simpl. lia.
      * left. simpl. lia.
      * exists ([] :: ([b] ++ g') :: gs). split; [|split].
        -- simpl. now rewrite Hblocks.
        -- exact Hfinal.
        -- split; [left; simpl; lia | exact Hbudget].
    + destruct (chunk_loop_groups blocks [] [] [b] (0 + estimate_tokens b))
        as (g' & gs & Hblocks & Hfinal & Hbudget).
      * discriminate.
      * unfold running_count, sum_estimates. simpl.
        change (estimate_tokens EmptyString) with 0. lia.
      * left. simpl. lia.
      * exists (([b] ++ g') :: gs). split; [|split].
        -- simpl. now rewrite Hblocks.
        -- exact Hfinal.
        -- exact Hbudget.
Qed.

End ChunkLoop.

Lemma enumerate_chunks_text idx chunks :
  map chunk_text (enumerate_chunks idx chunks) = chunks.
Proof.
  revert idx. induction chunks as [|c chunks IH]; intros idx; simpl.
  - reflexivity.
  - now rewrite IH.
Qed.

Lemma enumerate_chunks_index idx chunks :
  map paragraph_index (enumerate_chunks idx chunks) = seq idx (length chunks).
Proof.
  revert idx. induction chunks as [|c chunks IH]; intros idx; simpl.
  - reflexivity.
  - now rewrite IH.
Qed.

Lemma enumerate_chunks_length idx chunks :
  length (enumerate_chunks idx chunks) = length chunks.
Proof.
  revert idx. induction chunks as [|c chunks IH]; intros idx; simpl.
  - reflexivity.
  - now rewrite IH.
Qed.

(** C3, as stated, fails: the loop sums per-block estimates, and the
    estimate of the joined text can exceed that sum. *)
Lemma C3_chunk_bound_counterexample :
  ~ chunk_bound_as_stated four_paragraphs 4 40.
Proof.
  intros [Hbound _].
  specialize (Hbound {| chunk_text := "a b c d"; chunk_timestamp := None;
                        paragraph_index := 0 |}).
  destruct Hbound as [H | H].
  - vm_compute. left. reflexivity.
  - vm_compute in H. apply H. reflexivity.
  - vm_compute in H. repeat (destruct H as [H | H]; [discriminate H|]). exact H.
Qed.

(** C3 (amended): the chunks are assembled from a division of the blocks
    into consecutive groups, each chunk being the overlap seed of the chunk
    before it followed by its group; the running count of a chunk (the
    estimate of its seed plus the estimates of its blocks) is within
    [max_tokens] unless the chunk holds at most one block; positions are
    0, 1, 2, ... *)
Theorem C3_chunk_groups_and_positions (text : string) (max_tokens overlap : Z) :
  let out := chunk_by_semantic_windows text max_tokens overlap in
  map paragraph_index out = seq 0 (length out)
  /\ exists groups,
       concat groups = transcript_blocks text
       /\ map chunk_text out = assemble overlap [] groups
       /\ within_budget max_tokens overlap [] groups.
Proof.
  unfold chunk_by_semantic_windows. split.
  - rewrite enumerate_chunks_index, enumerate_chunks_length. reflexivity.
  - destruct (chunk_texts_groups max_tokens overlap (transcript_blocks text))
      as (groups & Hc & Ha & Hb).
    exists groups. rewrite enumerate_chunks_text. auto.
Qed.

(** When [int(overlap / 1.3)] is zero the slice is [words[-0:]], which
    is the whole list. *)
Lemma overlap_seed_zero overlap chunk_text :
  Py.int_div_1_3 overlap = 0 ->
  overlap_seed overlap chunk_text = Py.split chunk_text.
Proof.
  intros H. unfold overlap_seed. rewrite H. unfold Py.slice_from. simpl.
  rewrite Z.min_l by lia. reflexivity.
Qed.

(** C9: with [overlap = 1] the overlap is [int(1 / 1.3) = 0] words, yet the
    second chunk starts with every word of the first. *)
Theorem C9_zero_word_overlap_carries_whole_chunk :
  Py.int_div_1_3 1 = 0
  /\ overlap_seed 1 "a b c" = ["a"; "b"; "c"]
  /\ map chunk_text (chunk_by_semantic_windows two_paragraphs 3 1)
     = ["a b c"; "a b c d e f"].
Proof. vm_compute. repeat split. Qed.

(** C10: when the first block alone is estimated above [max_tokens], the
    first chunk returned has the empty text. *)
Theorem C10_oversized_first_block_empty_chunk
        (text : string) (max_tokens overlap : Z) (b : string) (rest : list string) :
  transcript_blocks text = b :: rest ->
  estimate_tokens b > max_tokens ->
  exists more,
    chunk_by_semantic_windows text max_tokens overlap
    = {| chunk_text := EmptyString; chunk_timestamp := None; paragraph_index := 0 |} :: more.
Proof.
  intros Hblocks Hbig.
  unfold chunk_by_semantic_windows, chunk_texts. rewrite Hblocks.
  rewrite chunk_loop_cons.
  assert (Hstep : cs_chunks (chunk_step max_tokens overlap chunk_init b) = [EmptyString]).
  { unfold chunk_step, chunk_init. simpl.
    replace (0 + estimate_tokens b >? max_tokens) with true; [reflexivity|].
    symmetry. apply Z.gtb_lt. lia. }
  destruct (chunk_loop_chunks_prefix max_tokens overlap rest
              (chunk_step max_tokens overlap chunk_init b)) as [more Hmore].
  rewrite Hstep in Hmore.
  destruct (cs_buffer _); rewrite Hmore; simpl; eexists; reflexivity.
Qed.

Lemma C10_oversized_first_block_witness :
  exists more,
    chunk_by_semantic_windows "one two three" 2 40
    = {| chunk_text := EmptyString; chunk_timestamp := None; paragraph_index := 0 |} :: more.
Proof.
  apply (C10_oversized_first_block_empty_chunk
           "one two three" 2 40 "one two three" []); reflexivity.
Defined.

(** The title is returned as it came. *)
Lemma extract_guest_keeps_title title :
  fst (extract_guest_from_title title) = title.
Proof.
  unfold extract_guest_from_title.
  repeat match goal with |- context [match ?x with _ => _ end] => destruct x end;
    reflexivity.
Qed.

(** The three titles the specification lists. *)
Lemma extract_guest_examples :
  extract_guest_from_title "AI and the Future with Jane Smith"
  = ("AI and the Future with Jane Smith", Some "Jane Smith")
  /\ extract_guest_from_title "Building Startups ft. John Doe"
     = ("Building Startups ft. John Doe", Some "John Doe")
  /\ extract_guest_from_title "Quarterly Update" = ("Quarterly Update", None).
Proof. vm_compute. repeat split. Qed.

(** The two patterns without [re.IGNORECASE] capture capitalised words
    only. *)
Lemma cased_patterns_examples :
  extract_guest_from_title "Jane Smith on AI" = ("Jane Smith on AI", Some "Jane Smith")
  /\ extract_guest_from_title "jane smith on AI" = ("jane smith on AI", None)
  /\ extract_guest_from_title "Episode 5 - John Doe" = ("Episode 5 - John Doe", Some "John Doe")
  /\ extract_guest_from_title "Episode 5 - john doe" = ("Episode 5 - john doe", None).
Proof. vm_compute. repeat split. Qed.

(** C8: under [re.IGNORECASE] the classes [[A-Z]] and [[a-z]] of the first
    two patterns match letters of either case, so a guest is returned for
    words that are not capitalised. *)
Theorem C8_lowercase_words_taken_as_guest :
  extract_guest_from_title "Cooking with olive oil"
  = ("Cooking with olive oil", Some "olive oil").
Proof. vm_compute. reflexivity. Qed.

(* ===================================================================== *)
(** * Theorems: traces of the monadic operations                          *)
(* ===================================================================== *)

Section TraceExtension.
Variable P : list event -> Prop.
Hypothesis P_nil : P [].
Hypothesis P_app : forall a b, P a -> P b -> P (a ++ b).

Lemma extends_ret {A} (a : A) : extends_trace P (ret a).
Proof. intros st. exists []. simpl. rewrite app_nil_r. auto. Qed.

Lemma extends_raise {A} (e : exn) : extends_trace P (@raise A e).
Proof. intros st. exists []. simpl. rewrite app_nil_r. auto. Qed.

Lemma extends_lift_result {A} (r : result A) : extends_trace P (lift_result r).
Proof. intros st. exists []. simpl. rewrite app_nil_r. auto. Qed.

(** Reading or writing the memo tables and the heap leaves the trace. *)
Lemma extends_silent {A} (m : M A) :
  (forall st, trace (snd (m st)) = trace st) -> extends_trace P m.
Proof. intros H st. exists []. rewrite H, app_nil_r. auto. Qed.

Lemma extends_emit ev : P [ev] -> extends_trace P (emit ev).
Proof. intros H st. exists [ev]. simpl. auto. Qed.

Lemma extends_bind {A B} (m : M A) (k : A -> M B) :
  extends_trace P m -> (forall a, extends_trace P (k a)) ->
  extends_trace P (bind m k).
Proof.
  intros Hm Hk st. unfold bind.
  destruct (Hm st) as (e1 & H1 & P1).
  destruct (m st) as [[a|e] st1]; simpl in *.
  - destruct (Hk a st1) as (e2 & H2 & P2).
    exists (e1 ++ e2). rewrite H2, H1, <- app_assoc. auto.
  - exists e1. auto.
Qed.

Lemma extends_try_except {A} (m : M A) handles (h : exn -> M A) :
  extends_trace P m -> (forall e, extends_trace P (h e)) ->
  extends_trace P (try_except m handles h).
Proof.
  intros Hm Hh st. unfold try_except.
  destruct (Hm st) as (e1 & H1 & P1).
  destruct (m st) as [[a|e] st1]; simpl in *.
  - exists e1. auto.
  - destruct (handles e).
    + destruct (Hh e st1) as (e2 & H2 & P2).
      exists (e1 ++ e2). rewrite H2, H1, <- app_assoc. auto.
    + exists e1. auto.
Qed.

End TraceExtension.

(** One step of a proof that a computation extends the trace: peel a
    combinator, or split on what the code branches on. *)
Ltac events_side := try assumption; try solve [cbv beta; intros; exact I].

Ltac extends_step :=
  match goal with
  | |- forall _, extends_trace _ _ => intro
  | |- extends_trace _ (bind _ _) => apply extends_bind; events_side
  | |- extends_trace _ (try_except _ _ _) => apply extends_try_except; events_side
  | |- extends_trace _ (ret _) => apply extends_ret; events_side
  | |- extends_trace _ (raise _) => apply extends_raise; events_side
  | |- extends_trace _ (lift_result _) => apply extends_lift_result; events_side
  | |- extends_trace _ get_trace => apply extends_silent; [events_side | reflexivity]
  | |- extends_trace _ (get_loaded_model _) =>
      apply extends_silent; [events_side | reflexivity]
  | |- extends_trace _ (set_loaded_model _ _) =>
      apply extends_silent; [events_side | reflexivity]
  | |- extends_trace _ get_embedding_memo =>
      apply extends_silent; [events_side | reflexivity]
  | |- extends_trace _ set_embedding_model =>
      apply extends_silent; [events_side | reflexivity]
  | |- extends_trace _ (emit _) => apply extends_emit; events_side
  | |- extends_trace _ (match ?x with _ => _ end) => destruct x
  | |- extends_trace _ (if ?b then _ else _) => destruct b
  end.

Ltac extends_auto := repeat extends_step.

Section GenerationTraces.
Variable w : world.
Variable P : list event -> Prop.
Hypothesis P_nil : P [].
Hypothesis P_app : forall a b, P a -> P b -> P (a ++ b).
Hypothesis P_load : forall m, P [EvLoadModel m].
Hypothesis P_init : forall h, P [EvLlamaInit h].

Lemma _load_model_extends model_type : extends_trace P (_load_model w model_type).
Proof. unfold _load_model. extends_auto; auto. Qed.

Lemma _get_fallback_model_extends : extends_trace P (_get_fallback_model w).
Proof.
  unfold _get_fallback_model. extends_auto. apply _load_model_extends.
Qed.

Lemma _get_primary_model_extends : extends_trace P (_get_primary_model w).
Proof.
  unfold _get_primary_model. extends_auto.
  - apply _load_model_extends.
  - apply _get_fallback_model_extends.
Qed.

Lemma _get_bigger_model_extends : extends_trace P (_get_bigger_model w).
Proof.
  unfold _get_bigger_model. extends_auto. apply _load_model_extends.
Qed.

Lemma select_model_extends prompt pref big :
  extends_trace P (select_model w prompt pref big).
Proof.
  unfold select_model, select_bigger, select_preference, select_primary,
    select_fallback.
  extends_auto;
    first [ apply _load_model_extends | apply _get_fallback_model_extends
          | apply _get_primary_model_extends | apply _get_bigger_model_extends ].
Qed.

Hypothesis P_call : forall h p n t, P [EvLlamaCall h p n t].

Lemma call_model_extends model prompt n t :
  extends_trace P (call_model w model prompt n t).
Proof. unfold call_model. extends_auto; auto. Qed.

Lemma run_generation_extends model prompt name n t :
  extends_trace P (run_generation w model prompt name n t).
Proof.
  unfold run_generation, on_generation_error, after_failed_retry.
  extends_auto;
    first [ apply call_model_extends | apply _get_fallback_model_extends ].
Qed.

Lemma generate_answer_extends prompt pref big :
  extends_trace P (generate_answer w prompt pref big).
Proof.
  unfold generate_answer. extends_auto.
  - apply select_model_extends.
  - apply run_generation_extends.
Qed.

End GenerationTraces.

(* ===================================================================== *)
(** * Theorems: llm/prompt.py, generation                                  *)
(* ===================================================================== *)






(** C1: PRIMARY_MODEL set to an unknown name while the fallback model is
    installed.  [_get_primary_model] absorbs the unknown name and hands
    back the fallback model, but line 306 parses PRIMARY_MODEL again
    inside a [try] that catches [RuntimeError] only: the [ValueError]
    leaves [generate_answer]. *)
Theorem C1_unknown_primary_model_raises :
  fst (generate_answer unknown_primary_world "Hello" None false initial_state)
  = Raise (Exn ValueError "Unknown model type: gpt4")
  /\ loaded_models (snd (generate_answer unknown_primary_world "Hello" None false
                           initial_state)) TINYLLAMA
     = Some tinyllama_handle.
Proof. vm_compute. split; reflexivity. Qed.


(** With USE_BIGGER_MODEL off the long-context model can still be the
    first one loaded, as the preferred model. *)
Example bigger_first_by_preference :
  bigger_first_as_stated default_world (long_prompt 4001) (Some "llama3_8b")
    initial_state.
Proof. intros _. eexists. vm_compute. reflexivity. Qed.



(** Loading a model never calls one. *)
Lemma llama_calls_app a b : llama_calls (a ++ b) = llama_calls a ++ llama_calls b.
Proof. unfold llama_calls. apply List.filter_app. Qed.

Lemma no_calls_app a b :
  llama_calls a = [] -> llama_calls b = [] -> llama_calls (a ++ b) = [].
Proof. intros Ha Hb. rewrite llama_calls_app, Ha, Hb. reflexivity. Qed.

Lemma _get_fallback_model_no_calls w st :
  exists evs,
    trace (snd (_get_fallback_model w st)) = trace st ++ evs /\ llama_calls evs = [].
Proof.
  apply (_get_fallback_model_extends w (fun evs => llama_calls evs = [])).
  - reflexivity.
  - apply no_calls_app.
  - reflexivity.
  - reflexivity.
Qed.

Lemma trace_logged st ev : trace (logged st ev) = trace st ++ [ev].
Proof. reflexivity. Qed.

(** ** The generation stage, one handler at a time *)

Lemma call_model_eq w model prompt n t st :
  call_model w model prompt n t st
  = (Llama_call w (trace st) model prompt n t, logged st (EvLlamaCall model prompt n t)).
Proof. reflexivity. Qed.

Lemma run_generation_raised w model prompt name n t st e :
  Llama_call w (trace st) model prompt n t = Raise e ->
  run_generation w model prompt name n t st
  = (if is_class RuntimeError e
     then ret ("Error with " +:+ name +:+ ": " +:+ exn_str e)
     else on_generation_error w model prompt name n t e)
      (logged st (EvLlamaCall model prompt n t)).
Proof.
  intros H. unfold run_generation, try_except. unfold bind at 1.
  rewrite call_model_eq, H. reflexivity.
Qed.

Lemma on_generation_error_overflow w model prompt name n t e st :
  mentions_overflow (exn_str e) = true ->
  on_generation_error w model prompt name n t e st
  = match Llama_call w (trace st) model prompt (Z.min 256 n) t with
    | Ok response =>
        (Ok match parts_of response with
            | [] => name +:+ " returned no output after retrying with smaller token limit."
            | p :: _ => part_text p +:+ reduced_note name
            end,
         logged st (EvLlamaCall model prompt (Z.min 256 n) t))
    | Raise e2 =>
        after_failed_retry w prompt name e2
          (logged st (EvLlamaCall model prompt (Z.min 256 n) t))
    end.
Proof.
  intros H. unfold on_generation_error. rewrite H.
  unfold try_except. unfold bind at 1. rewrite call_model_eq.
  destruct (Llama_call w (trace st) model prompt (Z.min 256 n) t) as [response|e2].
  - destruct (parts_of response); reflexivity.
  - reflexivity.
Qed.

Lemma after_failed_retry_eq w prompt name e2 st :
  after_failed_retry w prompt name e2 st
  = if String.eqb name (description (MODEL_CONFIGS TINYLLAMA))
    then (Ok (retry_failed_text e2), st)
    else
      match _get_fallback_model w st with
      | (Ok fallback_model, st3) =>
          let n := cfg_default_max_tokens (MODEL_CONFIGS TINYLLAMA) in
          let t := cfg_default_temperature (MODEL_CONFIGS TINYLLAMA) in
          (Ok match Llama_call w (trace st3) fallback_model prompt n t with
              | Ok response =>
                  match parts_of response with
                  | p :: _ => part_text p +:+ fallback_note
                  | [] => retry_failed_text e2
                  end
              | Raise _ => retry_failed_text e2
              end,
           logged st3 (EvLlamaCall fallback_model prompt n t))
      | (Raise _, st3) => (Ok (retry_failed_text e2), st3)
      end.
Proof.
  unfold after_failed_retry.
  destruct (String.eqb name (description (MODEL_CONFIGS TINYLLAMA))); [reflexivity|].
  cbn [negb]. unfold try_except. unfold bind at 1.
  destruct (_get_fallback_model w st) as [[fallback_model|e3] st3]; [|reflexivity].
  unfold bind at 1. rewrite call_model_eq. cbv zeta.
  destruct (Llama_call w (trace st3) fallback_model prompt _ _) as [response|e4];
    [destruct (parts_of response)|]; reflexivity.
Qed.

(** C2, as stated, fails: a [RuntimeError] is answered at once, whatever
    its text says; no second call is made. *)
Lemma C2_overflow_retry_counterexample :
  ~ overflow_retry_as_stated runtime_overflow_world "Hello" None false initial_state.
Proof.
  intros H.
  edestruct H as (evs & more & Htrace & Hcalls);
    [reflexivity | reflexivity | reflexivity | reflexivity |].
  vm_compute in Htrace.
  injection Htrace as Hevs. subst evs.
  vm_compute in Hcalls. discriminate Hcalls.
Qed.

(** C2 (amended): when the first generation call raises an exception that
    is not a [RuntimeError] and whose text contains an overflow indicator,
    the same model is called once more with [min(256, max_tokens)]; text
    returned by that retry carries the reduced-limit note.  If the retry
    raises too and the name in use is not TinyLlama's description, the
    fallback model is loaded and, when it loads, called once with
    TinyLlama's default settings; text returned by it carries the fallback
    note.  No other call is made. *)
Theorem C2_overflow_recovery
        (w : world) (prompt : string) (model_preference : option string)
        (use_bigger : bool) (st st1 : pystate) (b : backend)
        (max_tokens : Z) (temperature : float64) (e : exn) :
  select_model w prompt model_preference use_bigger st = (Ok (inl b), st1) ->
  env_overrides w b = Ok (max_tokens, temperature) ->
  Llama_call w (trace st1) (be_model b) prompt max_tokens temperature = Raise e ->
  exn_cls e <> RuntimeError ->
  mentions_overflow (exn_str e) = true ->
  overflow_recovery_outcome w prompt model_preference use_bigger st st1 b
    max_tokens temperature.
Proof.
  intros Hsel Henv Hcall Hcls Hmsg.
  unfold overflow_recovery_outcome.
  set (first := EvLlamaCall (be_model b) prompt max_tokens temperature).
  set (retry := EvLlamaCall (be_model b) prompt (Z.min 256 max_tokens) temperature).
  assert (Hnot : is_class RuntimeError e = false).
  { unfold is_class. apply bool_decide_eq_false. exact Hcls. }
  assert (Hgen : generate_answer w prompt model_preference use_bigger st
                 = on_generation_error w (be_model b) prompt (be_model_name b)
                     max_tokens temperature e (logged st1 first)).
  { unfold generate_answer. unfold bind at 1. rewrite Hsel.
    unfold bind at 1, lift_result at 1. rewrite Henv.
    rewrite (run_generation_raised w (be_model b) prompt (be_model_name b)
               max_tokens temperature st1 e Hcall).
    rewrite Hnot. reflexivity. }
  rewrite Hgen.
  rewrite (on_generation_error_overflow w (be_model b) prompt (be_model_name b)
             max_tokens temperature e _ Hmsg).
  rewrite trace_logged. fold retry.
  destruct (Llama_call w (trace st1 ++ [first]) (be_model b) prompt
              (Z.min 256 max_tokens) temperature) as [response | e2].
  - (* the retry returned *)
    exists (match parts_of response with
            | [] => be_model_name b
                    +:+ " returned no output after retrying with smaller token limit."
            | p :: _ => part_text p +:+ reduced_note (be_model_name b)
            end), (logged (logged st1 first) retry), [first; retry].
    split; [reflexivity|]. split.
    + rewrite !trace_logged, <- app_assoc. reflexivity.
    + split; reflexivity.
  - (* the retry raised *)
    rewrite after_failed_retry_eq.
    destruct (String.eqb (be_model_name b) (description (MODEL_CONFIGS TINYLLAMA))).
    + exists (retry_failed_text e2), (logged (logged st1 first) retry), [first; retry].
      split; [reflexivity|]. split.
      * rewrite !trace_logged, <- app_assoc. reflexivity.
      * split; reflexivity.
    + set (st2 := logged (logged st1 first) retry).
      assert (Htr2 : trace st2 = trace st1 ++ [first; retry]).
      { unfold st2. rewrite !trace_logged, <- app_assoc. reflexivity. }
      destruct (_get_fallback_model_no_calls w st2) as (evs & Htr & Hnone).
      destruct (_get_fallback_model w st2) as [[fallback_model | e3] st3];
        cbn [snd] in Htr.
      * set (third := EvLlamaCall fallback_model prompt
                        (cfg_default_max_tokens (MODEL_CONFIGS TINYLLAMA))
                        (cfg_default_temperature (MODEL_CONFIGS TINYLLAMA))).
        exists (match Llama_call w (trace st3) fallback_model prompt
                        (cfg_default_max_tokens (MODEL_CONFIGS TINYLLAMA))
                        (cfg_default_temperature (MODEL_CONFIGS TINYLLAMA)) with
                | Ok response =>
                    match parts_of response with
                    | p :: _ => part_text p +:+ fallback_note
                    | [] => retry_failed_text e2
                    end
                | Raise _ => retry_failed_text e2
                end), (logged st3 third), ([first; retry] ++ evs ++ [third]).
        split; [|split].
        -- reflexivity.
        -- rewrite trace_logged, Htr, Htr2, <- !app_assoc. reflexivity.
        -- split; [|reflexivity].
           rewrite !llama_calls_app, Hnone. reflexivity.
      * exists (retry_failed_text e2), st3, ([first; retry] ++ evs).
        split; [reflexivity|]. split.
        -- rewrite Htr, Htr2, <- !app_assoc. reflexivity.
        -- split; [|reflexivity].
           rewrite llama_calls_app, Hnone. reflexivity.
Qed.

(** Both default models installed and a runtime that keeps raising the
    overflow [ValueError]: the primary model is called twice, the fallback
    model once. *)
Lemma C2_overflow_recovery_witness :
  overflow_recovery_outcome value_overflow_world "Hello" None false initial_state
    (snd (select_model value_overflow_world "Hello" None false initial_state))
    {| be_model := phi3_handle; be_model_name := "Phi-3 Mini (Main LLM)";
       be_max_tokens := 500; be_temperature := float_0_2 |}
    500 float_0_2.
Proof.
  apply (C2_overflow_recovery value_overflow_world "Hello" None false initial_state
           (snd (select_model value_overflow_world "Hello" None false initial_state))
           {| be_model := phi3_handle; be_model_name := "Phi-3 Mini (Main LLM)";
              be_max_tokens := 500; be_temperature := float_0_2 |}
           500 float_0_2
           (Exn ValueError "Requested tokens (5000) exceed context window of 4096")).
  - reflexivity.
  - reflexivity.
  - reflexivity.
  - discriminate.
  - reflexivity.
Defined.

(* ===================================================================== *)
(** * Theorems: which exceptions leave [generate_answer]                   *)
(* ===================================================================== *)

Lemma raises_only_ret {A} C (a : A) : raises_only C (ret a).
Proof. intros st e st' H. discriminate H. Qed.

Lemma raises_only_raise {A} (C : exn -> Prop) e : C e -> raises_only C (@raise A e).
Proof. intros H st e' st' [= <- _]. exact H. Qed.

Lemma raises_only_lift_ok {A} C (a : A) : raises_only C (lift_result (Ok a)).
Proof. intros st e st' H. discriminate H. Qed.

Lemma raises_only_lift {A} (C : exn -> Prop) (r : result A) :
  (forall e, r = Raise e -> C e) -> raises_only C (lift_result r).
Proof. intros H st e st' [= -> _]. apply H. reflexivity. Qed.

Lemma raises_only_total {A} C (m : M A) :
  (forall st, exists a st', m st = (Ok a, st')) -> raises_only C m.
Proof. intros H st e st' Hr. destruct (H st) as (a & st1 & Ha). congruence. Qed.

Lemma raises_only_bind {A B} C (m : M A) (k : A -> M B) :
  raises_only C m -> (forall a, raises_only C (k a)) -> raises_only C (bind m k).
Proof.
  intros Hm Hk st e st' H. unfold bind in H.
  destruct (m st) as [[a|e1] st1] eqn:E.
  - exact (Hk a st1 e st' H).
  - injection H as <- <-. exact (Hm st e1 st1 E).
Qed.

Lemma raises_only_try_except {A} C (m : M A) handles (h : exn -> M A) :
  raises_only (fun e => handles e = true \/ C e) m ->
  (forall e, raises_only C (h e)) ->
  raises_only C (try_except m handles h).
Proof.
  intros Hm Hh st e st' H. unfold try_except in H.
  destruct (m st) as [[a|e1] st1] eqn:E; [discriminate H|].
  destruct (handles e1) eqn:Hc.
  - exact (Hh e1 st1 e st' H).
  - injection H as <- <-. destruct (Hm st e1 st1 E) as [Hx|Hx]; [congruence|exact Hx].
Qed.

Lemma raises_only_weaken {A} (C D : exn -> Prop) (m : M A) :
  (forall e, C e -> D e) -> raises_only C m -> raises_only D m.
Proof. intros H Hm st e st' Hr. apply H. exact (Hm st e st' Hr). Qed.

(** A computation that raises nothing returns. *)
Lemma raises_nothing_returns {A} (m : M A) st :
  raises_only (fun _ => False) m -> exists a st', m st = (Ok a, st').
Proof.
  intros H. destruct (m st) as [[a|e] st'] eqn:E.
  - exists a, st'. reflexivity.
  - destruct (H st e st' E).
Qed.

Lemma is_class_true c e : exn_cls e = c -> is_class c e = true.
Proof. intros H. unfold is_class. apply bool_decide_eq_true. exact H. Qed.

Section Absorption.
Variable w : world.

(** ** The generation stage absorbs every exception *)

Lemma call_model_total_or C model prompt n t :
  (forall e, C e) -> raises_only C (call_model w model prompt n t).
Proof. intros H st e st' _. apply H. Qed.

Lemma after_failed_retry_returns prompt name e2 :
  raises_only (fun _ => False) (after_failed_retry w prompt name e2).
Proof.
  intros st e st' H. rewrite after_failed_retry_eq in H.
  destruct (String.eqb name (description (MODEL_CONFIGS TINYLLAMA)));
    [discriminate H|].
  destruct (_get_fallback_model w st) as [[m|e3] st3]; discriminate H.
Qed.

Lemma on_generation_error_returns model prompt name n t e :
  raises_only (fun _ => False) (on_generation_error w model prompt name n t e).
Proof.
  unfold on_generation_error.
  destruct (mentions_overflow (exn_str e)); [|apply raises_only_ret].
  apply raises_only_try_except.
  - intros st e' st' _. left. reflexivity.
  - intros e2. apply after_failed_retry_returns.
Qed.

(** Lines 329-383 return a text whatever the model does. *)
Lemma run_generation_returns model prompt name n t :
  raises_only (fun _ => False) (run_generation w model prompt name n t).
Proof.
  unfold run_generation. apply raises_only_try_except.
  - intros st e' st' _. left. reflexivity.
  - intros e. destruct (is_class RuntimeError e).
    + apply raises_only_ret.
    + apply on_generation_error_returns.
Qed.

(** ** Backend selection *)

Hypothesis Hparse : numeric_settings_parse w.
Hypothesis Hloader : loader_raises_runtime_errors w.

Lemma _load_model_raises model_type :
  raises_only is_runtime_error (_load_model w model_type).
Proof.
  destruct Hparse as (Hctx & Htemp & _).
  unfold _load_model.
  apply raises_only_bind; [apply raises_only_total; intros st; eexists _, _; reflexivity|].
  intros _. destruct (negb (Llama_imported w)); [apply raises_only_raise; reflexivity|].
  apply raises_only_bind; [apply raises_only_total; intros st; eexists _, _; reflexivity|].
  intros [model|]; [apply raises_only_ret|].
  destruct (_get_model_path w model_type) as [[|c p]|];
    try (apply raises_only_raise; reflexivity).
  destruct (Hctx model_type (cfg_default_n_ctx (MODEL_CONFIGS model_type))) as [n Hn].
  rewrite Hn.
  apply raises_only_bind; [apply raises_only_lift_ok|]. intros n_ctx.
  destruct (Htemp model_type (cfg_default_temperature (MODEL_CONFIGS model_type)))
    as [x Hx].
  rewrite Hx.
  apply raises_only_bind; [apply raises_only_lift_ok|]. intros temperature.
  apply raises_only_bind; [apply raises_only_total; intros st; eexists _, _; reflexivity|].
  intros tr.
  apply raises_only_bind; [apply raises_only_total; intros st; eexists _, _; reflexivity|].
  intros _.
  destruct (Llama_init w tr _) as [e|] eqn:E.
  - apply raises_only_raise. exact (Hloader _ _ _ E).
  - apply raises_only_bind; [apply raises_only_total; intros st; eexists _, _; reflexivity|].
    intros _. apply raises_only_ret.
Qed.

Lemma model_type_from_string_raises s e :
  _get_model_type_from_string s = Raise e -> exn_cls e = ValueError.
Proof.
  unfold _get_model_type_from_string.
  repeat match goal with |- context [if ?b then _ else _] => destruct b end;
    intros [= <-]; reflexivity.
Qed.

Lemma _get_fallback_model_raises :
  raises_only is_runtime_error (_get_fallback_model w).
Proof.
  unfold _get_fallback_model. apply raises_only_try_except.
  - apply raises_only_bind.
    + apply raises_only_lift. intros e He. left.
      unfold value_or_runtime_error.
      rewrite (is_class_true ValueError e (model_type_from_string_raises _ e He)).
      reflexivity.
    + intros model_type.
      eapply raises_only_weaken; [|apply _load_model_raises].
      intros e He. left. unfold value_or_runtime_error.
      rewrite (is_class_true RuntimeError e He). apply orb_true_r.
  - intros e. apply raises_only_raise. reflexivity.
Qed.

Lemma _get_primary_model_raises :
  raises_only is_runtime_error (_get_primary_model w).
Proof.
  unfold _get_primary_model. apply raises_only_try_except.
  - apply raises_only_bind.
    + apply raises_only_lift. intros e He. left.
      unfold value_or_runtime_error.
      rewrite (is_class_true ValueError e (model_type_from_string_raises _ e He)).
      reflexivity.
    + intros model_type.
      eapply raises_only_weaken; [|apply _load_model_raises].
      intros e He. left. unfold value_or_runtime_error.
      rewrite (is_class_true RuntimeError e He). apply orb_true_r.
  - intros e. apply _get_fallback_model_raises.
Qed.

Lemma _get_bigger_model_returns :
  raises_only (fun _ => False) (_get_bigger_model w).
Proof.
  unfold _get_bigger_model.
  destruct (negb (USE_BIGGER_MODEL w)); [apply raises_only_ret|].
  apply raises_only_try_except; [|intros e; apply raises_only_ret].
  apply raises_only_bind; [|intros model; apply raises_only_ret].
  eapply raises_only_weaken; [|apply _load_model_raises].
  intros e He. left. apply is_class_true. exact He.
Qed.

Lemma select_bigger_returns prompt big s :
  raises_only (fun _ => False) (select_bigger w prompt big s).
Proof.
  unfold select_bigger.
  destruct (big && (Py.len prompt >? 4000)); [|apply raises_only_ret].
  apply raises_only_bind; [apply _get_bigger_model_returns|].
  intros [model|]; apply raises_only_ret.
Qed.

Lemma select_preference_returns pref s :
  raises_only (fun _ => False) (select_preference w pref s).
Proof.
  unfold select_preference.
  destruct (sel_model s); [apply raises_only_ret|].
  destruct (opt_truthy pref); [|apply raises_only_ret].
  destruct pref as [p|]; [|apply raises_only_ret].
  apply raises_only_try_except; [|intros e; apply raises_only_ret].
  apply raises_only_bind.
  - apply raises_only_lift. intros e He. left.
    unfold value_or_runtime_error.
    rewrite (is_class_true ValueError e (model_type_from_string_raises _ e He)).
    reflexivity.
  - intros model_type. apply raises_only_bind; [|intros model; apply raises_only_ret].
    eapply raises_only_weaken; [|apply _load_model_raises].
    intros e He. left. unfold value_or_runtime_error.
    rewrite (is_class_true RuntimeError e He). apply orb_true_r.
Qed.

(** The primary stage raises nothing when PRIMARY_MODEL is a known name. *)
Lemma select_primary_returns s primary_type :
  _get_model_type_from_string (PRIMARY_MODEL w) = Ok primary_type ->
  raises_only (fun _ => False) (select_primary w s).
Proof.
  intros Hknown. unfold select_primary.
  destruct (sel_model s); [apply raises_only_ret|].
  apply raises_only_try_except; [|intros e; apply raises_only_ret].
  apply raises_only_bind.
  - eapply raises_only_weaken; [|apply _get_primary_model_raises].
    intros e He. left. apply is_class_true. exact He.
  - intros model. rewrite Hknown.
    apply raises_only_bind; [apply raises_only_lift_ok|].
    intros t. apply raises_only_ret.
Qed.

Lemma select_fallback_returns s :
  raises_only (fun _ => False) (select_fallback w s).
Proof.
  unfold select_fallback.
  destruct (sel_model s); [apply raises_only_ret|].
  apply raises_only_try_except; [|intros e; apply raises_only_ret].
  apply raises_only_bind; [|intros model; apply raises_only_ret].
  eapply raises_only_weaken; [|apply _get_fallback_model_raises].
  intros e He. left. apply is_class_true. exact He.
Qed.

(** With a known PRIMARY_MODEL, readable numeric settings and loaders that
    fail with [RuntimeError], [generate_answer] returns a text for every
    prompt, preference, flag and state. *)
Lemma generate_answer_returns prompt pref big st primary_type :
  _get_model_type_from_string (PRIMARY_MODEL w) = Ok primary_type ->
  exists text st', generate_answer w prompt pref big st = (Ok text, st').
Proof.
  intros Hknown. apply raises_nothing_returns.
  unfold generate_answer. apply raises_only_bind.
  - unfold select_model.
    apply raises_only_bind; [apply select_bigger_returns|]. intros s1.
    apply raises_only_bind; [apply select_preference_returns|]. intros s2.
    apply raises_only_bind; [apply (select_primary_returns _ _ Hknown)|]. intros s3.
    apply select_fallback_returns.
  - intros [b|text]; [|apply raises_only_ret].
    destruct Hparse as (_ & _ & Hmax & Htemp).
    unfold env_overrides, result_bind.
    destruct (Hmax (be_max_tokens b)) as [n ->].
    destruct (Htemp (be_temperature b)) as [x ->].
    apply raises_only_bind; [apply raises_only_lift_ok|].
    intros [max_tokens temperature]. apply run_generation_returns.
Qed.

End Absorption.

(** When no backend can be had, the text returned says so. *)
Lemma select_fallback_text w s text st st' :
  select_fallback w s st = (Ok (inr text), st') ->
  exists why, text = "Error: No models available. " +:+ why.
Proof.
  unfold select_fallback. destruct (sel_model s); [discriminate|].
  unfold try_except, bind, ret.
  destruct (_get_fallback_model w st) as [[model|e] st1]; [discriminate|].
  destruct (is_class RuntimeError e); [|discriminate].
  intros [= <- _]. exists (exn_str e). reflexivity.
Qed.

(** The default configuration meets the assumptions of
    [generate_answer_returns]. *)
Example generate_answer_returns_default :
  exists text st',
    generate_answer default_world "Hello" None false initial_state = (Ok text, st').
Proof.
  apply (generate_answer_returns default_world) with (primary_type := PHI3_MINI).
  - repeat split; intros; try (destruct m); eexists; reflexivity.
  - intros tr h e H. discriminate H.
  - reflexivity.
Qed.

(* ===================================================================== *)
(** * Theorems: llm/prompt.py, context assembly                            *)
(* ===================================================================== *)

(** ** Strings *)

Lemma str_app_cons c s t : String c s +:+ t = String c (s +:+ t).
Proof. reflexivity. Qed.

Lemma str_app_nil_l s : EmptyString +:+ s = s.
Proof. reflexivity. Qed.

Lemma str_app_nil_r s : s +:+ EmptyString = s.
Proof. induction s as [|c s IH]; [reflexivity|]. rewrite str_app_cons, IH. reflexivity. Qed.

Lemma str_app_assoc s t u : (s +:+ t) +:+ u = s +:+ (t +:+ u).
Proof.
  induction s as [|c s IH]; [reflexivity|].
  rewrite !str_app_cons, IH. reflexivity.
Qed.

Lemma str_length_app s t :
  String.length (s +:+ t) = (String.length s + String.length t)%nat.
Proof.
  induction s as [|c s IH]; [reflexivity|].
  rewrite str_app_cons. simpl. rewrite IH. reflexivity.
Qed.

Lemma len_app s t : Py.len (s +:+ t) = Py.len s + Py.len t.
Proof. unfold Py.len. rewrite str_length_app. lia. Qed.

Lemma take_drop_chars n s : Py.take_chars n s +:+ Py.drop_chars n s = s.
Proof.
  revert s. induction n as [|n IH]; intros [|c s]; try reflexivity.
  simpl. rewrite str_app_cons, IH. reflexivity.
Qed.

Lemma take_chars_length n s : (String.length (Py.take_chars n s) <= n)%nat.
Proof.
  revert s. induction n as [|n IH]; intros [|c s]; simpl; try lia.
  specialize (IH s). lia.
Qed.

(** [s[:stop]] is an initial part of [s], of at most [stop] characters
    when [stop] is not negative. *)
Lemma prefix_is_prefix stop s : exists rest, s = Py.prefix stop s +:+ rest.
Proof.
  unfold Py.prefix. eexists. symmetry. apply take_drop_chars.
Qed.

Lemma prefix_length stop s : 0 <= stop -> Py.len (Py.prefix stop s) <= stop.
Proof.
  intros H. unfold Py.prefix.
  destruct (stop <? 0) eqn:E; [apply Z.ltb_lt in E; lia|].
  unfold Py.len at 1.
  pose proof (take_chars_length (Z.to_nat (Z.min stop (Py.len s))) s). lia.
Qed.

(** ** Substring test *)

Lemma starts_with_app sub rest : Py.starts_with sub (sub +:+ rest) = true.
Proof.
  induction sub as [|c sub IH]; [reflexivity|].
  rewrite str_app_cons. simpl. rewrite Ascii.eqb_refl. exact IH.
Qed.

Lemma contains_self_app sub rest : Py.contains sub (sub +:+ rest) = true.
Proof.
  destruct (sub +:+ rest) eqn:E; simpl; rewrite <- E, starts_with_app; reflexivity.
Qed.

Lemma contains_app_l pre sub s :
  Py.contains sub s = true -> Py.contains sub (pre +:+ s) = true.
Proof.
  intros H. induction pre as [|c pre IH]; [exact H|].
  rewrite str_app_cons. simpl. rewrite IH. apply orb_true_r.
Qed.

Lemma contains_middle pre sub post : Py.contains sub (pre +:+ sub +:+ post) = true.
Proof. apply contains_app_l, contains_self_app. Qed.

(** ** [rsplit(" ", 1)[0]] *)

Lemma contains_space_cons c s :
  Py.contains " " (String c s) = Ascii.eqb " " c || Py.contains " " s.
Proof.
  change (Py.contains " " (String c s))
    with (Py.starts_with " " (String c s) || Py.contains " " s).
  change (Py.starts_with " " (String c s))
    with (if Ascii.eqb " " c then true else false).
  destruct (Ascii.eqb " " c); reflexivity.
Qed.

Lemma before_last_space_none s :
  Py.before_last_space s = None -> Py.contains " " s = false.
Proof.
  induction s as [|c s IH]; [reflexivity|].
  simpl Py.before_last_space.
  destruct (Py.before_last_space s) as [p|]; [discriminate|].
  destruct (Ascii.eqb c " ") eqn:E; [discriminate|].
  intros _. rewrite contains_space_cons, IH by reflexivity.
  rewrite Ascii.eqb_sym, E. reflexivity.
Qed.

(** What precedes the last space: the text splits there, and no space
    follows. *)
Lemma before_last_space_some s p :
  Py.before_last_space s = Some p ->
  exists tail, s = p +:+ " " +:+ tail /\ Py.contains " " tail = false.
Proof.
  revert p. induction s as [|c s IH]; intros p; [discriminate|].
  simpl Py.before_last_space.
  destruct (Py.before_last_space s) as [q|] eqn:E.
  - intros [= <-]. destruct (IH q eq_refl) as (tail & -> & Hno).
    exists tail. split; [reflexivity | exact Hno].
  - destruct (Ascii.eqb c " ") eqn:Ec; [|discriminate].
    intros [= <-]. apply Ascii.eqb_eq in Ec. subst c.
    exists s. split; [reflexivity|]. apply before_last_space_none, E.
Qed.

Lemma rsplit1_head_length s : (String.length (Py.rsplit1_head s) <= String.length s)%nat.
Proof.
  unfold Py.rsplit1_head.
  destruct (Py.before_last_space s) as [p|] eqn:E; [|lia].
  destruct (before_last_space_some s p E) as (tail & -> & _).
  rewrite str_length_app. lia.
Qed.

(** ** Rendering *)

Lemma join_contains sep c chunks :
  In c chunks -> exists pre post, Py.join sep chunks = pre +:+ c +:+ post.
Proof.
  induction chunks as [|x chunks IH]; [intros []|].
  intros [-> | Hin].
  - destruct chunks as [|y chunks].
    + exists EmptyString, EmptyString. simpl. rewrite str_app_nil_r. reflexivity.
    + exists EmptyString, (sep +:+ Py.join sep (y :: chunks)). reflexivity.
  - destruct (IH Hin) as (pre & post & Hj).
    destruct chunks as [|y chunks]; [destruct Hin|].
    exists (x +:+ sep +:+ pre), post.
    change (Py.join sep (x :: y :: chunks))
      with (x +:+ sep +:+ Py.join sep (y :: chunks)).
    rewrite Hj, !str_app_assoc. reflexivity.
Qed.

Lemma split_here x post : x +:+ post = EmptyString +:+ x +:+ post.
Proof. reflexivity. Qed.

Lemma split_later a s pre x post :
  s = pre +:+ x +:+ post -> a +:+ s = (a +:+ pre) +:+ x +:+ post.
Proof. intros ->. rewrite str_app_assoc. reflexivity. Qed.

(** A text within the budget, or any text when the budget is zero, is
    rendered as it is. *)
Lemma render_chunk_text_short max_chars text :
  Py.len text <= max_chars -> render_chunk_text max_chars text = text.
Proof.
  intros H. unfold render_chunk_text.
  replace (Py.len text >? max_chars) with false
    by (symmetry; rewrite Z.gtb_ltb; apply Z.ltb_ge; lia).
  rewrite andb_false_r. reflexivity.
Qed.

(** A text over a positive budget: what is rendered is an initial part of
    the text followed by the marker.  The part kept is the first
    [max_chars] characters cut back to before their last space, or all of
    them when they hold no space. *)
Lemma render_chunk_text_long max_chars text :
  0 < max_chars ->
  Py.len text > max_chars ->
  exists kept dropped,
    text = kept +:+ dropped
    /\ render_chunk_text max_chars text = kept +:+ truncation_marker
    /\ Py.len kept <= max_chars
    /\ (Py.contains " " (Py.prefix max_chars text) = true ->
        exists tail, Py.prefix max_chars text = kept +:+ " " +:+ tail
                     /\ Py.contains " " tail = false)
    /\ (Py.contains " " (Py.prefix max_chars text) = false ->
        kept = Py.prefix max_chars text).
Proof.
  intros Hpos Hlong. unfold render_chunk_text.
  replace (max_chars =? 0) with false by (symmetry; apply Z.eqb_neq; lia).
  replace (Py.len text >? max_chars) with true by (symmetry; apply Z.gtb_lt; lia).
  cbn [negb andb].
  destruct (prefix_is_prefix max_chars text) as (rest & Hrest).
  pose proof (prefix_length max_chars text ltac:(lia)) as Hlen.
  destruct (Py.contains " " (Py.prefix max_chars text)) eqn:Hsp.
  - unfold Py.rsplit1_head.
    destruct (Py.before_last_space (Py.prefix max_chars text)) as [p|] eqn:Hb.
    + destruct (before_last_space_some _ _ Hb) as (tail & Hsplit & Hno).
      exists p, (" " +:+ tail +:+ rest).
      split; [|split; [reflexivity|split; [|split]]].
      * rewrite Hrest at 1. rewrite Hsplit, !str_app_assoc. reflexivity.
      * rewrite Hsplit, !len_app in Hlen. unfold Py.len in *. lia.
      * intros _. exists tail. split; [exact Hsplit | exact Hno].
      * discriminate.
    + apply before_last_space_none in Hb. congruence.
  - exists (Py.prefix max_chars text), rest.
    split; [exact Hrest|]. split; [reflexivity|]. split; [exact Hlen|].
    split; [discriminate | reflexivity].
Qed.

(** ** The context, section by section *)

Lemma source_chunk_text_eq src : source_chunk_text src = chunk_text_of src.
Proof.
  unfold source_chunk_text, chunk_text_of, src_get, opt_truthy, fmt.
  destruct (src !! "chunk_text") as [[text|]|]; try reflexivity.
  destruct text; reflexivity.
Qed.

Lemma src_item_printed src key v :
  src_item src key = Ok v -> fmt v = printed src key.
Proof.
  unfold src_item, printed. destruct (src !! key) as [[x|]|]; intros [= <-]; reflexivity.
Qed.

Lemma shown_if_set_eq src key before after :
  (if opt_truthy (src_get src key) then before +:+ fmt (src_get src key) +:+ after
   else EmptyString)
  = shown_if_set src key before after.
Proof.
  unfold shown_if_set, src_get, opt_truthy, fmt.
  destruct (src !! key) as [[v|]|]; try reflexivity.
Qed.

(** One hit is rendered as the section of its source around the chunk
    text that [render_chunk_text] makes. *)
Lemma render_hit_section max_chars (h : hit) c :
  render_hit max_chars h = Ok c ->
  exists src,
    h !! "_source" = Some (HDict src)
    /\ c = context_section src (render_chunk_text max_chars (chunk_text_of src)).
Proof.
  unfold render_hit, hit_source.
  destruct (h !! "_source") as [[| x | x | src]|]; cbn [result_bind]; try discriminate.
  cbv zeta.
  destruct (src_item src "title") as [title|] eqn:Htitle; cbn [result_bind];
    [|discriminate].
  destruct (src_item src "podcast_name") as [podcast_name|] eqn:Hpodcast;
    cbn [result_bind]; [|discriminate].
  destruct (src_item src "host") as [host|] eqn:Hhost; cbn [result_bind];
    [|discriminate].
  destruct (src_item src "date") as [date|] eqn:Hdate; cbn [result_bind];
    [|discriminate].
  destruct (src_item src "url") as [url|] eqn:Hurl; cbn [result_bind];
    [|discriminate].
  intros [= <-]. exists src. split; [reflexivity|].
  unfold context_section.
  rewrite (src_item_printed _ _ _ Htitle), (src_item_printed _ _ _ Hpodcast),
    (src_item_printed _ _ _ Hhost), (src_item_printed _ _ _ Hdate),
    (src_item_printed _ _ _ Hurl).
  rewrite <- (shown_if_set_eq src "guest" " with " EmptyString).
  rewrite <- (shown_if_set_eq src "timestamp" " [" "]").
  rewrite source_chunk_text_eq.
  destruct (opt_truthy (src_get src "guest"));
    destruct (opt_truthy (src_get src "timestamp"));
    rewrite ?str_app_nil_r; reflexivity.
Qed.

Lemma render_hits_sections max_chars hits cs :
  render_hits max_chars hits = Ok cs ->
  exists srcs,
    Forall2 (fun (h : hit) src => h !! "_source" = Some (HDict src)) hits srcs
    /\ cs = map (fun src =>
                   context_section src (render_chunk_text max_chars (chunk_text_of src)))
              srcs.
Proof.
  revert cs. induction hits as [|h hits IH]; intros cs Hr.
  - injection Hr as <-. exists []. split; [constructor | reflexivity].
  - cbn [render_hits] in Hr.
    destruct (render_hit max_chars h) as [c|e] eqn:Hh; cbn [result_bind] in Hr;
      [|discriminate].
    destruct (render_hits max_chars hits) as [cs'|e]; cbn [result_bind] in Hr;
      [|discriminate].
    injection Hr as <-.
    destruct (render_hit_section _ _ _ Hh) as (src & Hsrc & ->).
    destruct (IH cs' eq_refl) as (srcs & Hsrcs & ->).
    exists (src :: srcs). split; [constructor; assumption | reflexivity].
Qed.

Lemma zip_with_map_r {A B C} (f : A -> B -> C) (g : A -> B) l :
  zip_with f l (map g l) = map (fun a => f a (g a)) l.
Proof. induction l as [|a l IH]; [reflexivity|]. cbn. rewrite IH. reflexivity. Qed.

Lemma Forall2_map_r_in {A B} (P : A -> B -> Prop) (g : A -> B) l :
  (forall a, In a l -> P a (g a)) -> Forall2 P l (map g l).
Proof.
  induction l as [|a l IH]; intros H; [constructor|].
  cbn [map]. constructor.
  - apply H. now left.
  - apply IH. intros b Hb. apply H. now right.
Qed.

(** A section shows its chunk text. *)
Lemma context_section_body src body :
  exists pre post, context_section src body = pre +:+ body +:+ post.
Proof.
  unfold context_section. eexists _, (nl +:+ "---").
  repeat first [apply split_here | apply split_later].
Qed.

(** C7, as stated, fails: a budget of zero switches truncation off, and
    the long text is rendered whole and without the marker. *)
Lemma C7_truncation_counterexample : ~ truncation_as_stated zero_budget_world.
Proof.
  intros H.
  destruct (H [long_hit]
              ("EPISODE: Episode 1" +:+ nl +:+ "PODCAST: The Show - Host: Ann" +:+ nl
               +:+ "DATE: 2024-01-01" +:+ nl +:+ "URL: http://example.org/1" +:+ nl
               +:+ "TRANSCRIPT:" +:+ nl +:+ long_text +:+ nl +:+ "---"))
    as (srcs & bodies & Hsrcs & Hbodies & _).
  - vm_compute. reflexivity.
  - inversion Hsrcs as [|h src hs srcs' Hsrc Hrest]; subst.
    inversion Hrest; subst.
    assert (Hexample : src = example_source long_text).
    { vm_compute in Hsrc. injection Hsrc as <-. reflexivity. }
    subst src.
    inversion Hbodies as [|src body ss bodies' Hbody _]; subst.
    change (longer_than_budget (CONTEXT_CHUNK_MAX_CHARS zero_budget_world)
              (chunk_text_of (example_source long_text))) with true in Hbody.
    destruct Hbody as [_ Hmarker].
    vm_compute in Hmarker. discriminate Hmarker.
Qed.

(** C7 (amended): under a budget that is not negative, the context is the
    sections of the hits, in order and separated by blank lines, each
    around the chunk text of its hit as it is rendered.  A chunk text longer
    than a positive budget is rendered as its first [budget] characters,
    cut back to before the last space among them when there is one,
    followed by the marker: it takes at most [budget + len(marker)]
    characters, and the context contains the marker.  Every other chunk
    text is rendered unchanged: one within the budget, and every one when
    the budget is zero. *)
Theorem C7_truncation_in_context (w : world) (hits : list hit) (out : string) :
  0 <= CONTEXT_CHUNK_MAX_CHARS w ->
  build_context w hits = Ok out ->
  context_outcome longer_than_positive_budget w hits out.
Proof.
  intros Hbudget Hbuild. unfold context_outcome.
  set (budget := CONTEXT_CHUNK_MAX_CHARS w) in *.
  unfold build_context in Hbuild. fold budget in Hbuild.
  destruct (render_hits budget hits) as [cs|e] eqn:Hr; cbn [result_bind] in Hbuild;
    [|discriminate].
  injection Hbuild as <-.
  destruct (render_hits_sections _ _ _ Hr) as (srcs & Hsrcs & ->).
  exists srcs, (map (fun src => render_chunk_text budget (chunk_text_of src)) srcs).
  split; [exact Hsrcs|]. split; [|rewrite zip_with_map_r; reflexivity].
  apply Forall2_map_r_in. intros src Hin.
  unfold longer_than_positive_budget.
  destruct (0 <? budget) eqn:Hpos; cbn [andb].
  - apply Z.ltb_lt in Hpos.
    destruct (Py.len (chunk_text_of src) >? budget) eqn:Hlong.
    + assert (Hgt : Py.len (chunk_text_of src) > budget)
        by (apply Z.gtb_lt in Hlong; lia).
      destruct (render_chunk_text_long budget (chunk_text_of src) Hpos Hgt)
        as (kept & dropped & Htext & Hrendered & Hkept & Hspace & Hnospace).
      split.
      * exists kept. split; [|split].
        -- unfold cut_at_word_boundary. cbv zeta.
           split; [exists dropped; exact Htext|]. auto.
        -- exact Hrendered.
        -- rewrite Hrendered, len_app. lia.
      * apply (in_map (fun src =>
                         context_section src
                           (render_chunk_text budget (chunk_text_of src)))) in Hin.
        destruct (join_contains (nl +:+ nl) _ _ Hin) as (pre & post & ->).
        destruct (context_section_body src
                    (render_chunk_text budget (chunk_text_of src)))
          as (pre' & post' & ->).
        rewrite Hrendered.
        replace (pre +:+ (pre' +:+ (kept +:+ truncation_marker) +:+ post') +:+ post)
          with (((pre +:+ pre') +:+ kept) +:+ truncation_marker +:+ (post' +:+ post))
          by (rewrite !str_app_assoc; reflexivity).
        apply contains_middle.
    + apply render_chunk_text_short.
      rewrite Z.gtb_ltb in Hlong. apply Z.ltb_ge in Hlong. exact Hlong.
  - assert (Hzero : budget = 0) by (apply Z.ltb_ge in Hpos; lia).
    rewrite Hzero. unfold render_chunk_text. reflexivity.
Qed.

(** A budget of eleven characters and the text "hello world, this is
    long", rendered as "hello... [truncated]". *)
Lemma C7_truncation_witness :
  context_outcome longer_than_positive_budget small_budget_world [long_hit]
    long_hit_context.
Proof.
  apply (C7_truncation_in_context small_budget_world [long_hit] long_hit_context).
  - vm_compute. discriminate.
  - vm_compute. reflexivity.
Defined.

(** A budget of zero: the same text, whole and without the marker. *)
Example zero_budget_renders_whole :
  build_context zero_budget_world [long_hit]
  = Ok (context_section (example_source long_text) long_text).
Proof. vm_compute. reflexivity. Qed.

(* ===================================================================== *)
(** * Theorems: rag.py                                                     *)
(* ===================================================================== *)

Lemma generation_events_app a b :
  generation_events (a ++ b) = generation_events a ++ generation_events b.
Proof. unfold generation_events. apply List.filter_app. Qed.

Lemma no_generation_app a b :
  generation_events a = [] -> generation_events b = [] ->
  generation_events (a ++ b) = [].
Proof. intros Ha Hb. rewrite generation_events_app, Ha, Hb. reflexivity. Qed.

(** Embedding the question and searching the index stay clear of the
    generation stage. *)
Lemma embed_text_no_generation w text :
  extends_trace (fun evs => generation_events evs = []) (embed_text w text).
Proof.
  unfold embed_text, get_embedding_model.
  extends_auto; first [reflexivity | apply no_generation_app].
Qed.

Lemma hybrid_search_no_generation w client q emb size pn topics :
  extends_trace (fun evs => generation_events evs = [])
    (hybrid_search w client q emb size pn topics).
Proof.
  unfold hybrid_search.
  extends_auto; first [reflexivity | apply no_generation_app].
Qed.

Lemma keeps_bind {A B} (m : M A) (k : A -> M B) :
  keeps_loaded_models m -> (forall a, keeps_loaded_models (k a)) ->
  keeps_loaded_models (bind m k).
Proof.
  intros Hm Hk st. unfold bind. specialize (Hm st).
  destruct (m st) as [[a|e] st1]; simpl in *.
  - rewrite (Hk a st1). exact Hm.
  - exact Hm.
Qed.

Lemma keeps_simple {A} (m : M A) :
  (forall st, loaded_models (snd (m st)) = loaded_models st) ->
  keeps_loaded_models m.
Proof. intros H. exact H. Qed.

Ltac keeps_step :=
  match goal with
  | |- forall _, keeps_loaded_models _ => intro
  | |- keeps_loaded_models (bind _ _) => apply keeps_bind
  | |- keeps_loaded_models (match ?x with _ => _ end) => destruct x
  | |- keeps_loaded_models (if ?b then _ else _) => destruct b
  | |- keeps_loaded_models _ => apply keeps_simple; reflexivity
  end.

Lemma embed_text_loaded_models w text : keeps_loaded_models (embed_text w text).
Proof. unfold embed_text, get_embedding_model. repeat keeps_step. Qed.

Lemma hybrid_search_loaded_models w client q emb size pn topics :
  keeps_loaded_models (hybrid_search w client q emb size pn topics).
Proof. unfold hybrid_search. repeat keeps_step. Qed.

(** C4: when the search returns no hit, the answer is the fixed sentence,
    and nothing of the generation stage has run: no model was loaded,
    constructed or called, and the table of loaded models is as it was. *)
Theorem C4_no_hits_fixed_answer
        (w : world) (client : opensearch_client) (user_query : string)
        (podcast_name : option string) (topics : option (list string)) (top_k : Z)
        (st st1 st2 : pystate) (query_emb : list float64) :
  embed_text w user_query st = (Ok query_emb, st1) ->
  hybrid_search w client user_query query_emb top_k podcast_name topics st1
  = (Ok [], st2) ->
  ask_podcast_question w client user_query podcast_name topics top_k st
  = (Ok "I couldn't find any relevant information in the podcast transcripts.", st2)
  /\ loaded_models st2 = loaded_models st
  /\ exists evs, trace st2 = trace st ++ evs /\ generation_events evs = [].
Proof.
  intros Hembed Hsearch. split; [|split].
  - unfold ask_podcast_question, search_transcripts.
    unfold bind at 1. rewrite Hembed.
    unfold bind at 1. rewrite Hsearch. reflexivity.
  - pose proof (hybrid_search_loaded_models w client user_query query_emb top_k
                  podcast_name topics st1) as H2.
    pose proof (embed_text_loaded_models w user_query st) as H1.
    rewrite Hsearch in H2. rewrite Hembed in H1. simpl in *. congruence.
  - destruct (embed_text_no_generation w user_query st) as (e1 & T1 & N1).
    destruct (hybrid_search_no_generation w client user_query query_emb top_k
                podcast_name topics st1) as (e2 & T2 & N2).
    rewrite Hembed in T1. rewrite Hsearch in T2. simpl in *.
    exists (e1 ++ e2). split.
    + rewrite T2, T1, <- app_assoc. reflexivity.
    + apply no_generation_app; assumption.
Qed.

(** An index with nothing in it. *)
Lemma C4_no_hits_witness :
  ask_podcast_question default_world empty_client "What is RAG?" None None 5
    initial_state
  = (Ok "I couldn't find any relevant information in the podcast transcripts.",
     snd (hybrid_search default_world empty_client "What is RAG?" [F64 0] 5 None None
            (snd (embed_text default_world "What is RAG?" initial_state))))
  /\ loaded_models
       (snd (hybrid_search default_world empty_client "What is RAG?" [F64 0] 5 None None
               (snd (embed_text default_world "What is RAG?" initial_state))))
     = loaded_models initial_state
  /\ exists evs,
       trace (snd (hybrid_search default_world empty_client "What is RAG?" [F64 0] 5
                     None None
                     (snd (embed_text default_world "What is RAG?" initial_state))))
       = trace initial_state ++ evs
       /\ generation_events evs = [].
Proof.
  apply (C4_no_hits_fixed_answer default_world empty_client "What is RAG?" None None 5
           initial_state
           (snd (embed_text default_world "What is RAG?" initial_state))
           (snd (hybrid_search default_world empty_client "What is RAG?" [F64 0] 5
                   None None
                   (snd (embed_text default_world "What is RAG?" initial_state))))
           [F64 0]).
  - reflexivity.
  - reflexivity.
Defined.

(* ===================================================================== *)
(** * Theorems: rerank/cross_encoder.py                                    *)
(* ===================================================================== *)

(** ** Floats that are numbers *)

Lemma f64_lt_key x y : f64_lt x y = true -> f64_key x < f64_key y.
Proof.
  unfold f64_lt. intros H.
  apply andb_true_iff in H as [_ H]. apply Z.ltb_lt in H. exact H.
Qed.

Lemma f64_not_lt_key x y :
  f64_is_nan x = false -> f64_is_nan y = false ->
  f64_lt x y = false -> f64_key y <= f64_key x.
Proof.
  unfold f64_lt. intros -> ->. cbn [negb andb]. intros H.
  apply Z.ltb_ge in H. exact H.
Qed.

(** ** The stable descending sort *)

Section SortedDesc.
Context {A : Type} (key : A -> float64).

Let rank (a : A) : Z := f64_key (key a).
Let desc (a b : A) : Prop := rank b <= rank a.

Lemma insert_desc_perm x l : Permutation (insert_desc key x l) (x :: l).
Proof.
  induction l as [|y l IH]; simpl.
  - reflexivity.
  - destruct (f64_lt (key x) (key y)).
    + rewrite IH. apply perm_swap.
    + reflexivity.
Qed.

Lemma sorted_desc_perm l : Permutation (sorted_desc key l) l.
Proof.
  induction l as [|x l IH]; simpl.
  - reflexivity.
  - unfold sorted_desc in *. simpl. rewrite insert_desc_perm. now constructor.
Qed.

Lemma insert_desc_sorted x l :
  f64_is_nan (key x) = false ->
  Forall (fun a => f64_is_nan (key a) = false) l ->
  StronglySorted desc l ->
  StronglySorted desc (insert_desc key x l).
Proof.
  intros Hx Hnan Hs. induction Hs as [|y l Hs IH Hy]; simpl.
  - constructor; constructor.
  - inversion Hnan as [|? ? Hny Hnl]; subst.
    destruct (f64_lt (key x) (key y)) eqn:E.
    + constructor; [apply IH; assumption|].
      apply (Permutation_Forall (Permutation_sym (insert_desc_perm x l))).
      constructor; [|exact Hy].
      apply f64_lt_key in E. unfold desc, rank. lia.
    + pose proof (f64_not_lt_key _ _ Hx Hny E) as Hle.
      constructor; [constructor; assumption|].
      constructor; [exact Hle|].
      eapply List.Forall_impl; [|exact Hy].
      intros a Ha. unfold desc, rank in *. lia.
Qed.

Lemma sorted_desc_sorted l :
  Forall (fun a => f64_is_nan (key a) = false) l ->
  StronglySorted desc (sorted_desc key l).
Proof.
  induction 1 as [|x l Hx Hl IH]; simpl.
  - constructor.
  - unfold sorted_desc in *. simpl. apply insert_desc_sorted.
    + exact Hx.
    + apply (Permutation_Forall (Permutation_sym (sorted_desc_perm l))). exact Hl.
    + exact IH.
Qed.

(** An element is inserted behind greater ones only, so the elements of
    any one rank keep their order. *)
Lemma insert_desc_filter k x l :
  List.filter (fun a => rank a =? k) (insert_desc key x l)
  = List.filter (fun a => rank a =? k) (x :: l).
Proof.
  induction l as [|y l IH]; [reflexivity|].
  simpl insert_desc.
  destruct (f64_lt (key x) (key y)) eqn:E; [|reflexivity].
  apply f64_lt_key in E.
  change (List.filter (fun a => rank a =? k) (y :: insert_desc key x l))
    with (if rank y =? k
          then y :: List.filter (fun a => rank a =? k) (insert_desc key x l)
          else List.filter (fun a => rank a =? k) (insert_desc key x l)).
  rewrite IH. simpl.
  destruct (rank y =? k) eqn:Ey, (rank x =? k) eqn:Ex; try reflexivity.
  apply Z.eqb_eq in Ey, Ex. unfold rank in *. lia.
Qed.

Lemma sorted_desc_filter k l :
  List.filter (fun a => rank a =? k) (sorted_desc key l)
  = List.filter (fun a => rank a =? k) l.
Proof.
  induction l as [|x l IH]; [reflexivity|].
  unfold sorted_desc in *. simpl foldr. rewrite insert_desc_filter.
  simpl. rewrite IH. reflexivity.
Qed.

End SortedDesc.

(** ** Rearrangements *)

Lemma insert_at_perm {A} pos (x : A) l : Permutation (insert_at pos x l) (x :: l).
Proof.
  unfold insert_at. rewrite <- Permutation_middle. constructor.
  rewrite take_drop. reflexivity.
Qed.

Lemma arranged_from_perm {A} order i (xs : list A) :
  Permutation (arranged_from order i xs) xs.
Proof.
  revert i. induction xs as [|x xs IH]; intros i; cbn [arranged_from].
  - reflexivity.
  - rewrite insert_at_perm. constructor. apply IH.
Qed.

(** Whatever the keys, [sorted] returns a rearrangement of the list. *)
Lemma py_sorted_reverse_perm {A} w (key : A -> float64) xs :
  Permutation (py_sorted_reverse w key xs) xs.
Proof.
  unfold py_sorted_reverse. cbv zeta.
  destruct (existsb f64_is_nan (map key xs)).
  - apply arranged_from_perm.
  - apply sorted_desc_perm.
Qed.

(** Without a NaN among the keys it is the stable descending sort. *)
Lemma py_sorted_reverse_numbers {A} w (key : A -> float64) xs :
  Forall (fun a => f64_is_nan (key a) = false) xs ->
  py_sorted_reverse w key xs = sorted_desc key xs.
Proof.
  intros Hkeys. unfold py_sorted_reverse. cbv zeta.
  replace (existsb f64_is_nan (map key xs)) with false; [reflexivity|].
  symmetry. induction Hkeys as [|x xs Hx _ IH]; [reflexivity|].
  cbn [map existsb]. rewrite Hx, IH. reflexivity.
Qed.

Lemma StronglySorted_ext_in {A} (R R' : A -> A -> Prop) l :
  (forall a b, In a l -> In b l -> R a b -> R' a b) ->
  StronglySorted R l -> StronglySorted R' l.
Proof.
  intros Himp Hs. induction Hs as [|a l Hs IH Ha]; [constructor|].
  constructor.
  - apply IH. intros x y Hx Hy. apply Himp; now right.
  - rewrite List.Forall_forall in Ha |- *. intros b Hb.
    apply Himp; [now left | now right | apply Ha, Hb].
Qed.

(** ** Hits on the heap *)

Lemma bind_ok {A B} (m : M A) (k : A -> M B) st a st' :
  m st = (Ok a, st') -> bind m k st = k a st'.
Proof. intros H. unfold bind. rewrite H. reflexivity. Qed.

Lemma deref_insert_eq (hp : gmap nat hit) l (h : hit) : deref (<[l := h]> hp) l = h.
Proof. unfold deref. rewrite lookup_insert_eq. reflexivity. Qed.

Lemma deref_insert_ne (hp : gmap nat hit) l l' (h : hit) :
  l <> l' -> deref (<[l := h]> hp) l' = deref hp l'.
Proof. intros H. unfold deref. rewrite lookup_insert_ne by exact H. reflexivity. Qed.

(** Every hit has a score when there are scores enough. *)
Lemma score_of_in hits : forall scores l,
  (length hits <= length scores)%nat ->
  In l hits ->
  exists x, score_of hits scores l = Some x /\ In x scores.
Proof.
  induction hits as [|h hits IH]; intros scores l Hlen Hin; [destruct Hin|].
  destruct scores as [|x scores]; [simpl in Hlen; lia|].
  cbn [score_of].
  destruct (in_dec Nat.eq_dec l hits) as [Hrest|Hrest].
  - destruct (IH scores l ltac:(simpl in Hlen; lia) Hrest) as (y & -> & Hy).
    exists y. split; [reflexivity | now right].
  - destruct Hin as [->|Hin]; [|contradiction].
    destruct (score_of hits scores l) as [y|] eqn:Hy.
    + exists y. split; [reflexivity|]. right.
      clear - Hy. revert scores Hy. induction hits as [|h hits IH]; intros scores Hy.
      * destruct scores; discriminate Hy.
      * destruct scores as [|z scores]; [discriminate Hy|].
        cbn [score_of] in Hy.
        destruct (score_of hits scores l) as [y'|] eqn:Hy'.
        -- injection Hy as <-. right. apply (IH scores Hy').
        -- destruct (Nat.eqb h l); [injection Hy as <-; now left | discriminate Hy].
    + rewrite Nat.eqb_refl. exists x. split; [reflexivity | now left].
Qed.

(** The loop that attaches the scores: it succeeds when there is a score
    for every hit, writes one field, and leaves on every hit the score of
    its last position among the hits. *)
Lemma attach_scores_ok scores hits : forall i st,
  (i + length hits <= length scores)%nat ->
  exists st',
    attach_scores i hits scores st = (Ok tt, st')
    /\ (forall l key, key <> "_rerank_score" ->
                      deref (heap st') l !! key = deref (heap st) l !! key)
    /\ (forall l,
          match score_of hits (drop i scores) l with
          | Some x => deref (heap st') l !! "_rerank_score" = Some (HFloat x)
          | None => deref (heap st') l = deref (heap st) l
          end).
Proof.
  induction hits as [|l0 hits IH]; intros i st Hlen.
  - exists st. split; [reflexivity|]. split; [reflexivity|].
    intros l. destruct (drop i scores); reflexivity.
  - simpl in Hlen.
    destruct (lookup_lt_is_Some_2 scores i ltac:(lia)) as [x Hx].
    simpl attach_scores. rewrite Hx.
    set (st1 := snd (set_rerank_score l0 x st)).
    destruct (IH (S i) st1 ltac:(lia)) as (st' & Hrun & Hframe & Hscore).
    exists st'. split; [|split].
    + rewrite (bind_ok (set_rerank_score l0 x) _ st tt st1 eq_refl). exact Hrun.
    + intros l' key Hkey. rewrite (Hframe l' key Hkey).
      unfold st1. simpl. destruct (decide (l0 = l')) as [<-|Hne].
      * rewrite deref_insert_eq. apply lookup_insert_ne. congruence.
      * rewrite deref_insert_ne by exact Hne. reflexivity.
    + intros l. rewrite (drop_S _ _ _ Hx). cbn [score_of].
      specialize (Hscore l).
      destruct (score_of hits (drop (S i) scores) l) as [y|]; [exact Hscore|].
      rewrite Hscore. unfold st1. simpl.
      destruct (Nat.eqb l0 l) eqn:E.
      * apply Nat.eqb_eq in E. subst l0.
        rewrite deref_insert_eq. apply lookup_insert_eq.
      * apply Nat.eqb_neq in E. apply deref_insert_ne. exact E.
Qed.

Lemma get_rerank_model_heap w model_name st :
  heap (snd (get_rerank_model w model_name st)) = heap st.
Proof.
  unfold get_rerank_model, bind, get_rerank_memo, get_trace, emit, raise, ret,
    set_rerank_model.
  simpl. destruct (rerank_model st); [reflexivity|].
  destruct (CrossEncoder_imported w); [|reflexivity]. simpl.
  destruct (CrossEncoder_init w (trace st) _); reflexivity.
Qed.

(** C6, as stated, fails: a hit whose '_source' is None makes
    [rerank_results] raise an AttributeError while the pairs are built, so
    no ranking is returned for this non-empty list. *)
Lemma C6_rerank_counterexample :
  ~ rerank_as_stated rerank_world "q" [0%nat] sourceless_hit_state.
Proof.
  intros H. destruct H as (out & st' & scores & Hrun & _); [discriminate|].
  vm_compute in Hrun. discriminate Hrun.
Qed.

(** C6 (amended): on the empty list [rerank_results] returns the empty
    list and touches nothing: the model is neither loaded nor called.  On
    a non-empty list whose hits have a dictionary, or nothing, under
    '_source', when the cross-encoder loads and returns at least one score
    per hit, none of them a NaN, every hit carries under '_rerank_score'
    the score the cross-encoder gave it, and the result is a permutation
    of the hits (same count, same identifiers) in descending order of that
    score, hits of equal score in their original order; no other field of
    a hit is changed, so the retrieval score is still there. *)
Theorem C6_rerank_permutation_sorted_stable (w : world) (query : string)
        (model_name : option string) :
  (forall top_k st, rerank_results w query [] top_k model_name st = (Ok [], st))
  /\ (forall hits st pairs model st1 scores,
        hits <> [] ->
        build_pairs (heap st) query hits = Ok pairs ->
        get_rerank_model w model_name st = (Ok model, st1) ->
        CrossEncoder_predict w (trace st1) model pairs = Ok scores ->
        (length hits <= length scores)%nat ->
        Forall (fun x => f64_is_nan x = false) scores ->
        exists out st',
          rerank_results w query hits None model_name st = (Ok out, st')
          /\ rerank_outcome hits scores (heap st) (heap st') out).
Proof.
  split; [reflexivity|].
  intros hits st pairs model st1 scores Hne Hpairs Hmodel Hpredict Hlen Hnan.
  pose proof (get_rerank_model_heap w model_name st) as Hheap1.
  rewrite Hmodel in Hheap1. simpl in Hheap1.
  set (st2 := logged st1 (EvPredict model pairs)).
  destruct (attach_scores_ok scores hits 0 st2 ltac:(simpl; lia))
    as (st' & Hattach & Hframe & Hleft).
  assert (Hheap2 : heap st2 = heap st) by exact Hheap1.
  rewrite Hheap2 in Hframe. rewrite drop_0 in Hleft.
  assert (Hscore : forall l, In l hits ->
             exists x, score_of hits scores l = Some x
                       /\ In x scores
                       /\ deref (heap st') l !! "_rerank_score" = Some (HFloat x)).
  { intros l Hl. destruct (score_of_in hits scores l Hlen Hl) as (x & Hx & Hin).
    exists x. split; [exact Hx|]. split; [exact Hin|].
    specialize (Hleft l). rewrite Hx in Hleft. exact Hleft. }
  assert (Hrank : forall l, In l hits ->
             f64_key (rerank_key (heap st') l) = score_rank hits scores l).
  { intros l Hl. destruct (Hscore l Hl) as (x & Hx & _ & Hfield).
    unfold rerank_key, score_rank. rewrite Hfield, Hx. reflexivity. }
  assert (Hkeys : Forall (fun l => f64_is_nan (rerank_key (heap st') l) = false) hits).
  { apply List.Forall_forall. intros l Hl.
    destruct (Hscore l Hl) as (x & _ & Hx & Hfield).
    unfold rerank_key. rewrite Hfield.
    rewrite List.Forall_forall in Hnan. apply Hnan, Hx. }
  set (out := sorted_desc (rerank_key (heap st')) hits).
  assert (Hperm : Permutation out hits) by apply sorted_desc_perm.
  exists out, st'.
  split.
  - unfold rerank_results. destruct hits as [|l0 hits0]; [contradiction|].
    rewrite (bind_ok get_heap _ st (heap st) st eq_refl).
    rewrite Hpairs.
    rewrite (bind_ok (lift_result (Ok pairs)) _ st pairs st eq_refl).
    rewrite (bind_ok _ _ st model st1 Hmodel).
    rewrite (bind_ok get_trace _ st1 (trace st1) st1 eq_refl).
    rewrite (bind_ok (emit (EvPredict model pairs)) _ st1 tt st2 eq_refl).
    rewrite Hpredict.
    rewrite (bind_ok (lift_result (Ok scores)) _ st2 scores st2 eq_refl).
    rewrite (bind_ok _ _ st2 tt st' Hattach).
    rewrite (bind_ok get_heap _ st' (heap st') st' eq_refl).
    rewrite (py_sorted_reverse_numbers w _ _ Hkeys). reflexivity.
  - unfold rerank_outcome. split; [exact Hperm|]. split; [|split; [|split]].
    + apply Permutation_length, Hperm.
    + rewrite (map_ext (fun l => deref (heap st') l !! "_id")
                       (fun l => deref (heap st) l !! "_id"))
        by (intros l; apply Hframe; discriminate).
      apply Permutation_map, Hperm.
    + intros l Hl. destruct (Hscore l Hl) as (x & Hx & _ & Hfield).
      exists x. split; assumption.
    + split; [exact Hframe|]. split; [intros l; apply Hframe; discriminate|].
      split.
      * apply (StronglySorted_ext_in
                 (fun a b => f64_key (rerank_key (heap st') b)
                             <= f64_key (rerank_key (heap st') a))).
        -- intros a b Ha Hb Hab.
           rewrite <- (Hrank a), <- (Hrank b); [exact Hab | |];
             apply (Permutation_in _ Hperm); assumption.
        -- apply (sorted_desc_sorted (rerank_key (heap st')) hits Hkeys).
      * intros k.
        rewrite (List.filter_ext_in
                   (fun l => score_rank hits scores l =? k)
                   (fun l => f64_key (rerank_key (heap st') l) =? k) out)
          by (intros l Hl; rewrite Hrank; [reflexivity|];
              apply (Permutation_in _ Hperm), Hl).
        rewrite (List.filter_ext_in
                   (fun l => score_rank hits scores l =? k)
                   (fun l => f64_key (rerank_key (heap st') l) =? k) hits)
          by (intros l Hl; rewrite Hrank; [reflexivity | exact Hl]).
        apply (sorted_desc_filter (rerank_key (heap st')) k hits).
Qed.

(** Three hits scored 1.0, 2.0, 1.0 come back as the second, the first,
    the third. *)
Lemma C6_rerank_witness :
  (forall top_k st, rerank_results rerank_world "q" [] top_k None st = (Ok [], st))
  /\ exists out st',
       rerank_results rerank_world "q" [0; 1; 2]%nat None None three_hits_state
       = (Ok out, st')
       /\ rerank_outcome [0; 1; 2]%nat three_scores
            (heap three_hits_state) (heap st') out.
Proof.
  destruct (C6_rerank_permutation_sorted_stable rerank_world "q" None) as [Hempty Hsome].
  split; [exact Hempty|].
  apply (Hsome [0; 1; 2]%nat three_hits_state
               [("q", Some "alpha"); ("q", Some "beta"); ("q", Some "gamma")]
               DEFAULT_RERANK_MODEL
               (snd (get_rerank_model rerank_world None three_hits_state))
               three_scores).
  - discriminate.
  - vm_compute. reflexivity.
  - reflexivity.
  - reflexivity.
  - simpl. lia.
  - repeat constructor.
Defined.

Example rerank_three_hits :
  fst (rerank_results rerank_world "q" [0; 1; 2]%nat None None three_hits_state)
  = Ok [1; 0; 2]%nat.
Proof. vm_compute. reflexivity. Qed.

(** With a NaN among the scores the result need not descend: scores 1.0,
    NaN, 2.0 leave the hits as they were under CPython 3.11, the first
    hit before the third. *)
Example rerank_nan_score_unsorted :
  fst (rerank_results nan_score_world "q" [0; 1; 2]%nat None None three_hits_state)
  = Ok [0; 1; 2]%nat.
Proof. vm_compute. reflexivity. Qed.

(* ===================================================================== *)
(** * Further properties: ingest/chunk.py                                  *)
(* ===================================================================== *)

Lemma estimate_tokens_nonneg txt : 0 <= estimate_tokens txt.
Proof.
  unfold estimate_tokens, Py.int_times_1_3. apply Z.quot_pos; lia.
Qed.

Lemma sum_estimates_nonneg blocks : 0 <= sum_estimates blocks.
Proof.
  induction blocks as [|b blocks IH]; simpl; [lia|].
  pose proof (estimate_tokens_nonneg b). unfold sum_estimates in *. simpl. lia.
Qed.

Lemma sum_estimates_cons b blocks :
  sum_estimates (b :: blocks) = estimate_tokens b + sum_estimates blocks.
Proof. reflexivity. Qed.

(** While the running count stays within the budget the loop only
    appends to the buffer. *)
Lemma chunk_loop_within_budget max_tokens overlap blocks : forall cs buffer tc,
  tc + sum_estimates blocks <= max_tokens ->
  chunk_loop max_tokens overlap blocks
    {| cs_chunks := cs; cs_buffer := buffer; cs_token_count := tc |}
  = {| cs_chunks := cs; cs_buffer := buffer ++ blocks;
       cs_token_count := tc + sum_estimates blocks |}.
Proof.
  induction blocks as [|b blocks IH]; intros cs buffer tc Hfit.
  - simpl. rewrite app_nil_r. f_equal. unfold sum_estimates. simpl. lia.
  - rewrite chunk_loop_cons. rewrite sum_estimates_cons in Hfit.
    pose proof (sum_estimates_nonneg blocks) as Hpos.
    unfold chunk_step. cbn [cs_token_count cs_buffer cs_chunks].
    replace (tc + estimate_tokens b >? max_tokens) with false
      by (symmetry; rewrite Z.gtb_ltb; apply Z.ltb_ge; lia).
    cbn [cs_token_count cs_buffer cs_chunks].
    rewrite IH by lia.
    rewrite <- app_assoc, sum_estimates_cons. f_equal. lia.
Qed.

(** X1: a transcript whose blocks fit the budget together comes back as
    one chunk, the blocks joined by single spaces, at position 0. *)
Theorem chunk_single_when_within_budget (text : string) (max_tokens overlap : Z) :
  transcript_blocks text <> [] ->
  sum_estimates (transcript_blocks text) <= max_tokens ->
  chunk_by_semantic_windows text max_tokens overlap
  = [ {| chunk_text := Py.join " " (transcript_blocks text);
         chunk_timestamp := None; paragraph_index := 0 |} ].
Proof.
  intros Hne Hfit. unfold chunk_by_semantic_windows, chunk_texts, chunk_init.
  rewrite chunk_loop_within_budget by (simpl; lia). simpl.
  destruct (transcript_blocks text); [contradiction|reflexivity].
Qed.

Lemma chunk_single_when_within_budget_witness :
  chunk_by_semantic_windows two_paragraphs 240 40
  = [ {| chunk_text := Py.join " " (transcript_blocks two_paragraphs);
         chunk_timestamp := None; paragraph_index := 0 |} ].
Proof.
  apply (chunk_single_when_within_budget two_paragraphs 240 40).
  - discriminate.
  - vm_compute. discriminate.
Defined.

(** Each block adds at most one chunk, and leaves the buffer filled. *)
Lemma chunk_loop_count max_tokens overlap blocks : forall st,
  (length (cs_chunks (chunk_loop max_tokens overlap blocks st))
   <= length (cs_chunks st) + length blocks)%nat
  /\ (blocks <> [] -> cs_buffer (chunk_loop max_tokens overlap blocks st) <> []).
Proof.
  induction blocks as [|b blocks IH]; intros st.
  - simpl. split; [lia | intros H; contradiction].
  - rewrite chunk_loop_cons.
    destruct (IH (chunk_step max_tokens overlap st b)) as [Hlen Hbuf].
    assert (Hstep : (length (cs_chunks (chunk_step max_tokens overlap st b))
                     <= S (length (cs_chunks st)))%nat).
    { unfold chunk_step.
      destruct (cs_token_count st + estimate_tokens b >? max_tokens); simpl;
        [rewrite length_app; simpl|]; lia. }
    split; [simpl; lia|]. intros _.
    destruct blocks as [|b' blocks].
    + simpl. unfold chunk_step.
      destruct (cs_token_count st + estimate_tokens b >? max_tokens); simpl;
        intros H; apply app_eq_nil in H as [_ H]; discriminate H.
    + apply Hbuf. discriminate.
Qed.

(** X2: a transcript without blocks gives no chunk; one with blocks gives
    at least one chunk and at most one more than it has blocks. *)
Theorem chunk_count_bounds (text : string) (max_tokens overlap : Z) :
  let out := chunk_by_semantic_windows text max_tokens overlap in
  let blocks := transcript_blocks text in
  (blocks = [] -> out = [])
  /\ (blocks <> [] -> (1 <= length out)%nat)
  /\ (length out <= length blocks + 1)%nat.
Proof.
  unfold chunk_by_semantic_windows, chunk_texts.
  rewrite !enumerate_chunks_length.
  destruct (chunk_loop_count max_tokens overlap (transcript_blocks text) chunk_init)
    as [Hlen Hbuf].
  simpl in Hlen. split; [|split].
  - intros ->. reflexivity.
  - intros Hne. specialize (Hbuf Hne).
    destruct (cs_buffer _); [contradiction|].
    rewrite length_app. simpl. lia.
  - destruct (cs_buffer _); [lia|]. rewrite length_app. simpl. lia.
Qed.

(** The chunk of every group is among the assembled texts. *)
Lemma assemble_in overlap groups : forall seed g,
  In g groups ->
  exists seed', In (Py.join " " (seed' ++ g)) (assemble overlap seed groups).
Proof.
  induction groups as [|g0 groups IH]; intros seed g Hin; [destruct Hin|].
  destruct Hin as [-> | Hin].
  - exists seed. now left.
  - destruct (IH (overlap_seed overlap (Py.join " " (seed ++ g0))) g Hin)
      as [seed' H].
    exists seed'. now right.
Qed.

(** X3: no block is lost: every block of the transcript is part of the
    text of some chunk. *)
Theorem chunk_every_block_kept (text : string) (max_tokens overlap : Z) (b : string) :
  In b (transcript_blocks text) ->
  exists c, In c (chunk_by_semantic_windows text max_tokens overlap)
            /\ Py.contains b (chunk_text c) = true.
Proof.
  intros Hb.
  destruct (chunk_texts_groups max_tokens overlap (transcript_blocks text))
    as (groups & Hconcat & Htexts & _).
  rewrite <- Hconcat in Hb. apply in_concat in Hb as (g & Hg & Hbg).
  destruct (assemble_in overlap groups [] g Hg) as [seed Hin].
  rewrite <- Htexts in Hin.
  unfold chunk_by_semantic_windows.
  rewrite <- (enumerate_chunks_text 0 (chunk_texts _ _ _)) in Hin.
  apply in_map_iff in Hin as (c & Hc & Hcin).
  exists c. split; [exact Hcin|]. rewrite Hc.
  destruct (join_contains " " b (seed ++ g) ltac:(apply in_or_app; now right))
    as (pre & post & ->).
  apply contains_middle.
Qed.

Lemma chunk_every_block_kept_witness :
  exists c, In c (chunk_by_semantic_windows two_paragraphs 3 40)
            /\ Py.contains "d e f" (chunk_text c) = true.
Proof.
  apply (chunk_every_block_kept two_paragraphs 3 40 "d e f").
  vm_compute. right. left. reflexivity.
Defined.

(** ** Chunks after the first are never empty *)

Lemma truthy_app s t : Py.truthy (s +:+ t) = Py.truthy s || Py.truthy t.
Proof. destruct s; [destruct t|]; reflexivity. Qed.

Lemma join_cons2 sep x y l :
  Py.join sep (x :: y :: l) = x +:+ sep +:+ Py.join sep (y :: l).
Proof. reflexivity. Qed.

Lemma join_truthy_head x xs :
  Py.truthy x = true -> Py.truthy (Py.join " " (x :: xs)) = true.
Proof.
  intros H. destruct xs as [|y l]; [exact H|].
  rewrite join_cons2, truthy_app, H. reflexivity.
Qed.

Lemma join_truthy_last pre b :
  Py.truthy b = true -> Py.truthy (Py.join " " (pre ++ [b])) = true.
Proof.
  intros H. induction pre as [|x pre IH]; [exact H|].
  simpl app. destruct (pre ++ [b]) as [|y l] eqn:E.
  - apply app_eq_nil in E as [_ E]. discriminate E.
  - rewrite join_cons2, !truthy_app. simpl. apply orb_true_r.
Qed.

Lemma stripped_truthy (pieces : list string) :
  Forall (fun l => Py.truthy l = true)
    (map Py.strip (List.filter (fun l => Py.truthy (Py.strip l)) pieces)).
Proof.
  apply List.Forall_forall. intros l Hl.
  apply in_map_iff in Hl as (x & <- & Hx).
  apply filter_In in Hx as [_ Hx]. exact Hx.
Qed.

Lemma speaker_blocks_loop_truthy lines : forall blocks current,
  Forall (fun l => Py.truthy l = true) lines ->
  Forall (fun l => Py.truthy l = true) blocks ->
  Forall (fun l => Py.truthy l = true) current ->
  Forall (fun l => Py.truthy l = true) (fst (speaker_blocks_loop lines blocks current))
  /\ Forall (fun l => Py.truthy l = true) (snd (speaker_blocks_loop lines blocks current)).
Proof.
  induction lines as [|line lines IH]; intros blocks current Hl Hb Hc.
  - simpl. auto.
  - inversion Hl as [|? ? Hline Hrest]; subst. simpl.
    destruct (Re.matches_prefix speaker_pattern line).
    + destruct current as [|x current].
      * apply IH; [exact Hrest | exact Hb |]. simpl. auto.
      * inversion Hc as [|? ? Hx Hcur]; subst.
        apply IH; [exact Hrest | | simpl; auto].
        apply Forall_app. split; [exact Hb|].
        constructor; [|constructor]. now apply join_truthy_head.
    + apply IH; [exact Hrest | exact Hb |].
      apply Forall_app. split; [exact Hc|]. auto.
Qed.

(** No block of a transcript is the empty text. *)
Lemma transcript_blocks_truthy text :
  Forall (fun b => Py.truthy b = true) (transcript_blocks text).
Proof.
  unfold transcript_blocks.
  destruct (length (speaker_blocks text) <? 3)%nat.
  - apply stripped_truthy.
  - unfold speaker_blocks.
    pose proof (speaker_blocks_loop_truthy (stripped_lines text) [] []
                  (stripped_truthy _) (List.Forall_nil _) (List.Forall_nil _)) as [Hb Hc].
    destruct (speaker_blocks_loop (stripped_lines text) [] []) as [blocks current].
    simpl in *. destruct current as [|x current]; [exact Hb|].
    apply Forall_app. split; [exact Hb|].
    inversion Hc; subst. constructor; [|constructor]. now apply join_truthy_head.
Qed.

Lemma tl_snoc_truthy (cs : list string) c :
  Forall (fun x => Py.truthy x = true) (tl cs) ->
  (cs = [] \/ Py.truthy c = true) ->
  Forall (fun x => Py.truthy x = true) (tl (cs ++ [c])).
Proof.
  intros Hcs Hc. destruct cs as [|x cs]; simpl; [constructor|].
  destruct Hc as [Hc|Hc]; [discriminate Hc|].
  apply Forall_app. split; [exact Hcs|]. auto.
Qed.

(** The loop keeps: nothing emitted and nothing buffered, or a buffer that
    ends with a block; and every chunk emitted after the first has text. *)
Lemma chunk_loop_truthy max_tokens overlap blocks : forall st,
  Forall (fun b => Py.truthy b = true) blocks ->
  Forall (fun x => Py.truthy x = true) (tl (cs_chunks st)) ->
  (cs_buffer st = [] /\ cs_chunks st = []
   \/ exists pre b, cs_buffer st = pre ++ [b] /\ Py.truthy b = true) ->
  let st' := chunk_loop max_tokens overlap blocks st in
  Forall (fun x => Py.truthy x = true) (tl (cs_chunks st'))
  /\ (cs_buffer st' = [] /\ cs_chunks st' = []
      \/ exists pre b, cs_buffer st' = pre ++ [b] /\ Py.truthy b = true).
Proof.
  induction blocks as [|b blocks IH]; intros st Hblocks Hcs Hbuf.
  - simpl. auto.
  - inversion Hblocks as [|? ? Hb Hrest]; subst.
    rewrite chunk_loop_cons. apply IH; [exact Hrest| |].
    + unfold chunk_step.
      destruct (cs_token_count st + estimate_tokens b >? max_tokens); simpl;
        [|exact Hcs].
      apply tl_snoc_truthy; [exact Hcs|].
      destruct Hbuf as [[_ Hnil] | (pre & b0 & -> & Hb0)]; [now left|].
      right. now apply join_truthy_last.
    + right. unfold chunk_step.
      destruct (cs_token_count st + estimate_tokens b >? max_tokens); simpl;
        eexists _, b; split; try reflexivity; exact Hb.
Qed.

(** X4: only the first chunk can have an empty text: every chunk after it
    holds at least one character. *)
Theorem chunk_only_first_can_be_empty (text : string) (max_tokens overlap : Z) :
  Forall (fun c => chunk_text c <> EmptyString)
    (tl (chunk_by_semantic_windows text max_tokens overlap)).
Proof.
  unfold chunk_by_semantic_windows.
  assert (Htexts : Forall (fun x => Py.truthy x = true)
                     (tl (chunk_texts max_tokens overlap (transcript_blocks text)))).
  { unfold chunk_texts.
    destruct (chunk_loop_truthy max_tokens overlap (transcript_blocks text) chunk_init
                (transcript_blocks_truthy text) (List.Forall_nil _)
                (or_introl (conj eq_refl eq_refl))) as [Hcs Hbuf].
    destruct (cs_buffer _) as [|x buffer] eqn:E; [exact Hcs|].
    apply tl_snoc_truthy; [exact Hcs|]. right.
    destruct Hbuf as [[Hnil _] | (pre & b & -> & Hb)]; [discriminate Hnil|].
    now apply join_truthy_last. }
  rewrite <- (enumerate_chunks_text 0 (chunk_texts _ _ _)) in Htexts.
  destruct (enumerate_chunks 0 _) as [|c0 out]; [constructor|].
  simpl in *. rewrite List.Forall_map in Htexts.
  eapply List.Forall_impl; [|exact Htexts].
  intros c Hc Hempty. cbv beta in Hc. rewrite Hempty in Hc. discriminate Hc.
Qed.

(** ** The overlap carried over *)

(** X5: when [int(overlap / 1.3)] is positive, the words seeding the next
    buffer are the last words of the emitted chunk, as many as that number
    or all of them when the chunk has fewer. *)
Theorem overlap_seed_last_words (overlap : Z) (chunk_text : string) :
  0 < Py.int_div_1_3 overlap ->
  (exists dropped, Py.split chunk_text = dropped ++ overlap_seed overlap chunk_text)
  /\ Z.of_nat (length (overlap_seed overlap chunk_text))
     = Z.min (Py.int_div_1_3 overlap) (Z.of_nat (length (Py.split chunk_text))).
Proof.
  intros Hpos. unfold overlap_seed, Py.slice_from.
  replace (- Py.int_div_1_3 overlap <? 0) with true
    by (symmetry; apply Z.ltb_lt; lia).
  split.
  - eexists. symmetry. apply take_drop.
  - rewrite length_drop. lia.
Qed.

Lemma overlap_seed_last_words_witness :
  (exists dropped, Py.split "a b c d" = dropped ++ overlap_seed 3 "a b c d")
  /\ Z.of_nat (length (overlap_seed 3 "a b c d"))
     = Z.min (Py.int_div_1_3 3) (Z.of_nat (length (Py.split "a b c d"))).
Proof. apply (overlap_seed_last_words 3 "a b c d"). reflexivity. Defined.

(** ** The guest is taken from the title *)

Lemma of_chars_app l1 l2 : Py.of_chars (l1 ++ l2) = Py.of_chars l1 +:+ Py.of_chars l2.
Proof.
  induction l1 as [|c l1 IH]; [reflexivity|].
  simpl. rewrite IH. reflexivity.
Qed.

Lemma substr_contains s a b : Py.contains (Re.substr (Py.chars s) a b) s = true.
Proof.
  unfold Re.substr.
  assert (H : s = Py.of_chars (take a (Py.chars s))
                  +:+ Py.of_chars (take (b - a) (drop a (Py.chars s)))
                  +:+ Py.of_chars (drop (b - a) (drop a (Py.chars s)))).
  { rewrite <- !of_chars_app, !take_drop.
    symmetry. apply string_of_list_ascii_of_string. }
  rewrite H at 2. apply contains_middle.
Qed.

(** X6: a guest, when one is returned, is a piece of the title, character
    for character; the first component is the title itself. *)
Theorem extract_guest_is_part_of_title (title t guest : string) :
  extract_guest_from_title title = (t, Some guest) ->
  t = title /\ Py.contains guest title = true.
Proof.
  unfold extract_guest_from_title, Re.group1.
  repeat match goal with
         | |- context [match Re.search ?p title with _ => _ end] =>
             destruct (Re.search p title) as [[? ? [[? ?]|]]|]
         end;
    intros [= <- <-]; (split; [reflexivity|apply substr_contains]).
Qed.

Lemma extract_guest_is_part_of_title_witness :
  "Building Startups ft. John Doe" = "Building Startups ft. John Doe"
  /\ Py.contains "John Doe" "Building Startups ft. John Doe" = true.
Proof.
  apply (extract_guest_is_part_of_title "Building Startups ft. John Doe"
           "Building Startups ft. John Doe" "John Doe").
  vm_compute. reflexivity.
Defined.

(* ===================================================================== *)
(** * Further properties: llm/prompt.py, models                            *)
(* ===================================================================== *)

Lemma lower_char_idempotent c : Py.lower_char (Py.lower_char c) = Py.lower_char c.
Proof. destruct c as [[] [] [] [] [] [] [] []]; reflexivity. Qed.

Lemma lower_idempotent s : Py.lower (Py.lower s) = Py.lower s.
Proof.
  induction s as [|c s IH]; [reflexivity|].
  unfold Py.lower in *. simpl. rewrite lower_char_idempotent, IH. reflexivity.
Qed.

(** X7: model names are read without regard to letter case: lowering the
    name changes neither the model found nor the error raised, and a name
    that lowers to the value of a [ModelType] is that model. *)
Theorem model_name_case_insensitive (model_str : string) :
  _get_model_type_from_string (Py.lower model_str)
  = _get_model_type_from_string model_str
  /\ forall m, Py.lower model_str = ModelType_value m ->
               _get_model_type_from_string model_str = Ok m.
Proof.
  split.
  - unfold _get_model_type_from_string. rewrite lower_idempotent. reflexivity.
  - intros m H. unfold _get_model_type_from_string. rewrite H.
    destruct m; reflexivity.
Qed.

Lemma _get_model_path_eq w model_type :
  _get_model_path w model_type
  = let path := getenv w (path_env (MODEL_CONFIGS model_type)) in
    if opt_truthy path then path
    else match getenv w "LLAMA_MODEL_PATH" with
         | Some legacy_path =>
             if Py.truthy legacy_path
                && legacy_path_matches model_type (Py.lower legacy_path)
             then Some legacy_path else path
         | None => path
         end.
Proof.
  unfold _get_model_path. cbv zeta.
  destruct (opt_truthy (getenv w (path_env (MODEL_CONFIGS model_type)))); cbn [negb];
    [reflexivity|].
  destruct (getenv w "LLAMA_MODEL_PATH") as [legacy|]; [|reflexivity].
  destruct (Py.truthy legacy); cbn [andb]; [|reflexivity].
  generalize (getenv w (path_env (MODEL_CONFIGS model_type))) as path.
  intros path.
  destruct model_type; cbn [legacy_path_matches];
    destruct (Py.contains "llama" (Py.lower legacy)),
             (Py.contains "8b" (Py.lower legacy)),
             (Py.contains "phi" (Py.lower legacy)),
             (Py.contains "tiny" (Py.lower legacy)); reflexivity.
Qed.

(** X8: where a usable (non-empty) model path comes from: it is the value
    of the model's own path variable, or else, that variable being unset or
    empty, the value of LLAMA_MODEL_PATH, and then its lower-cased text
    names the model.  Nothing else yields a path. *)
Theorem model_path_origin (w : world) (model_type : ModelType) (p : string) :
  Py.truthy p = true ->
  (_get_model_path w model_type = Some p
   <-> getenv w (path_env (MODEL_CONFIGS model_type)) = Some p
       \/ (opt_truthy (getenv w (path_env (MODEL_CONFIGS model_type))) = false
           /\ getenv w "LLAMA_MODEL_PATH" = Some p
           /\ legacy_path_matches model_type (Py.lower p) = true)).
Proof.
  intros Ht. rewrite _get_model_path_eq. cbv zeta.
  destruct (opt_truthy (getenv w (path_env (MODEL_CONFIGS model_type)))) eqn:Hown.
  { split; [intros H; left; exact H | intros [H | [H _]]; [exact H | discriminate H]]. }
  assert (Hne : getenv w (path_env (MODEL_CONFIGS model_type)) <> Some p).
  { intros H. rewrite H in Hown. cbn [opt_truthy] in Hown. congruence. }
  destruct (getenv w "LLAMA_MODEL_PATH") as [legacy|].
  - destruct (Py.truthy legacy && legacy_path_matches model_type (Py.lower legacy))
      eqn:Hl.
    + apply andb_true_iff in Hl as [_ Hm].
      split.
      * intros [= ->]. right. auto.
      * intros [H | (_ & H & _)]; [contradiction | exact H].
    + split; [intros H; contradiction|].
      intros [H | (_ & [= ->] & Hm)]; [contradiction|].
      rewrite Ht, Hm in Hl. discriminate Hl.
  - split; [intros H; contradiction|].
    intros [H | (_ & H & _)]; [contradiction | discriminate H].
Qed.

Lemma model_path_origin_witness :
  _get_model_path legacy_phi_world PHI3_MINI = Some "/models/Phi-3-mini.gguf"
  <-> getenv legacy_phi_world (path_env (MODEL_CONFIGS PHI3_MINI))
      = Some "/models/Phi-3-mini.gguf"
      \/ (opt_truthy (getenv legacy_phi_world (path_env (MODEL_CONFIGS PHI3_MINI))) = false
          /\ getenv legacy_phi_world "LLAMA_MODEL_PATH" = Some "/models/Phi-3-mini.gguf"
          /\ legacy_path_matches PHI3_MINI (Py.lower "/models/Phi-3-mini.gguf") = true).
Proof.
  apply (model_path_origin legacy_phi_world PHI3_MINI "/models/Phi-3-mini.gguf").
  reflexivity.
Defined.

Example legacy_path_used_for_phi_only :
  _get_model_path legacy_phi_world PHI3_MINI = Some "/models/Phi-3-mini.gguf"
  /\ _get_model_path legacy_phi_world TINYLLAMA = None
  /\ _get_model_path legacy_phi_world LLAMA3_8B = None.
Proof. vm_compute. repeat split. Qed.

(** What a call of [_load_model] leaves in the table of loaded models. *)
Lemma _load_model_table w model_type st :
  match _load_model w model_type st with
  | (Ok model, st1) =>
      loaded_models st1 model_type = Some model
      /\ forall m, m <> model_type -> loaded_models st1 m = loaded_models st m
  | (Raise _, st1) => loaded_models st1 = loaded_models st
  end.
Proof.
  unfold _load_model, bind, emit, get_loaded_model, get_trace, lift_result, raise, ret,
    set_loaded_model.
  destruct (negb (Llama_imported w)); [reflexivity|].
  cbv beta iota.
  change (loaded_models (logged st (EvLoadModel model_type))) with (loaded_models st).
  destruct (loaded_models st model_type) as [model|] eqn:Hmemo.
  { cbv beta iota. split; [exact Hmemo | reflexivity]. }
  destruct (_get_model_path w model_type) as [[|c p]|]; try reflexivity.
  destruct (env_int w _ _) as [n_ctx|e]; [|reflexivity].
  destruct (env_float w _ _) as [temperature|e]; [|reflexivity].
  cbn [logged loaded_models trace].
  destruct (Llama_init w _ _) as [e|]; [reflexivity|].
  cbv beta iota. cbn [loaded_models]. split.
  - rewrite bool_decide_eq_true_2 by reflexivity. reflexivity.
  - intros m Hm. rewrite bool_decide_eq_false_2 by exact Hm. reflexivity.
Qed.

(** X9: a model is constructed at most once: after a load that succeeded,
    loading the same model again, under whatever environment, returns the
    same object without constructing anything (the only trace is the entry
    into [_load_model]); and the load has left the entries of the other
    models as they were. *)
Theorem load_model_memoized (w w' : world) (model_type : ModelType)
        (st st1 : pystate) (model : llama_handle) :
  _load_model w model_type st = (Ok model, st1) ->
  Llama_imported w' = true ->
  _load_model w' model_type st1 = (Ok model, logged st1 (EvLoadModel model_type))
  /\ forall m, m <> model_type -> loaded_models st1 m = loaded_models st m.
Proof.
  intros Hload Himp.
  pose proof (_load_model_table w model_type st) as H. rewrite Hload in H.
  destruct H as [Hmemo Hframe]. split; [|exact Hframe].
  unfold _load_model, bind, emit, get_loaded_model. rewrite Himp.
  cbn [negb]. cbv beta iota.
  change (loaded_models (logged st1 (EvLoadModel model_type))) with (loaded_models st1).
  rewrite Hmemo. reflexivity.
Qed.

Lemma load_model_memoized_witness :
  _load_model default_world PHI3_MINI
    (snd (_load_model default_world PHI3_MINI initial_state))
  = (Ok phi3_handle,
     logged (snd (_load_model default_world PHI3_MINI initial_state))
       (EvLoadModel PHI3_MINI))
  /\ forall m, m <> PHI3_MINI ->
       loaded_models (snd (_load_model default_world PHI3_MINI initial_state)) m
       = loaded_models initial_state m.
Proof.
  apply (load_model_memoized default_world default_world PHI3_MINI initial_state
           (snd (_load_model default_world PHI3_MINI initial_state)) phi3_handle).
  - reflexivity.
  - reflexivity.
Defined.

(** X10: a load that fails is not remembered: the table of loaded models
    is as it was before the call, so that a later call tries again. *)
Theorem load_model_failure_not_cached (w : world) (model_type : ModelType)
        (st st1 : pystate) (e : exn) :
  _load_model w model_type st = (Raise e, st1) ->
  loaded_models st1 = loaded_models st.
Proof.
  intros Hload.
  pose proof (_load_model_table w model_type st) as H.
  rewrite Hload in H. exact H.
Qed.

Lemma load_model_failure_not_cached_witness :
  loaded_models (logged initial_state (EvLoadModel PHI3_MINI))
  = loaded_models initial_state.
Proof.
  apply (load_model_failure_not_cached no_llama_world PHI3_MINI initial_state
           (logged initial_state (EvLoadModel PHI3_MINI))
           (Exn RuntimeError llama_required_text)).
  reflexivity.
Defined.

(* ===================================================================== *)
(** * Further properties: llm/prompt.py, generate_answer                   *)
(* ===================================================================== *)

Lemma only_load_attempts_refl st : only_load_attempts st st.
Proof.
  split; [reflexivity|]. exists []. split; [symmetry; apply app_nil_r | reflexivity].
Qed.

Lemma only_load_attempts_trans st1 st2 st3 :
  only_load_attempts st1 st2 -> only_load_attempts st2 st3 ->
  only_load_attempts st1 st3.
Proof.
  intros [Hm1 (evs1 & Ht1 & Hf1)] [Hm2 (evs2 & Ht2 & Hf2)].
  split; [congruence|].
  exists (evs1 ++ evs2). split.
  - rewrite Ht2, Ht1, <- app_assoc. reflexivity.
  - rewrite forallb_app, Hf1, Hf2. reflexivity.
Qed.

Lemma only_load_attempts_logged st model_type :
  only_load_attempts st (logged st (EvLoadModel model_type)).
Proof. split; [reflexivity|]. exists [EvLoadModel model_type]. split; reflexivity. Qed.

Section WithoutLlama.

Variable w : world.
Hypothesis Hmissing : Llama_imported w = false.

Lemma _load_model_missing model_type st :
  _load_model w model_type st
  = (Raise (Exn RuntimeError llama_required_text), logged st (EvLoadModel model_type)).
Proof. unfold _load_model, bind, emit. rewrite Hmissing. reflexivity. Qed.

Lemma parse_and_load_missing name st :
  exists st',
    (do model_type <- lift_result (_get_model_type_from_string name);
     _load_model w model_type) st
    = (Raise (load_failure_without_llama name), st')
    /\ only_load_attempts st st'
    /\ value_or_runtime_error (load_failure_without_llama name) = true.
Proof.
  unfold bind, lift_result, load_failure_without_llama.
  destruct (_get_model_type_from_string name) as [model_type|e] eqn:Hparse.
  - rewrite _load_model_missing. eexists. split; [reflexivity|].
    split; [apply only_load_attempts_logged | reflexivity].
  - exists st. split; [reflexivity|]. split; [apply only_load_attempts_refl|].
    unfold _get_model_type_from_string in Hparse.
    repeat match type of Hparse with
           | (if ?b then _ else _) = _ => destruct b; [discriminate Hparse|]
           end.
    injection Hparse as <-. reflexivity.
Qed.

Lemma _get_fallback_model_missing st :
  exists st',
    _get_fallback_model w st
    = (Raise (Exn RuntimeError
                ("Failed to load fallback model (" +:+ FALLBACK_MODEL w +:+ "): "
                 +:+ exn_str (load_failure_without_llama (FALLBACK_MODEL w)) +:+ ". "
                 +:+ "Please configure at least one model path.")), st')
    /\ only_load_attempts st st'.
Proof.
  destruct (parse_and_load_missing (FALLBACK_MODEL w) st) as (st' & Hrun & Hquiet & Hcls).
  exists st'. split; [|exact Hquiet].
  unfold _get_fallback_model, try_except. rewrite Hrun, Hcls. reflexivity.
Qed.

Lemma _get_primary_model_missing st :
  exists e st',
    _get_primary_model w st = (Raise e, st')
    /\ is_class RuntimeError e = true
    /\ only_load_attempts st st'.
Proof.
  destruct (parse_and_load_missing (PRIMARY_MODEL w) st) as (st1 & Hrun & Hquiet1 & Hcls).
  destruct (_get_fallback_model_missing st1) as (st2 & Hfb & Hquiet2).
  eexists _, st2. split; [|split].
  - unfold _get_primary_model, try_except. rewrite Hrun, Hcls. exact Hfb.
  - reflexivity.
  - exact (only_load_attempts_trans _ _ _ Hquiet1 Hquiet2).
Qed.

Lemma select_bigger_missing prompt big s st :
  exists st', select_bigger w prompt big s st = (Ok s, st') /\ only_load_attempts st st'.
Proof.
  unfold select_bigger.
  destruct (big && (Py.len prompt >? 4000));
    [|exists st; split; [reflexivity | apply only_load_attempts_refl]].
  unfold bind at 1. unfold _get_bigger_model.
  destruct (negb (USE_BIGGER_MODEL w)).
  - exists st. split; [reflexivity | apply only_load_attempts_refl].
  - exists (logged st (EvLoadModel LLAMA3_8B)).
    unfold try_except, bind. rewrite (_load_model_missing LLAMA3_8B st).
    split; [reflexivity | apply only_load_attempts_logged].
Qed.

Lemma select_preference_missing pref st :
  exists st',
    select_preference w pref selection_init st = (Ok selection_init, st')
    /\ only_load_attempts st st'.
Proof.
  unfold select_preference. cbn [sel_model selection_init].
  destruct pref as [name|];
    [|exists st; split; [reflexivity | apply only_load_attempts_refl]].
  cbn [opt_truthy]. destruct (Py.truthy name);
    [|exists st; split; [reflexivity | apply only_load_attempts_refl]].
  destruct (parse_and_load_missing name st) as (st' & Hrun & Hquiet & Hcls).
  exists st'. split; [|exact Hquiet].
  unfold try_except, bind, lift_result.
  unfold bind, lift_result in Hrun.
  destruct (_get_model_type_from_string name) as [model_type|e].
  - rewrite Hrun, Hcls. reflexivity.
  - injection Hrun as He Hst. subst e st'. rewrite Hcls. reflexivity.
Qed.

Lemma select_primary_missing st :
  exists st',
    select_primary w selection_init st = (Ok selection_init, st')
    /\ only_load_attempts st st'.
Proof.
  destruct (_get_primary_model_missing st) as (e & st' & Hrun & Hcls & Hquiet).
  exists st'. split; [|exact Hquiet].
  unfold select_primary. cbn [sel_model selection_init].
  unfold try_except. unfold bind at 1. rewrite Hrun, Hcls. reflexivity.
Qed.

Lemma select_fallback_missing st :
  exists st',
    select_fallback w selection_init st
    = (Ok (inr (no_models_text w
                  (exn_str (load_failure_without_llama (FALLBACK_MODEL w))))), st')
    /\ only_load_attempts st st'.
Proof.
  destruct (_get_fallback_model_missing st) as (st' & Hrun & Hquiet).
  exists st'. split; [|exact Hquiet].
  unfold select_fallback. cbn [sel_model selection_init].
  unfold try_except. unfold bind at 1. rewrite Hrun. reflexivity.
Qed.

End WithoutLlama.

(** X11: without llama-cpp-python, [generate_answer] raises nothing and
    returns, whatever its arguments and the environment, the text 'Error:
    No models available. Failed to load fallback model (<name>): <why>.
    Please configure at least one model path.', where <why> is the
    unknown-model message when FALLBACK_MODEL is not a known name and the
    installation hint otherwise.  It only enters [_load_model]: no model is
    constructed or called and the table of loaded models is unchanged. *)
Theorem generate_answer_without_llama
        (w : world) (prompt : string) (model_preference : option string)
        (use_bigger : bool) (st : pystate) :
  Llama_imported w = false ->
  exists st',
    generate_answer w prompt model_preference use_bigger st
    = (Ok (no_models_text w (exn_str (load_failure_without_llama (FALLBACK_MODEL w)))),
       st')
    /\ only_load_attempts st st'.
Proof.
  intros Hmissing.
  destruct (select_bigger_missing w Hmissing prompt use_bigger selection_init st)
    as (st1 & H1 & Hq1).
  destruct (select_preference_missing w Hmissing model_preference st1)
    as (st2 & H2 & Hq2).
  destruct (select_primary_missing w Hmissing st2) as (st3 & H3 & Hq3).
  destruct (select_fallback_missing w Hmissing st3) as (st4 & H4 & Hq4).
  exists st4. split.
  - unfold generate_answer. unfold bind at 1. unfold select_model.
    unfold bind at 1. rewrite H1.
    unfold bind at 1. rewrite H2.
    unfold bind at 1. rewrite H3.
    rewrite H4. reflexivity.
  - eauto using only_load_attempts_trans.
Qed.

Lemma generate_answer_without_llama_witness :
  exists st',
    generate_answer no_llama_world "Hello" (Some "phi3") true initial_state
    = (Ok (no_models_text no_llama_world
             (exn_str (load_failure_without_llama (FALLBACK_MODEL no_llama_world)))),
       st')
    /\ only_load_attempts initial_state st'.
Proof.
  apply (generate_answer_without_llama no_llama_world "Hello" (Some "phi3") true
           initial_state).
  reflexivity.
Defined.

Example no_llama_text :
  fst (generate_answer no_llama_world "Hello" None false initial_state)
  = Ok ("Error: No models available. Failed to load fallback model (tinyllama): "
        +:+ "`llama-cpp-python` is required. Install it with: "
        +:+ "`pip install llama-cpp-python`.. Please configure at least one model path.").
Proof. vm_compute. reflexivity. Qed.

(** ** The number of model calls *)

(** X12: the generation stage always returns a text, and to produce it
    calls a model at least once and at most three times: the first call is
    the one asked for, and every call is given the same prompt. *)
Theorem generation_calls_bounded
        (w : world) (model : llama_handle) (prompt model_name : string)
        (max_tokens : Z) (temperature : float64) (st : pystate) :
  exists out st' evs more,
    run_generation w model prompt model_name max_tokens temperature st = (Ok out, st')
    /\ trace st' = trace st ++ evs
    /\ llama_calls evs = EvLlamaCall model prompt max_tokens temperature :: more
    /\ (length more <= 2)%nat
    /\ Forall (calls_with_prompt prompt) more.
Proof.
  set (first := EvLlamaCall model prompt max_tokens temperature).
  set (retry := EvLlamaCall model prompt (Z.min 256 max_tokens) temperature).
  assert (Hretry : calls_with_prompt prompt retry) by (eexists _, _, _; reflexivity).
  destruct (Llama_call w (trace st) model prompt max_tokens temperature)
    as [response|e] eqn:Hcall.
  { (* the first call returns *)
    exists (match parts_of response with
            | [] => model_name +:+ " returned no output."
            | p :: _ => part_text p
            end), (logged st first), [first], [].
    split; [|split; [reflexivity|split; [reflexivity|split; [simpl; lia|constructor]]]].
    unfold run_generation, try_except. unfold bind at 1.
    rewrite call_model_eq, Hcall. destruct (parts_of response); reflexivity. }
  rewrite (run_generation_raised w model prompt model_name max_tokens temperature st e Hcall).
  fold first.
  destruct (is_class RuntimeError e).
  { eexists _, (logged st first), [first], [].
    split; [reflexivity|].
    split; [reflexivity|split; [reflexivity|split; [simpl; lia|constructor]]]. }
  destruct (mentions_overflow (exn_str e)) eqn:Hmsg.
  2:{ eexists _, (logged st first), [first], [].
      split; [unfold on_generation_error; rewrite Hmsg; reflexivity|].
      split; [reflexivity|split; [reflexivity|split; [simpl; lia|constructor]]]. }
  rewrite (on_generation_error_overflow w model prompt model_name max_tokens temperature
             e (logged st first) Hmsg).
  fold retry.
  destruct (Llama_call w (trace (logged st first)) model prompt
              (Z.min 256 max_tokens) temperature) as [response|e2].
  { eexists _, (logged (logged st first) retry), [first; retry], [retry].
    split; [reflexivity|].
    split; [cbn [logged trace]; rewrite <- app_assoc; reflexivity|].
    split; [reflexivity|]. split; [simpl; lia|]. constructor; [exact Hretry|constructor]. }
  rewrite after_failed_retry_eq.
  destruct (String.eqb model_name (description (MODEL_CONFIGS TINYLLAMA))).
  { eexists _, (logged (logged st first) retry), [first; retry], [retry].
    split; [reflexivity|].
    split; [cbn [logged trace]; rewrite <- app_assoc; reflexivity|].
    split; [reflexivity|]. split; [simpl; lia|]. constructor; [exact Hretry|constructor]. }
  destruct (_get_fallback_model_no_calls w (logged (logged st first) retry))
    as (loads & Hloads & Hnone).
  destruct (_get_fallback_model w (logged (logged st first) retry))
    as [[fallback_model|e3] st3].
  - cbn [snd] in Hloads. cbv zeta.
    set (third := EvLlamaCall fallback_model prompt
                    (cfg_default_max_tokens (MODEL_CONFIGS TINYLLAMA))
                    (cfg_default_temperature (MODEL_CONFIGS TINYLLAMA))).
    eexists _, (logged st3 third), ([first; retry] ++ loads ++ [third]), [retry; third].
    split; [reflexivity|].
    split.
    { cbn [logged trace]. rewrite Hloads. cbn [logged trace].
      rewrite <- !app_assoc. reflexivity. }
    split.
    { rewrite !llama_calls_app, Hnone. reflexivity. }
    split; [simpl; lia|].
    constructor; [exact Hretry|]. constructor; [|constructor].
    eexists _, _, _; reflexivity.
  - cbn [snd] in Hloads.
    eexists _, st3, ([first; retry] ++ loads), [retry].
    split; [reflexivity|].
    split.
    { rewrite Hloads. cbn [logged trace]. rewrite <- !app_assoc. reflexivity. }
    split.
    { rewrite llama_calls_app, Hnone. reflexivity. }
    split; [simpl; lia|]. constructor; [exact Hretry|constructor].
Qed.

(* ===================================================================== *)
(** * Further properties: llm/prompt.py, build_context                     *)
(* ===================================================================== *)

Lemma src_item_has_key src key :
  src_item src key
  = if has_key src key
    then Ok (match src !! key with Some v => v | None => None end)
    else Raise (Exn KeyError (quoted key)).
Proof. unfold src_item, has_key. destruct (src !! key); reflexivity. Qed.

Lemma render_hit_outcome max_chars h :
  if hit_renderable h
  then exists c, render_hit max_chars h = Ok c
  else exists e, render_hit max_chars h = Raise e
                 /\ (exn_cls e = KeyError \/ exn_cls e = AttributeError).
Proof.
  unfold hit_renderable, render_hit, hit_source.
  destruct (h !! "_source") as [[| s | x | src]|]; cbn [result_bind];
    try (eexists; split; [reflexivity | auto]).
  cbn [forallb required_source_keys]. cbv zeta.
  rewrite !src_item_has_key.
  destruct (has_key src "title"); cbn [andb result_bind];
    [|eexists; split; [reflexivity | auto]].
  destruct (has_key src "podcast_name"); cbn [andb result_bind];
    [|eexists; split; [reflexivity | auto]].
  destruct (has_key src "host"); cbn [andb result_bind];
    [|eexists; split; [reflexivity | auto]].
  destruct (has_key src "date"); cbn [andb result_bind];
    [|eexists; split; [reflexivity | auto]].
  destruct (has_key src "url"); cbn [andb result_bind];
    [|eexists; split; [reflexivity | auto]].
  eexists. reflexivity.
Qed.

Lemma render_hits_outcome max_chars hits :
  if forallb hit_renderable hits
  then exists cs, render_hits max_chars hits = Ok cs
  else exists e, render_hits max_chars hits = Raise e
                 /\ (exn_cls e = KeyError \/ exn_cls e = AttributeError).
Proof.
  induction hits as [|h hits IH]; [exists []; reflexivity|].
  cbn [forallb render_hits].
  pose proof (render_hit_outcome max_chars h) as Hh.
  destruct (hit_renderable h); cbn [andb].
  - destruct Hh as (c & ->). cbn [result_bind].
    destruct (forallb hit_renderable hits).
    + destruct IH as (cs & ->). eexists. reflexivity.
    + destruct IH as (e & -> & Hcls). exists e. split; [reflexivity | exact Hcls].
  - destruct Hh as (e & -> & Hcls). exists e. split; [reflexivity | exact Hcls].
Qed.

(** X13: [build_context] is all or nothing: it returns a context exactly
    when every hit has a dictionary under '_source' holding 'title',
    'podcast_name', 'host', 'date' and 'url' (the other fields may be
    missing); otherwise it raises a KeyError or an AttributeError and no
    partial context is returned. *)
Theorem build_context_all_or_nothing (w : world) (hits : list hit) :
  if forallb hit_renderable hits
  then exists context, build_context w hits = Ok context
  else exists e, build_context w hits = Raise e
                 /\ (exn_cls e = KeyError \/ exn_cls e = AttributeError).
Proof.
  unfold build_context.
  pose proof (render_hits_outcome (CONTEXT_CHUNK_MAX_CHARS w) hits) as H.
  destruct (forallb hit_renderable hits).
  - destruct H as (cs & ->). eexists. reflexivity.
  - destruct H as (e & -> & Hcls). exists e. split; [reflexivity | exact Hcls].
Qed.

Example build_context_missing_url :
  build_context default_world
    [example_hit "a" "Hello world." (F64 0); hit_without_url]
  = Raise (Exn KeyError "'url'").
Proof. vm_compute. reflexivity. Qed.

Lemma render_hits_app max_chars hits1 hits2 :
  render_hits max_chars (hits1 ++ hits2)
  = let? cs1 := render_hits max_chars hits1 in
    let? cs2 := render_hits max_chars hits2 in
    Ok (cs1 ++ cs2).
Proof.
  induction hits1 as [|h hits1 IH].
  - cbn [app render_hits result_bind].
    destruct (render_hits max_chars hits2); reflexivity.
  - cbn [app render_hits]. rewrite IH.
    destruct (render_hit max_chars h) as [c|e]; cbn [result_bind]; [|reflexivity].
    destruct (render_hits max_chars hits1) as [cs1|e]; cbn [result_bind]; [|reflexivity].
    destruct (render_hits max_chars hits2) as [cs2|e]; reflexivity.
Qed.

Lemma render_hits_length max_chars hits cs :
  render_hits max_chars hits = Ok cs -> length cs = length hits.
Proof.
  revert cs. induction hits as [|h hits IH]; intros cs H.
  - injection H as <-. reflexivity.
  - cbn [render_hits] in H.
    destruct (render_hit max_chars h) as [c|e]; cbn [result_bind] in H; [|discriminate H].
    destruct (render_hits max_chars hits) as [cs'|e]; cbn [result_bind] in H;
      [|discriminate H].
    injection H as <-. cbn [length]. rewrite (IH cs' eq_refl). reflexivity.
Qed.

Lemma join_app sep xs ys :
  xs <> [] -> ys <> [] ->
  Py.join sep (xs ++ ys) = Py.join sep xs +:+ sep +:+ Py.join sep ys.
Proof.
  intros Hxs Hys. induction xs as [|x xs IH]; [contradiction|].
  destruct xs as [|x' xs].
  - destruct ys as [|y ys]; [contradiction|]. reflexivity.
  - change ((x :: x' :: xs) ++ ys) with (x :: (x' :: xs) ++ ys).
    change ((x' :: xs) ++ ys) with (x' :: xs ++ ys) at 1.
    rewrite join_cons2.
    change (x' :: xs ++ ys) with ((x' :: xs) ++ ys).
    rewrite IH by discriminate.
    rewrite join_cons2, !str_app_assoc. reflexivity.
Qed.

(** X14: the context of a list of hits is the contexts of its parts, in
    order, separated by one blank line: for non-empty [hits1] and [hits2]
    that both render, [build_context (hits1 ++ hits2)] is the context of
    [hits1], two newlines, and the context of [hits2]. *)
Theorem build_context_app (w : world) (hits1 hits2 : list hit) (c1 c2 : string) :
  hits1 <> [] -> hits2 <> [] ->
  build_context w hits1 = Ok c1 ->
  build_context w hits2 = Ok c2 ->
  build_context w (hits1 ++ hits2) = Ok (c1 +:+ nl +:+ nl +:+ c2).
Proof.
  unfold build_context. intros Hne1 Hne2 H1 H2.
  rewrite render_hits_app.
  destruct (render_hits (CONTEXT_CHUNK_MAX_CHARS w) hits1) as [cs1|e] eqn:Hr1;
    cbn [result_bind] in *; [|discriminate H1].
  destruct (render_hits (CONTEXT_CHUNK_MAX_CHARS w) hits2) as [cs2|e] eqn:Hr2;
    cbn [result_bind] in *; [|discriminate H2].
  injection H1 as <-. injection H2 as <-.
  apply render_hits_length in Hr1, Hr2.
  rewrite join_app.
  - rewrite str_app_assoc. reflexivity.
  - intros ->. destruct hits1; [contradiction | discriminate Hr1].
  - intros ->. destruct hits2; [contradiction | discriminate Hr2].
Qed.

Lemma build_context_app_witness :
  build_context default_world
    ([example_hit "a" "First." (F64 0)] ++ [example_hit "b" "Second." (F64 0)])
  = Ok (("EPISODE: Episode 1" +:+ nl +:+ "PODCAST: The Show - Host: Ann" +:+ nl
         +:+ "DATE: 2024-01-01" +:+ nl +:+ "URL: http://example.org/1" +:+ nl
         +:+ "TRANSCRIPT:" +:+ nl +:+ "First." +:+ nl +:+ "---")
        +:+ nl +:+ nl
        +:+ ("EPISODE: Episode 1" +:+ nl +:+ "PODCAST: The Show - Host: Ann" +:+ nl
             +:+ "DATE: 2024-01-01" +:+ nl +:+ "URL: http://example.org/1" +:+ nl
             +:+ "TRANSCRIPT:" +:+ nl +:+ "Second." +:+ nl +:+ "---")).
Proof.
  apply (build_context_app default_world
           [example_hit "a" "First." (F64 0)] [example_hit "b" "Second." (F64 0)]).
  - discriminate.
  - discriminate.
  - vm_compute. reflexivity.
  - vm_compute. reflexivity.
Defined.

(* ===================================================================== *)
(** * Further properties: rerank/cross_encoder.py                          *)
(* ===================================================================== *)

Lemma list_prefix_nil {A} k : list_prefix k (@nil A) = [].
Proof. unfold list_prefix. apply take_nil. Qed.

Lemma rerank_results_top_k w query hits k model_name st :
  rerank_results w query hits (Some k) model_name st
  = (match fst (rerank_results w query hits None model_name st) with
     | Ok all => Ok (list_prefix k all)
     | Raise e => Raise e
     end,
     snd (rerank_results w query hits None model_name st)).
Proof.
  unfold rerank_results. destruct hits as [|l hits].
  { unfold ret. cbn [fst snd]. rewrite list_prefix_nil. reflexivity. }
  unfold bind, get_heap, lift_result, get_trace, emit, ret.
  destruct (build_pairs (heap st) query (l :: hits)) as [pairs|e]; [|reflexivity].
  destruct (get_rerank_model w model_name st) as [[model|e] st1]; [|reflexivity].
  destruct (CrossEncoder_predict w (trace st1) model pairs) as [scores|e]; [|reflexivity].
  destruct (attach_scores 0 (l :: hits) scores _) as [[[]|e] st2]; reflexivity.
Qed.

Lemma rerank_results_all w query hits model_name st all st' :
  rerank_results w query hits None model_name st = (Ok all, st') ->
  all = py_sorted_reverse w (rerank_key (heap st')) hits.
Proof.
  unfold rerank_results. destruct hits as [|l hits]; [intros [= <- <-]; reflexivity|].
  unfold bind, get_heap, lift_result, get_trace, emit, ret.
  destruct (build_pairs (heap st) query (l :: hits)) as [pairs|e]; [|discriminate].
  destruct (get_rerank_model w model_name st) as [[model|e] st1]; [|discriminate].
  destruct (CrossEncoder_predict w (trace st1) model pairs) as [scores|e]; [|discriminate].
  destruct (attach_scores 0 (l :: hits) scores _) as [[[]|e] st2]; [|discriminate].
  intros [= <- <-]. reflexivity.
Qed.

(** X15: [top_k] only cuts the result: the call with [top_k] scores and
    sorts every hit as the call without it does, ends in the same state,
    and returns the first [top_k] hits of that call's result; for a
    non-negative [top_k] these are [min(top_k, len(hits))] hits. *)
Theorem rerank_top_k_truncates (w : world) (query : string) (hits : list nat)
        (k : Z) (model_name : option string) (st st' : pystate) (all : list nat) :
  rerank_results w query hits None model_name st = (Ok all, st') ->
  rerank_results w query hits (Some k) model_name st = (Ok (list_prefix k all), st')
  /\ (0 <= k ->
      Z.of_nat (length (list_prefix k all)) = Z.min k (Z.of_nat (length hits))).
Proof.
  intros Hall. split.
  - rewrite rerank_results_top_k, Hall. reflexivity.
  - intros Hk.
    assert (Hlen : length all = length hits).
    { rewrite (rerank_results_all _ _ _ _ _ _ _ Hall).
      apply Permutation_length, py_sorted_reverse_perm. }
    unfold list_prefix. rewrite length_take, Hlen.
    destruct (k <? 0) eqn:Hneg; [apply Z.ltb_lt in Hneg; lia|]. lia.
Qed.

Lemma rerank_top_k_truncates_witness :
  rerank_results rerank_world "q" [0; 1; 2]%nat (Some 2) None three_hits_state
  = (Ok (list_prefix 2 [1; 0; 2]%nat),
     snd (rerank_results rerank_world "q" [0; 1; 2]%nat None None three_hits_state))
  /\ (0 <= 2 ->
      Z.of_nat (length (list_prefix 2 [1; 0; 2]%nat))
      = Z.min 2 (Z.of_nat (length [0; 1; 2]%nat))).
Proof.
  apply (rerank_top_k_truncates rerank_world "q" [0; 1; 2]%nat 2 None three_hits_state
           (snd (rerank_results rerank_world "q" [0; 1; 2]%nat None None
                   three_hits_state))
           [1; 0; 2]%nat).
  vm_compute. reflexivity.
Defined.

(** X16: the cross-encoder is a singleton named by its first load: once
    [get_rerank_model] has returned a model, every later call returns that
    model, whatever [model_name] it is given, without constructing
    anything. *)
Theorem rerank_model_first_load_wins (w w' : world) (model_name model_name' : option string)
        (st st1 : pystate) (model : string) :
  get_rerank_model w model_name st = (Ok model, st1) ->
  get_rerank_model w' model_name' st1 = (Ok model, st1).
Proof.
  intros Hload.
  assert (Hmemo : rerank_model st1 = Some model).
  { revert Hload.
    unfold get_rerank_model, bind, get_rerank_memo, get_trace, emit, raise, ret,
      set_rerank_model.
    destruct (rerank_model st) as [memo|] eqn:Hst; [intros [= <- <-]; exact Hst|].
    destruct (negb (CrossEncoder_imported w)); [discriminate|].
    cbv beta iota zeta.
    destruct (CrossEncoder_init w _ _); [discriminate|].
    intros [= <- <-]. reflexivity. }
  unfold get_rerank_model, bind, get_rerank_memo. rewrite Hmemo. reflexivity.
Qed.

Lemma rerank_model_first_load_wins_witness :
  get_rerank_model rerank_world (Some "cross-encoder/other")
    (snd (get_rerank_model rerank_world None initial_state))
  = (Ok DEFAULT_RERANK_MODEL, snd (get_rerank_model rerank_world None initial_state)).
Proof.
  apply (rerank_model_first_load_wins rerank_world rerank_world None
           (Some "cross-encoder/other") initial_state).
  reflexivity.
Defined.

Lemma attach_scores_short scores hits : forall i st,
  (i <= length scores)%nat ->
  (length scores < i + length hits)%nat ->
  exists e st',
    attach_scores i hits scores st = (Raise e, st')
    /\ exn_cls e = IndexError
    /\ (forall l key, key <> "_rerank_score" ->
                      deref (heap st') l !! key = deref (heap st) l !! key)
    /\ trace st' = trace st.
Proof.
  induction hits as [|l hits IH]; intros i st Hi Hlen.
  - simpl in Hlen. lia.
  - cbn [attach_scores]. destruct (scores !! i) as [x|] eqn:Hx.
    + apply lookup_lt_Some in Hx.
      set (st1 := snd (set_rerank_score l x st)).
      destruct (IH (S i) st1 ltac:(lia) ltac:(simpl in Hlen; lia))
        as (e & st' & Hrun & Hcls & Hframe & Htrace).
      exists e, st'. split; [|split; [exact Hcls|split]].
      * rewrite (bind_ok (set_rerank_score l x) _ st tt st1 eq_refl). exact Hrun.
      * intros l' key Hkey. rewrite (Hframe l' key Hkey).
        unfold st1. simpl. destruct (decide (l = l')) as [<-|Hne].
        -- rewrite deref_insert_eq. apply lookup_insert_ne. congruence.
        -- rewrite deref_insert_ne by exact Hne. reflexivity.
      * rewrite Htrace. reflexivity.
    + eexists _, st. split; [reflexivity|]. split; [reflexivity|].
      split; reflexivity.
Qed.

(** X17: when the cross-encoder returns fewer scores than there are hits,
    [rerank_results] raises an IndexError instead of returning a ranking;
    the scores written before the failure stay on the hits, and no other
    field of any hit is changed. *)
Theorem rerank_too_few_scores (w : world) (query : string) (hits : list nat)
        (top_k : option Z) (model_name : option string) (st st1 : pystate)
        (pairs : list (string * option string)) (model : string)
        (scores : list float64) :
  build_pairs (heap st) query hits = Ok pairs ->
  get_rerank_model w model_name st = (Ok model, st1) ->
  CrossEncoder_predict w (trace st1) model pairs = Ok scores ->
  (length scores < length hits)%nat ->
  exists e st',
    rerank_results w query hits top_k model_name st = (Raise e, st')
    /\ exn_cls e = IndexError
    /\ (forall l key, key <> "_rerank_score" ->
                      deref (heap st') l !! key = deref (heap st) l !! key)
    /\ (forall l x, hits !! 0%nat = Some l -> scores !! 0%nat = Some x ->
                    ~ In l (tl hits) ->
                    deref (heap st') l !! "_rerank_score" = Some (HFloat x)).
Proof.
  intros Hpairs Hmodel Hpredict Hlen.
  pose proof (get_rerank_model_heap w model_name st) as Hheap1.
  rewrite Hmodel in Hheap1. simpl in Hheap1.
  set (st2 := logged st1 (EvPredict model pairs)).
  assert (Hheap2 : heap st2 = heap st) by exact Hheap1.
  assert (Hrun : forall e st',
             attach_scores 0 hits scores st2 = (Raise e, st') ->
             rerank_results w query hits top_k model_name st = (Raise e, st')).
  { intros e st' Hattach.
    unfold rerank_results. destruct hits as [|l0 hits0]; [simpl in Hlen; lia|].
    rewrite (bind_ok get_heap _ st (heap st) st eq_refl).
    rewrite Hpairs.
    rewrite (bind_ok (lift_result (Ok pairs)) _ st pairs st eq_refl).
    rewrite (bind_ok _ _ st model st1 Hmodel).
    rewrite (bind_ok get_trace _ st1 (trace st1) st1 eq_refl).
    rewrite (bind_ok (emit (EvPredict model pairs)) _ st1 tt st2 eq_refl).
    rewrite Hpredict.
    rewrite (bind_ok (lift_result (Ok scores)) _ st2 scores st2 eq_refl).
    unfold bind at 1. rewrite Hattach. reflexivity. }
  destruct (attach_scores_short scores hits 0 st2 ltac:(lia) ltac:(simpl; lia))
    as (e & st' & Hattach & Hcls & Hframe & _).
  exists e, st'. split; [exact (Hrun e st' Hattach)|]. split; [exact Hcls|].
  split; [rewrite <- Hheap2; exact Hframe|].
  intros l x Hl Hx Hnot.
  destruct hits as [|l0 hits0]; [discriminate Hl|].
  injection Hl as ->. cbn [tl] in Hnot.
  cbn [attach_scores] in Hattach. rewrite Hx in Hattach.
  set (st3 := snd (set_rerank_score l x st2)) in *.
  rewrite (bind_ok (set_rerank_score l x) _ st2 tt st3 eq_refl) in Hattach.
  destruct (le_lt_dec (1 + length hits0) (length scores)) as [Hle|Hgt].
  { simpl in Hlen. lia. }
  assert (Hrest : forall hits i st4 e' st5,
             attach_scores i hits scores st4 = (Raise e', st5) ->
             ~ In l hits -> deref (heap st5) l = deref (heap st4) l).
  { clear. induction hits as [|l1 hits IH]; intros i st4 e' st5 Hrun Hnot.
    - discriminate Hrun.
    - cbn [attach_scores] in Hrun. destruct (scores !! i) as [y|].
      + set (st6 := snd (set_rerank_score l1 y st4)) in *.
        rewrite (bind_ok (set_rerank_score l1 y) _ st4 tt st6 eq_refl) in Hrun.
        rewrite (IH _ _ _ _ Hrun ltac:(intros H; apply Hnot; now right)).
        unfold st6. simpl. apply deref_insert_ne.
        intros ->. apply Hnot. now left.
      + injection Hrun as _ <-. reflexivity. }
  rewrite (Hrest hits0 1%nat st3 e st' Hattach Hnot).
  unfold st3. simpl. rewrite deref_insert_eq. apply lookup_insert_eq.
Qed.

Lemma rerank_too_few_scores_witness :
  exists e st',
    rerank_results one_score_world "q" [0; 1; 2]%nat None None three_hits_state
    = (Raise e, st')
    /\ exn_cls e = IndexError
    /\ (forall l key, key <> "_rerank_score" ->
                      deref (heap st') l !! key = deref (heap three_hits_state) l !! key)
    /\ (forall l x, [0; 1; 2]%nat !! 0%nat = Some l ->
                    [F64 4607182418800017408] !! 0%nat = Some x ->
                    ~ In l (tl [0; 1; 2]%nat) ->
                    deref (heap st') l !! "_rerank_score" = Some (HFloat x)).
Proof.
  apply (rerank_too_few_scores one_score_world "q" [0; 1; 2]%nat None None
           three_hits_state
           (snd (get_rerank_model one_score_world None three_hits_state))
           [("q", Some "alpha"); ("q", Some "beta"); ("q", Some "gamma")]
           DEFAULT_RERANK_MODEL [F64 4607182418800017408]).
  - vm_compute. reflexivity.
  - reflexivity.
  - reflexivity.
  - simpl. lia.
Defined.

(* ===================================================================== *)
(** * Further properties: ingest/embed.py, index/hybrid.py, rag.py         *)
(* ===================================================================== *)

Lemma get_embedding_model_loaded w st st1 :
  get_embedding_model w st = (Ok tt, st1) -> embedding_model st1 = true.
Proof.
  unfold get_embedding_model, bind, get_embedding_memo, get_trace, emit, raise, ret,
    set_embedding_model.
  destruct (embedding_model st) eqn:Hst; [intros [= <-]; exact Hst|].
  destruct (negb (SentenceTransformer_imported w)); [discriminate|].
  cbv beta iota.
  destruct (SentenceTransformer_init w _); [discriminate|].
  intros [= <-]. reflexivity.
Qed.

(** X18: the embedding model is loaded once: after an [embed_text] that
    returned a vector, a later [embed_text] constructs nothing (its only
    event is the call of [encode]) and returns or raises what [encode]
    does, even if sentence-transformers could not be imported any more. *)
Theorem embed_text_model_loaded_once (w w' : world) (text text' : string)
        (st st1 : pystate) (v : list float64) :
  embed_text w text st = (Ok v, st1) ->
  embed_text w' text' st1
  = (SentenceTransformer_encode w' (trace st1) text', logged st1 (EvEncode text')).
Proof.
  intros Hfirst.
  assert (Hmemo : embedding_model st1 = true).
  { revert Hfirst. unfold embed_text. unfold bind at 1.
    destruct (get_embedding_model w st) as [[[]|e] st0] eqn:Hload; [|discriminate].
    apply get_embedding_model_loaded in Hload.
    unfold bind, get_trace, emit, lift_result.
    destruct (SentenceTransformer_encode w (trace st0) text); [|discriminate].
    intros [= _ <-]. exact Hload. }
  unfold embed_text, get_embedding_model, bind, get_embedding_memo.
  rewrite Hmemo. reflexivity.
Qed.

Lemma embed_text_model_loaded_once_witness :
  embed_text no_llama_world "again"
    (snd (embed_text default_world "hello" initial_state))
  = (SentenceTransformer_encode no_llama_world
       (trace (snd (embed_text default_world "hello" initial_state))) "again",
     logged (snd (embed_text default_world "hello" initial_state)) (EvEncode "again")).
Proof.
  apply (embed_text_model_loaded_once default_world no_llama_world "hello" "again"
           initial_state (snd (embed_text default_world "hello" initial_state))
           [F64 0]).
  reflexivity.
Defined.

Lemma project_hit_keys (h : hit) (key : string) :
  is_Some (project_hit h !! key) <-> In key hit_keys.
Proof.
  unfold project_hit, hit_keys. split.
  - intros Hsome.
    destruct (decide (key = "_id")) as [->|H1]; [left; reflexivity|].
    destruct (decide (key = "_score")) as [->|H2]; [right; left; reflexivity|].
    destruct (decide (key = "_source")) as [->|H3]; [right; right; left; reflexivity|].
    rewrite !lookup_insert_ne in Hsome by congruence.
    rewrite lookup_empty in Hsome. destruct Hsome as [x Hx]. discriminate Hx.
  - intros [<- | [<- | [<- | []]]].
    + rewrite lookup_insert_eq. eexists; reflexivity.
    + rewrite lookup_insert_ne by discriminate. rewrite lookup_insert_eq.
      eexists; reflexivity.
    + rewrite !lookup_insert_ne by discriminate. rewrite lookup_insert_eq.
      eexists; reflexivity.
Qed.

(** X19: every hit [hybrid_search] returns is a dictionary with exactly
    the keys '_id', '_score' and '_source', whatever the index sent: other
    keys of the response are dropped and a missing one is filled in.  The
    call adds one search to the trace and changes nothing else. *)
Theorem hybrid_search_hit_shape (w : world) (client : opensearch_client)
        (user_query : string) (query_embedding : list float64) (size : Z)
        (podcast_name : option string) (topics : option (list string))
        (st st' : pystate) (hits : list hit) :
  hybrid_search w client user_query query_embedding size podcast_name topics st
  = (Ok hits, st') ->
  Forall (fun h => forall key, is_Some (h !! key) <-> In key hit_keys) hits
  /\ st' = logged st (EvSearch (PODCAST_INDEX w)
                        (hybrid_search_body user_query query_embedding size
                           podcast_name topics)).
Proof.
  unfold hybrid_search. cbv zeta.
  unfold bind, get_trace, emit, lift_result, ret.
  destruct (client_search client (trace st) (PODCAST_INDEX w) _) as [response|e];
    [|discriminate].
  intros [= <- <-]. split; [|reflexivity].
  apply List.Forall_forall. intros h Hin.
  apply in_map_iff in Hin as (h0 & <- & _).
  intros key. apply project_hit_keys.
Qed.

Lemma hybrid_search_hit_shape_witness :
  Forall (fun h => forall key, is_Some (h !! key) <-> In key hit_keys)
    [project_hit (<["_index" := HStr "podcast-transcripts"]>
                    (example_hit "a" "Hello world." (F64 0)))]
  /\ logged initial_state
       (EvSearch (PODCAST_INDEX default_world)
          (hybrid_search_body "hello" [F64 0] 5 None None))
     = logged initial_state
         (EvSearch (PODCAST_INDEX default_world)
            (hybrid_search_body "hello" [F64 0] 5 None None)).
Proof.
  apply (hybrid_search_hit_shape default_world one_hit_client "hello" [F64 0] 5 None None
           initial_state).
  reflexivity.
Defined.

(** X20: a hit that [build_context] cannot render is fatal to the whole
    question: when the search returns a hit without a dictionary '_source'
    holding every required key, [ask_podcast_question] raises a KeyError or
    an AttributeError to its caller (it is not turned into an answer text),
    and does so before the generation stage: no model is loaded,
    constructed or called. *)
Theorem ask_question_malformed_hit (w : world) (client : opensearch_client)
        (user_query : string) (podcast_name : option string)
        (topics : option (list string)) (top_k : Z)
        (st st1 st2 : pystate) (query_emb : list float64) (hits : list hit) :
  embed_text w user_query st = (Ok query_emb, st1) ->
  search_transcripts w client user_query query_emb top_k podcast_name topics st1
  = (Ok hits, st2) ->
  forallb hit_renderable hits = false ->
  exists e,
    ask_podcast_question w client user_query podcast_name topics top_k st
    = (Raise e, st2)
    /\ (exn_cls e = KeyError \/ exn_cls e = AttributeError)
    /\ loaded_models st2 = loaded_models st
    /\ exists evs, trace st2 = trace st ++ evs /\ generation_events evs = [].
Proof.
  intros Hembed Hsearch Hbad.
  pose proof (render_hits_outcome (CONTEXT_CHUNK_MAX_CHARS w) hits) as Hctx.
  rewrite Hbad in Hctx. destruct Hctx as (e & Hraise & Hcls).
  exists e. split; [|split; [exact Hcls|split]].
  - unfold ask_podcast_question.
    rewrite (bind_ok _ _ st query_emb st1 Hembed).
    rewrite (bind_ok _ _ st1 hits st2 Hsearch).
    destruct hits as [|h hits]; [discriminate Hbad|].
    unfold bind, lift_result, build_context. rewrite Hraise. reflexivity.
  - pose proof (embed_text_loaded_models w user_query st) as H1.
    pose proof (hybrid_search_loaded_models w client user_query query_emb top_k
                  podcast_name topics st1) as H2.
    unfold search_transcripts in Hsearch.
    rewrite Hembed in H1. rewrite Hsearch in H2. simpl in H1, H2. congruence.
  - destruct (embed_text_no_generation w user_query st) as (evs1 & Ht1 & Hg1).
    destruct (hybrid_search_no_generation w client user_query query_emb top_k
                podcast_name topics st1) as (evs2 & Ht2 & Hg2).
    unfold search_transcripts in Hsearch.
    rewrite Hembed in Ht1. rewrite Hsearch in Ht2. simpl in Ht1, Ht2.
    exists (evs1 ++ evs2). split.
    + rewrite Ht2, Ht1, <- app_assoc. reflexivity.
    + apply no_generation_app; assumption.
Qed.

Lemma ask_question_malformed_hit_witness :
  exists e,
    ask_podcast_question default_world malformed_hit_client "What is said?" None None 5
      initial_state
    = (Raise e,
       snd (search_transcripts default_world malformed_hit_client "What is said?"
              [F64 0] 5 None None
              (snd (embed_text default_world "What is said?" initial_state))))
    /\ (exn_cls e = KeyError \/ exn_cls e = AttributeError)
    /\ loaded_models
         (snd (search_transcripts default_world malformed_hit_client "What is said?"
                 [F64 0] 5 None None
                 (snd (embed_text default_world "What is said?" initial_state))))
       = loaded_models initial_state
    /\ exists evs,
         trace (snd (search_transcripts default_world malformed_hit_client
                       "What is said?" [F64 0] 5 None None
                       (snd (embed_text default_world "What is said?" initial_state))))
         = trace initial_state ++ evs
         /\ generation_events evs = [].
Proof.
  apply (ask_question_malformed_hit default_world malformed_hit_client "What is said?"
           None None 5 initial_state
           (snd (embed_text default_world "What is said?" initial_state))
           (snd (search_transcripts default_world malformed_hit_client "What is said?"
                   [F64 0] 5 None None
                   (snd (embed_text default_world "What is said?" initial_state))))
           [F64 0] [project_hit hit_without_url]).
  - reflexivity.
  - reflexivity.
  - vm_compute. reflexivity.
Defined.

(* ===================================================================== *)
(** * Further properties: rag.py, ingest_podcast_episode                   *)
(* ===================================================================== *)

Lemma str_of_nat_inj a b : str_of_nat a = str_of_nat b -> a = b.
Proof.
  unfold str_of_nat. intros H.
  apply (f_equal DecimalString.NilEmpty.uint_of_string) in H.
  rewrite !DecimalString.NilEmpty.usu in H. injection H as H.
  apply (f_equal Nat.of_uint) in H.
  rewrite !DecimalNat.Unsigned.of_to in H. exact H.
Qed.

Lemma str_app_inv_l s a b : s +:+ a = s +:+ b -> a = b.
Proof.
  induction s as [|c s IH]; [intros H; exact H|].
  rewrite !str_app_cons. intros [= H]. exact (IH H).
Qed.

Lemma chunk_id_of_inj episode i j :
  chunk_id_of episode i = chunk_id_of episode j -> i = j.
Proof.
  unfold chunk_id_of. intros H.
  apply str_app_inv_l, str_app_inv_l in H. exact (str_of_nat_inj _ _ H).
Qed.

Lemma chunk_ids_distinct episode l :
  List.NoDup l -> List.NoDup (map (chunk_id_of episode) l).
Proof.
  induction 1 as [|i l Hnot Hl IH]; [constructor|].
  cbn [map]. constructor; [|exact IH].
  intros Hin. apply in_map_iff in Hin as (j & Hj & Hin).
  apply chunk_id_of_inj in Hj. subst j. exact (Hnot Hin).
Qed.

(** What the loop adds to the calls made so far: one call per chunk, in
    order, for the chunks up to the one at which it stopped. *)
Lemma ingest_chunks_calls w client episode chunks : forall calls st,
  exists new,
    snd (fst (ingest_chunks w client episode (title episode)
                (guest_or (guest episode)
                   (snd (extract_guest_from_title (title episode))))
                chunks calls st))
    = calls ++ new
    /\ Forall2 (call_for w episode) (take (length new) chunks) new
    /\ (length new <= length chunks)%nat
    /\ (fst (fst (ingest_chunks w client episode (title episode)
                    (guest_or (guest episode)
                       (snd (extract_guest_from_title (title episode))))
                    chunks calls st)) = Ok tt ->
        length new = length chunks).
Proof.
  induction chunks as [|c chunks IH]; intros calls st.
  - exists []. cbn. rewrite app_nil_r. repeat split; constructor.
  - cbn [ingest_chunks].
    destruct (embed_text w (chunk_text c) st) as [[emb|e] st1].
    + cbv zeta.
      match goal with
      | |- context [client_index client (trace st1) calls ?call] =>
          set (this := call)
      end.
      assert (Hthis : call_for w episode c this).
      { unfold call_for, this, chunk_id_of. cbn. repeat split. }
      destruct (client_index client (trace st1) calls this) as [e|].
      * exists [this]. cbn [fst snd length take]. rewrite take_0.
        split; [reflexivity|]. split; [repeat constructor; exact Hthis|].
        split; [lia | discriminate].
      * destruct (IH (calls ++ [this]) st1) as (new & Hcalls & Hfor & Hlen & Hok).
        exists (this :: new). rewrite Hcalls, <- app_assoc.
        split; [reflexivity|]. cbn [length take].
        split; [constructor; assumption|].
        split; [lia|]. intros H. rewrite (Hok H). reflexivity.
    + exists []. cbn. rewrite app_nil_r.
      split; [reflexivity|]. split; [constructor|]. split; [lia | discriminate].
Qed.

Lemma ingest_podcast_episode_eq w client episode st :
  ingest_podcast_episode w client episode st
  = ingest_chunks w client episode (title episode)
      (guest_or (guest episode) (snd (extract_guest_from_title (title episode))))
      (chunk_by_semantic_windows (transcript episode) default_max_tokens default_overlap)
      [] st.
Proof.
  unfold ingest_podcast_episode.
  pose proof (extract_guest_keeps_title (title episode)) as Htitle.
  destruct (extract_guest_from_title (title episode)) as [title' extracted_guest].
  cbn [fst snd] in *. rewrite Htitle. reflexivity.
Qed.

Lemma call_ids_of_chunks w episode chunks calls :
  Forall2 (call_for w episode) chunks calls ->
  map call_id calls = map (chunk_id_of episode) (map paragraph_index chunks).
Proof.
  induction 1 as [|c call chunks calls Hfor _ IH]; [reflexivity|].
  cbn [map]. rewrite IH. destruct Hfor as (_ & -> & _). reflexivity.
Qed.

(** X21: the documents of one episode never collide: whatever the outcome
    of [ingest_podcast_episode], the identifiers of the index calls it has
    made are '<episode_id>_chunk_0', '<episode_id>_chunk_1', ... in this
    order, hence pairwise distinct, and there are at most as many calls as
    the transcript has chunks. *)
Theorem ingest_chunk_ids_distinct (w : world) (client : index_client)
        (episode : PodcastEpisode) (st : pystate) :
  let calls := snd (fst (ingest_podcast_episode w client episode st)) in
  map call_id calls = map (chunk_id_of episode) (seq 0 (length calls))
  /\ List.NoDup (map call_id calls)
  /\ (length calls
      <= length (chunk_by_semantic_windows (transcript episode)
                   default_max_tokens default_overlap))%nat.
Proof.
  cbv zeta. rewrite ingest_podcast_episode_eq.
  set (chunks := chunk_by_semantic_windows (transcript episode)
                   default_max_tokens default_overlap).
  destruct (ingest_chunks_calls w client episode chunks [] st)
    as (new & Hcalls & Hfor & Hlen & _).
  rewrite Hcalls. cbn [app].
  assert (Hids : map call_id new = map (chunk_id_of episode) (seq 0 (length new))).
  { rewrite (call_ids_of_chunks _ _ _ _ Hfor).
    f_equal. unfold chunks, chunk_by_semantic_windows.
    rewrite <- List.firstn_map.
    rewrite enumerate_chunks_index.
    rewrite take_seq. f_equal.
    unfold chunks, chunk_by_semantic_windows in Hlen.
    rewrite enumerate_chunks_length in Hlen. lia. }
  split; [exact Hids|]. split; [|exact Hlen].
  rewrite Hids. apply chunk_ids_distinct, List.seq_NoDup.
Qed.

(** X22: an ingestion that returns normally has sent exactly one document
    per chunk of the transcript, in chunk order, to the configured index,
    under the chunk's identifier; the document carries the text and the
    position of its chunk and the episode's metadata, the title unchanged;
    its guest is the episode's own guest when there is one and the guest
    read from the title otherwise. *)
Theorem ingest_one_document_per_chunk (w : world) (client : index_client)
        (episode : PodcastEpisode) (st st' : pystate) (calls : list index_call) :
  ingest_podcast_episode w client episode st = (Ok tt, calls, st') ->
  Forall2 (call_for w episode)
    (chunk_by_semantic_windows (transcript episode) default_max_tokens default_overlap)
    calls.
Proof.
  rewrite ingest_podcast_episode_eq.
  set (chunks := chunk_by_semantic_windows (transcript episode)
                   default_max_tokens default_overlap).
  intros Hrun.
  destruct (ingest_chunks_calls w client episode chunks [] st)
    as (new & Hcalls & Hfor & _ & Hok).
  rewrite Hrun in Hcalls, Hok. cbn [fst snd app] in Hcalls, Hok. subst new.
  rewrite (Hok eq_refl), firstn_all in Hfor. exact Hfor.
Qed.

Lemma ingest_one_document_per_chunk_witness :
  Forall2 (call_for default_world example_episode)
    (chunk_by_semantic_windows (transcript example_episode)
       default_max_tokens default_overlap)
    (snd (fst (ingest_podcast_episode default_world accepting_index example_episode
                 initial_state))).
Proof.
  apply (ingest_one_document_per_chunk default_world accepting_index example_episode
           initial_state
           (snd (ingest_podcast_episode default_world accepting_index example_episode
                   initial_state))).
  vm_compute. reflexivity.
Defined.

Example ingest_example_guest :
  map (fun call => (call_id call, doc_guest (call_body call)))
    (snd (fst (ingest_podcast_episode default_world accepting_index example_episode
                 initial_state)))
  = [("ep1_chunk_0", Some "Jane Doe")].
Proof. vm_compute. reflexivity. Qed.

(* ===================================================================== *)
(** * Further properties: ingest/clean.py                                  *)
(* ===================================================================== *)

Lemma chars_of_chars l : Py.chars (Py.of_chars l) = l.
Proof. apply list_ascii_of_string_of_list_ascii. Qed.

Lemma of_chars_chars s : Py.of_chars (Py.chars s) = s.
Proof. apply string_of_list_ascii_of_string. Qed.

Lemma split_go_words s : forall cur,
  forallb (fun c => negb (Py.is_space c)) cur = true ->
  Forall is_word_of_split (Py.split_go cur s).
Proof.
  assert (Hword : forall cur,
             cur <> [] -> forallb (fun c => negb (Py.is_space c)) cur = true ->
             is_word_of_split (Py.of_chars (rev cur))).
  { intros cur Hne Hcur. unfold is_word_of_split. rewrite chars_of_chars. split.
    - intros H. apply (f_equal (@length ascii)) in H.
      rewrite length_rev in H. destruct cur; [contradiction | discriminate H].
    - rewrite forallb_forall in Hcur |- *. intros c Hc. apply Hcur.
      apply in_rev. exact Hc. }
  induction s as [|c s IH]; intros cur Hcur; cbn [Py.split_go].
  - destruct cur as [|a cur]; [constructor|].
    constructor; [|constructor]. apply Hword; [discriminate | exact Hcur].
  - destruct (Py.is_space c) eqn:Hc.
    + destruct cur as [|a cur]; [apply IH; reflexivity|].
      constructor; [apply Hword; [discriminate | exact Hcur] | apply IH; reflexivity].
    + apply IH. cbn [forallb]. rewrite Hc, Hcur. reflexivity.
Qed.

Lemma split_go_read_word word : forall cur rest,
  forallb (fun c => negb (Py.is_space c)) (Py.chars word) = true ->
  Py.split_go cur (word +:+ rest) = Py.split_go (rev (Py.chars word) ++ cur) rest.
Proof.
  induction word as [|c word IH]; intros cur rest Hword; [reflexivity|].
  rewrite str_app_cons. cbn [Py.split_go].
  change (Py.chars (String c word)) with (c :: Py.chars word) in *.
  cbn [forallb] in Hword. apply andb_true_iff in Hword as [Hc Hword].
  apply negb_true_iff in Hc. rewrite Hc.
  rewrite (IH (c :: cur) rest Hword). cbn [rev]. rewrite <- app_assoc. reflexivity.
Qed.

Lemma split_join_words words :
  Forall is_word_of_split words -> Py.split (Py.join " " words) = words.
Proof.
  unfold Py.split.
  induction 1 as [|word words [Hne Hword] Hrest IH]; [reflexivity|].
  assert (Hcur : rev (Py.chars word) <> []).
  { intros H. apply (f_equal (@rev ascii)) in H. rewrite rev_involutive in H.
    exact (Hne H). }
  destruct words as [|next words].
  - cbn [Py.join].
    rewrite <- (str_app_nil_r word) at 1.
    rewrite (split_go_read_word word [] EmptyString Hword), app_nil_r.
    cbn [Py.split_go].
    destruct (rev (Py.chars word)) as [|a l] eqn:Hrev; [contradiction|].
    rewrite <- Hrev, rev_involutive, of_chars_chars. reflexivity.
  - rewrite join_cons2.
    rewrite (split_go_read_word word [] _ Hword), app_nil_r.
    change (" " +:+ Py.join " " (next :: words))
      with (String " " (Py.join " " (next :: words))).
    cbn [Py.split_go].
    change (Py.is_space " ") with true. cbv iota.
    destruct (rev (Py.chars word)) as [|a l] eqn:Hrev; [contradiction|].
    rewrite <- Hrev, rev_involutive, of_chars_chars, IH. reflexivity.
Qed.

(** X23: [normalize_whitespace] keeps the words of the text and is
    idempotent: splitting the normalized text gives the words of the
    original text, and normalizing a second time changes nothing. *)
Theorem normalize_whitespace_idempotent (text : string) :
  Py.split (normalize_whitespace text) = Py.split text
  /\ normalize_whitespace (normalize_whitespace text) = normalize_whitespace text.
Proof.
  assert (H : Py.split (normalize_whitespace text) = Py.split text).
  { unfold normalize_whitespace. apply split_join_words.
    apply split_go_words. reflexivity. }
  split; [exact H|].
  unfold normalize_whitespace at 1. rewrite H. reflexivity.
Qed.

Example normalize_whitespace_example :
  normalize_whitespace ("  a" +:+ nl +:+ nl +:+ "b   c ") = "a b c".
Proof. vm_compute. reflexivity. Qed.
